(** * microblog.pub: the request handlers of [app.py]

    A shallow embedding of the Flask handlers of [app.py] that decide the
    authorisation of API calls, the inbox delivery path, the paginated
    outbox views, the thread builder and the tombstone, undo, follow and
    block endpoints.

    - Python values keep their shape: MongoDB documents are records, a
      field that may be absent is an [option], the [idx] dictionary of
      [_build_thread] is a [gmap] keyed by object id.
    - A handler is a function from the world (the database and the log of
      calls made to external collaborators) to an outcome and a new
      world; a Python exception is the [Raised] outcome.
    - The one recursive function, [_flatten], is given the room the
      interpreter has left on its stack; the call that exceeds it is the
      [RecursionError] of Python.
    - What lives outside [app.py] (the JWT serializer, the HTTP-signature
      verifier, the remote fetcher, the little_boxes ingestion engine, the
      object cache service) is a variable of the section the handlers are
      defined in. *)

From Stdlib Require Import String Ascii NArith List.
From stdpp Require Import base option list strings gmap sorting.

#[local] Set Warnings "-register-all".
Local Open Scope string_scope.
Local Open Scope list_scope.

(** ** Python outcomes *)

(** The exception classes the modelled code can meet. [HTTPException n]
    is what [abort n] raises. *)
Inductive exn : Type :=
  | BadSignature
  | CSRFError
  | KeyError
  | TypeError
  | AttributeError
  | ValueError (msg : string)
  | RecursionError
  | InvalidId
  | ActivityNotFoundError (msg : string)
  | NotFromOutboxError (msg : string)
  | HTTPException (code : nat)
  | Exception (msg : string).

(** A call returns or raises. *)
Inductive outcome (A : Type) : Type :=
  | Returned (a : A)
  | Raised (e : exn).
Arguments Returned {A} a.
Arguments Raised {A} e.

Definition obind {A B} (o : outcome A) (k : A -> outcome B) : outcome B :=
  match o with
  | Returned a => k a
  | Raised e => Raised e
  end.

#[global] Instance outcome_ret : MRet outcome := @Returned.
#[global] Instance outcome_bind : MBind outcome := fun A B k o => obind o k.

(** ** JSON bodies *)

Inductive json : Type :=
  | JNull
  | JBool (b : bool)
  | JNum (n : Z)
  | JStr (s : string)
  | JArr (l : list json)
  | JObj (members : list (string * json)).

(** [d.get(k)] on the members of a Python dict. *)
Fixpoint assoc {V} (k : string) (l : list (string * V)) : option V :=
  match l with
  | [] => None
  | (k', v) :: l' => if String.eqb k k' then Some v else assoc k l'
  end.

(** A string that may be [None], as a Python value. *)
Definition opt_json (v : option string) : json :=
  match v with Some s => JStr s | None => JNull end.

(** Python truthiness of a parsed JSON value: [None], [False], zero, the
    empty string, the empty list and the empty dict are false. *)
Definition json_truthy (v : json) : bool :=
  match v with
  | JNull => false
  | JBool b => b
  | JNum n => negb (Z.eqb n 0)
  | JStr s => negb (String.eqb s "")
  | JArr [] => false
  | JArr _ => true
  | JObj [] => false
  | JObj _ => true
  end.

(** [data[k]] for a string key [k]: a dict raises [KeyError] on a missing
    key, every other JSON value raises [TypeError]. *)
Definition subscript (data : json) (k : string) : outcome json :=
  match data with
  | JObj members =>
      match assoc k members with
      | Some v => Returned v
      | None => Raised KeyError
      end
  | _ => Raised TypeError
  end.

(** ** Stored documents *)

(** An embedded ActivityStreams object: the fields the handlers read. *)
Record as_object : Type := {
  o_id : string;
  o_type : string;
  o_inReplyTo : option string;
  o_published : string;
}.

(** [activity.object] is either a bare IRI (Announce, Like, Follow, Block)
    or an embedded object (Create). *)
Inductive obj_field : Type :=
  | ObjIRI (iri : string)
  | ObjEmbedded (o : as_object).

Record activity : Type := {
  a_id : option string;
  a_type : string;
  a_actor : string;
  a_object : obj_field;
  a_published : string;
}.

(** The mutable [meta] block. [None] is an absent key. *)
Record meta_block : Type := {
  deleted : option bool;
  undo : option bool;
  thread_root_parent : option string;
}.

(** A document of [DB.inbox], [DB.outbox] or [DB.threads]. [_id] is the
    ObjectId, ordered as MongoDB orders it (big-endian, as a number). *)
Record doc : Type := {
  _id : N;
  remote_id : string;
  type_ : string;
  doc_activity : activity;
  meta : meta_block;
}.

(** A document of [DB.following] or [DB.followers]; [rel_activity] is its
    ["activity"] entry, when it has one. *)
Record rel_doc : Type := {
  remote_actor : string;
  rel_activity : option activity;
}.

(** A document of [DB.objects_cache]. *)
Record cache_doc : Type := {
  object_id : string;
  cached_object : json;
  part_of_stream : option bool;
  announce_published : string;
}.

Record DB : Type := {
  DB_inbox : list doc;
  DB_outbox : list doc;
  DB_threads : list doc;
  DB_following : list rel_doc;
  DB_followers : list rel_doc;
  DB_objects_cache : list cache_doc;
}.

(** ** MongoDB queries *)

(** The dotted paths the queries of [app.py] select on. *)
Inductive path : Type :=
  | P__id
  | P_remote_id
  | P_type
  | P_activity_object
  | P_activity_object_id
  | P_activity_object_type
  | P_activity_object_inReplyTo
  | P_meta_deleted
  | P_meta_undo
  | P_meta_thread_root_parent.

Inductive bson : Type :=
  | BNull
  | BBool (b : bool)
  | BStr (s : string)
  | BOid (n : N).

Definition bson_eqb (v w : bson) : bool :=
  match v, w with
  | BNull, BNull => true
  | BBool a, BBool b => Bool.eqb a b
  | BStr a, BStr b => String.eqb a b
  | BOid a, BOid b => N.eqb a b
  | _, _ => false
  end.

(** The value found at a path; [None] when the path leads nowhere (a
    missing key, or a step into a string). *)
Definition get_path (p : path) (d : doc) : option bson :=
  match p with
  | P__id => Some (BOid (_id d))
  | P_remote_id => Some (BStr (remote_id d))
  | P_type => Some (BStr (type_ d))
  | P_activity_object =>
      match a_object (doc_activity d) with
      | ObjIRI iri => Some (BStr iri)
      | ObjEmbedded _ => None
      end
  | P_activity_object_id =>
      match a_object (doc_activity d) with
      | ObjIRI _ => None
      | ObjEmbedded o => Some (BStr (o_id o))
      end
  | P_activity_object_type =>
      match a_object (doc_activity d) with
      | ObjIRI _ => None
      | ObjEmbedded o => Some (BStr (o_type o))
      end
  | P_activity_object_inReplyTo =>
      match a_object (doc_activity d) with
      | ObjIRI _ => None
      | ObjEmbedded o => BStr <$> o_inReplyTo o
      end
  | P_meta_deleted => BBool <$> deleted (meta d)
  | P_meta_undo => BBool <$> undo (meta d)
  | P_meta_thread_root_parent => BStr <$> thread_root_parent (meta d)
  end.

(** A query document: [QAnd] is a dict (all of its entries must hold),
    [QOr] is the ["$or"] entry, [QEq p v] is [{p: v}] and [QLt p v] is
    [{p: {"$lt": v}}]. *)
Inductive query : Type :=
  | QEq (p : path) (v : bson)
  | QLt (p : path) (v : bson)
  | QAnd (qs : list query)
  | QOr (qs : list query).

(** Equality with [null] also matches a missing field. *)
Definition eq_holds (v : bson) (found : option bson) : bool :=
  match found with
  | None => bson_eqb v BNull
  | Some w => bson_eqb v w
  end.

(** [$lt] compares within one type only; ObjectIds are the only ordered
    values the handlers compare. *)
Definition lt_holds (v : bson) (found : option bson) : bool :=
  match v, found with
  | BOid c, Some (BOid n) => N.ltb n c
  | _, _ => false
  end.

Fixpoint matches (q : query) (d : doc) : bool :=
  match q with
  | QEq p v => eq_holds v (get_path p d)
  | QLt p v => lt_holds v (get_path p d)
  | QAnd qs => forallb (fun q' => matches q' d) qs
  | QOr qs => existsb (fun q' => matches q' d) qs
  end.

(** [q[k] = v] on a query dict that has no entry [k] yet. *)
Definition q_set (q : query) (entry : query) : query :=
  match q with
  | QAnd qs => QAnd (qs ++ [entry])
  | _ => QAnd [q; entry]
  end.

(** [col.find(q)], in the collection's natural order. *)
Definition find (col : list doc) (q : query) : list doc :=
  List.filter (matches q) col.

(** [col.find_one(q)]. *)
Definition find_one (col : list doc) (q : query) : option doc :=
  head (find col q).

(** Stable insertion sort: Python's [sorted] and the cursor sorts. *)
Section Sorting.
Context {A : Type} (le : A -> A -> bool).

Fixpoint insert_sorted (x : A) (l : list A) : list A :=
  match l with
  | [] => [x]
  | y :: l' => if le x y then x :: l else y :: insert_sorted x l'
  end.

Fixpoint sort_by (l : list A) : list A :=
  match l with
  | [] => []
  | x :: l' => insert_sorted x (sort_by l')
  end.
End Sorting.

(** [.sort("_id", -1)]: descending ObjectId. *)
Definition sort_id_desc (l : list doc) : list doc :=
  sort_by (fun a b => N.leb (_id b) (_id a)) l.

(** [.sort("activity.published", -1)]. *)
Definition sort_published_desc (l : list doc) : list doc :=
  sort_by (fun a b => String.leb (a_published (doc_activity b))
                                 (a_published (doc_activity a))) l.

(** [col.find(q, limit=n).sort("_id", -1)]: the server sorts, then cuts. *)
Definition find_page (col : list doc) (q : query) (limit : nat) : list doc :=
  take limit (sort_id_desc (find col q)).

(** ** Strings *)

(** [s.replace(old, new)] for a non-empty [old]: scan left to right,
    replace each occurrence and resume after it. [skip] counts the
    characters of a matched occurrence still to be dropped. *)
Fixpoint replace_from (old new : string) (skip : nat) (s : string) : string :=
  match s with
  | EmptyString => EmptyString
  | String c rest =>
      match skip with
      | S k => replace_from old new k rest
      | O =>
          if String.prefix old s
          then new +:+ replace_from old new (String.length old - 1) rest
          else String c (replace_from old new 0 rest)
      end
  end.

Definition str_replace (s old new : string) : string :=
  replace_from old new 0 s.

(** [s.startswith(p)]. *)
Definition startswith (s p : string) : bool := String.prefix p s.

(** [s.split(",")[0]]. *)
Fixpoint before_comma (s : string) : string :=
  match s with
  | EmptyString => EmptyString
  | String c rest =>
      if Ascii.eqb c ","%char then EmptyString else String c (before_comma rest)
  end.

(** ** ObjectId *)

Definition hex_digit (n : N) : ascii :=
  nth (N.to_nat n) (list_ascii_of_string "0123456789abcdef") "0"%char.

Definition hex_value (c : ascii) : option N :=
  let n := N_of_ascii c in
  if (48 <=? n)%N && (n <=? 57)%N then Some (n - 48)%N
  else if (97 <=? n)%N && (n <=? 102)%N then Some (n - 87)%N
  else if (65 <=? n)%N && (n <=? 70)%N then Some (n - 55)%N
  else None.

Fixpoint hex_of (digits : nat) (n : N) : string :=
  match digits with
  | O => EmptyString
  | S k => hex_of k (n / 16) +:+ String (hex_digit (n mod 16)) EmptyString
  end.

Fixpoint hex_parse (acc : N) (s : string) : option N :=
  match s with
  | EmptyString => Some acc
  | String c rest =>
      match hex_value c with
      | Some v => hex_parse (16 * acc + v) rest
      | None => None
      end
  end.

(** [str(oid)]: the 24 hexadecimal digits of the 12 bytes. *)
Definition str_ObjectId (n : N) : string := hex_of 24 n.

(** [ObjectId(s)]: anything but 24 hexadecimal digits is an [InvalidId]. *)
Definition ObjectId (s : string) : outcome N :=
  if Nat.eqb (String.length s) 24 then
    match hex_parse 0 s with
    | Some n => Returned n
    | None => Raised InvalidId
    end
  else Raised InvalidId.

(** ** Requests, responses and the world *)

Record request : Type := {
  r_method : string;
  r_path : string;
  r_headers : list (string * string);
  r_args : list (string * string);
  r_form : list (string * string);
  (** [request.is_json]: the content type announces JSON *)
  r_is_json : bool;
  (** the body parsed as JSON, which [request.get_json(force=True)] and,
      for a request that is JSON, [request.json] hand out; [None] when
      the body does not parse (both abort with 400 then) *)
  r_data : option json;
  (** [session.get("logged_in")], as a truth value *)
  r_logged_in : bool;
  (** whether the CSRF token of the request is the session's *)
  r_csrf_valid : bool;
}.

(** [d.get(k, "")] on a multidict of strings. *)
Definition get_or_empty (k : string) (l : list (string * string)) : string :=
  default "" (assoc k l).

(** Python truthiness of an optional string: [None] and [""] are false. *)
Definition truthy (o : option string) : bool :=
  match o with
  | Some s => negb (String.eqb s "")
  | None => false
  end.

(** A little_boxes activity object, by the way the handler obtained it. *)
Inductive ap_activity : Type :=
  | ApParsed (data : json)
  | ApStored (a : activity)
  | ApFollow (actor object : string)
  | ApBlock (actor object : string)
  | ApUndo (target : ap_activity).

(** Calls that leave [app.py]. *)
Inductive event : Type :=
  | EvCSRFProtect
  | EvJWTLoads (token : string)
  | EvVerifyRequest
  | EvFetchIRI (iri : string)
  | EvOutboxPost (a : ap_activity)
  | EvInboxPost (a : ap_activity)
  | EvCachePurge.

Record world : Type := {
  w_db : DB;
  w_trace : list event;
}.

(** A stored record as a template sees it: the document, the [ref] the
    view attached to an Announce, and for thread nodes [_level]. *)
Record item : Type := {
  it_doc : doc;
  it_ref : option json;
}.

(** A record collected by [_build_thread]: the document, its embedded
    object (read once, by the key pass of [sorted]) and whether it carries
    [_requested]. *)
Record note : Type := {
  n_doc : doc;
  n_obj : as_object;
  n_requested : bool;
}.

(** An entry of the thread: the node and its [_level]. *)
Record thread_node : Type := {
  tn_note : note;
  tn_level : nat;
}.

Inductive template_ctx : Type :=
  | IndexCtx (notes n_followers n_following : nat)
             (outbox_data : list item) (cursor : option string)
  | StreamCtx (inbox_data : list item) (cursor : option string)
  | NoteCtx (likes shares : list json) (thread : list thread_node) (note : doc).

Inductive response : Type :=
  | RenderTemplate (name : string) (ctx : template_ctx)
  | Json (status : nat) (body : json)
  | Redirect (location : string)
  | Plain (status : nat) (headers : list (string * string)) (body : string).

(** ** The handler monad *)

Definition M (A : Type) : Type := world -> outcome A * world.

Definition ret {A} (a : A) : M A := fun w => (Returned a, w).

Definition bind {A B} (m : M A) (k : A -> M B) : M B :=
  fun w =>
    match m w with
    | (Returned a, w') => k a w'
    | (Raised e, w') => (Raised e, w')
    end.

Definition raise {A} (e : exn) : M A := fun w => (Raised e, w).

(** [abort(code)] *)
Definition abort {A} (code : nat) : M A := raise (HTTPException code).

(** [try: m except Exception: h] (every modelled class is an Exception). *)
Definition try_except {A} (m : M A) (h : exn -> M A) : M A :=
  fun w =>
    match m w with
    | (Raised e, w') => h e w'
    | done => done
    end.

Definition lift {A} (o : outcome A) : M A := fun w => (o, w).

Definition emit (e : event) : M unit :=
  fun w => (Returned tt, {| w_db := w_db w; w_trace := w_trace w ++ [e] |}).

Definition get_db : M DB := fun w => (Returned (w_db w), w).

(** A collaborator that works on the database. *)
Definition on_db {A} (f : DB -> outcome A * DB) : M A :=
  fun w => let '(o, db') := f (w_db w) in
           (o, {| w_db := db'; w_trace := w_trace w |}).

#[global] Instance M_ret : MRet M := @ret.
#[global] Instance M_bind : MBind M := fun A B k m => bind m k.

(** ** The handlers of [app.py] *)

Section App.
(** *** External collaborators *)

(** [JWT.loads]: the payload, or [BadSignature]. *)
Variable JWT_loads : string -> outcome json.
(** [little_boxes.httpsig.verify_request] on the request at hand. *)
Variable verify_request : request -> outcome bool.
(** [get_backend().fetch_iri] *)
Variable fetch_iri : json -> outcome json.
(** [ap.parse_activity] accepts a body or raises. *)
Variable parse_activity : json -> outcome unit.
(** [OUTBOX.post]: the ingestion engine; yields the id it assigned. *)
Variable OUTBOX_post : ap_activity -> DB -> outcome string * DB.
(** [INBOX.post] *)
Variable INBOX_post : ap_activity -> DB -> outcome unit * DB.
(** [ap.parse_activity(doc["activity"]).build_undo()] *)
Variable build_undo : activity -> outcome ap_activity.
(** [OBJECT_SERVICE.get], which is also [ACTOR_SERVICE.get]. *)
Variable OBJECT_SERVICE_get : string -> outcome json.
(** [back.activity_url] *)
Variable activity_url : string -> string.
(** [ap.parse_activity(doc["activity"]).get_object().get_tombstone()] *)
Variable get_tombstone : activity -> outcome (list (string * json)).
(** [activity_from_doc(doc, embed)], whose helpers are little_boxes'. *)
Variable activity_from_doc : doc -> bool -> list (string * json).
(** the stored dict [doc["activity"]] *)
Variable activity_dict : activity -> list (string * json).
(** [url_for("login", next=request.url)] *)
Variable login_url : request -> string.
(** [config.HEADERS], [config.ME], [config.CTX_AS], [MY_PERSON.id] *)
Variable HEADERS : list string.
Variable ME : list (string * json).
Variable CTX_AS : json.
Variable MY_PERSON_id : string.
(** the default [limit] of [activitypub.build_ordered_collection] *)
Variable page_limit : nat.
(** The handlers of the user API pass their argument on as
    [_user_api_arg] returned it. The driver's queries,
    [back.activity_url], [ap.Follow] and [ap.Block] are modelled on
    strings; [other_argument name v req] is the rest of the handler
    [name] for an argument [v] of another JSON type (a number, [True], a
    list or an object of the JSON body), which is for the driver and
    little_boxes to make something of. *)
Variable other_argument : string -> json -> request -> M response.
(** werkzeug's [redirect(location)] for a location that is not a
    string *)
Variable redirect_other : json -> outcome response.

(** *** Authorisation *)

(** [csrf.protect()] *)
Definition csrf_protect (req : request) : M unit :=
  emit EvCSRFProtect;;
  if r_csrf_valid req then mret tt else raise CSRFError.

Definition call_JWT_loads (token : string) : M json :=
  emit (EvJWTLoads token);; lift (JWT_loads token).

Definition login_required (f : request -> M response) (req : request)
  : M response :=
  if negb (r_logged_in req) then mret (Redirect (login_url req))
  else f req.

Definition _api_required (req : request) : M unit :=
  if r_logged_in req then
    (if negb (bool_decide (r_method req ∈ ["GET"; "HEAD"]))
     then csrf_protect req
     else mret tt)
  else
    let token := str_replace (get_or_empty "Authorization" (r_headers req))
                             "Bearer " "" in
    let token := if String.eqb token ""
                 then get_or_empty "access_token" (r_form req)
                 else token in
    if negb (String.eqb token "xyugavnomuravej") then
      _ ← call_JWT_loads token; mret tt
    else mret tt.

(** [try: _api_required() except BadSignature: abort(code)] *)
Definition api_or_abort (code : nat) (req : request) : M unit :=
  try_except (_api_required req)
    (fun e => match e with
              | BadSignature => abort code
              | _ => raise e
              end).

(** The decorator: [BadSignature] becomes [abort(401)], anything else
    propagates. *)
Definition api_required {A} (f : request -> M A) (req : request) : M A :=
  api_or_abort 401 req;; f req.

(** [jsonify], applied to the members of a dict; [status] is what the
    caller leaves or sets in [resp.status_code]. *)
Definition jsonify_status (status : nat) (data : list (string * json))
  : response :=
  Json status (JObj (match assoc "@context" data with
                     | Some _ => data
                     | None => data ++ [("@context", CTX_AS)]
                     end)).

Definition jsonify (data : list (string * json)) : response :=
  jsonify_status 200 data.

Definition is_api_request (req : request) : bool :=
  match assoc "Accept" (r_headers req) with
  | None => false
  | Some h =>
      let h := before_comma h in
      bool_decide (h ∈ HEADERS) || String.eqb h "application/json"
  end.

(** *** The HTML views of the outbox *)

Definition q_announce_not_undone : query :=
  QAnd [QEq P_type (BStr "Announce"); QEq P_meta_undo (BBool false)].

(** [q["_id"] = {"$lt": ObjectId(c)}] when the request has a cursor. *)
Definition with_cursor (q : query) (req : request) : outcome query :=
  let c := assoc "cursor" (r_args req) in
  if truthy c then
    oid ← ObjectId (default "" c); mret (q_set q (QLt P__id (BOid oid)))
  else mret q.

(** [cursor = str(outbox_data[-1]["_id"])] for a full page. *)
Definition next_cursor (outbox_data : list doc) (limit : nat) : option string :=
  match last outbox_data with
  | Some d =>
      if Nat.eqb (length outbox_data) limit then Some (str_ObjectId (_id d))
      else None
  | None => None
  end.

Definition ref_of (obj : json) : json :=
  JObj [("activity", JObj [("object", obj)]); ("meta", JObj [])].

(** The loop that attaches [data["ref"]] to the Announces of a page. *)
Definition attach_ref (data : doc) : outcome item :=
  if String.eqb (type_ data) "Announce" then
    match a_object (doc_activity data) with
    | ObjIRI iri =>
        if startswith iri "http" then
          obj ← OBJECT_SERVICE_get iri;
          mret {| it_doc := data; it_ref := Some (ref_of obj) |}
        else mret {| it_doc := data; it_ref := None |}
    | ObjEmbedded _ => Raised AttributeError
    end
  else mret {| it_doc := data; it_ref := None |}.

Definition q_inbox_notes : query :=
  QAnd [QEq P_type (BStr "Create"); QEq P_activity_object_type (BStr "Note");
        QEq P_meta_deleted (BBool false)].

(** What [index] and [with_replies] share: everything but [q]. *)
Definition outbox_view (q : query) (req : request) : M response :=
  let limit := 50 in
  q ← lift (with_cursor q req);
  db ← get_db;
  let outbox_data :=
    find_page (DB_outbox db) (QOr [q; q_announce_not_undone]) limit in
  let cursor := next_cursor outbox_data limit in
  outbox_data ← lift (mapM attach_ref outbox_data);
  mret (RenderTemplate "index.html"
          (IndexCtx (length (find (DB_inbox db) q_inbox_notes))
                    (length (DB_followers db)) (length (DB_following db))
                    outbox_data cursor)).

Definition q_index : query :=
  QAnd [QEq P_type (BStr "Create"); QEq P_activity_object_type (BStr "Note");
        QEq P_activity_object_inReplyTo BNull;
        QEq P_meta_deleted (BBool false)].

Definition index (req : request) : M response :=
  if is_api_request req then mret (jsonify ME)
  else outbox_view q_index req.

Definition q_with_replies : query :=
  QAnd [QEq P_type (BStr "Create"); QEq P_activity_object_type (BStr "Note");
        QEq P_meta_deleted (BBool false)].

Definition with_replies (req : request) : M response :=
  outbox_view q_with_replies req.

(** *** The stream *)

Definition q_announce : query := QAnd [QEq P_type (BStr "Announce")].

(** [objcache[c["object_id"]] = c["cached_object"]] for the cached
    objects that are part of the stream, newest announce first. *)
Definition stream_objcache (db : DB) (limit : nat) : gmap string json :=
  let cached :=
    take (limit * 3)
      (sort_by (fun a b => String.leb (announce_published b)
                                      (announce_published a))
         (List.filter (fun c => bool_decide (part_of_stream c = Some true))
            (DB_objects_cache db))) in
  foldl (fun objcache c => <[object_id c := cached_object c]> objcache)
        ∅ cached.

(** The body of the loop over the page: an Announce is kept, with its
    [ref], only when its object is cached. *)
Definition stream_entry (objcache : gmap string json) (data : doc)
  : outcome (list item) :=
  if String.eqb (type_ data) "Announce" then
    match a_object (doc_activity data) with
    | ObjIRI iri =>
        match (if startswith iri "http" then objcache !! iri else None) with
        | Some obj => mret [{| it_doc := data; it_ref := Some (ref_of obj) |}]
        | None => mret []
        end
    | ObjEmbedded _ => Raised AttributeError
    end
  else mret [{| it_doc := data; it_ref := None |}].

Definition stream : request -> M response :=
  login_required (fun req =>
    let limit := 100 in
    q ← lift (with_cursor q_index req);
    db ← get_db;
    let outbox_data :=
      take limit (sort_published_desc (find (DB_inbox db) (QOr [q; q_announce]))) in
    let cursor := next_cursor outbox_data limit in
    let objcache := stream_objcache db limit in
    out ← lift (mapM (stream_entry objcache) outbox_data);
    mret (RenderTemplate "stream.html" (StreamCtx (concat out) cursor))).

(** *** The thread builder *)

(** [d["activity"]["object"]] used as a dict. *)
Definition the_object (d : doc) : outcome as_object :=
  match a_object (doc_activity d) with
  | ObjEmbedded o => Returned o
  | ObjIRI _ => Raised TypeError
  end.

Definition as_note (requested : bool) (d : doc) : outcome note :=
  o ← the_object d;
  mret {| n_doc := d; n_obj := o; n_requested := requested |}.

Definition rep_id (rep : note) : string := o_id (n_obj rep).
Definition published (rep : note) : string := o_published (n_obj rep).

(** [sorted(l, key=lambda d: d["activity"]["object"]["published"])] *)
Definition sorted_by_published (l : list note) : list note :=
  sort_by (fun a b => String.leb (published a) (published b)) l.

(** A [for] loop whose body may raise. *)
Fixpoint for_each {A S} (l : list A) (body : A -> S -> outcome S) (s : S)
  : outcome S :=
  match l with
  | [] => Returned s
  | x :: l' => s' ← body x s; for_each l' body s'
  end.

(** The first loop: index the ids, keeping the first record of each. An
    entry of [idx] is the copy of the record and its [_nodes]. *)
Definition index_replies (replies : list note)
  : gmap string (note * list note) * list note :=
  foldl (fun (acc : gmap string (note * list note) * list note) rep =>
           let '(idx, replies2) := acc in
           match idx !! rep_id rep with
           | Some _ => (idx, replies2)
           | None => (<[rep_id rep := (rep, [])]> idx, replies2 ++ [rep])
           end)
        (∅, []) replies.

(** [idx[reply_of]["_nodes"].append(rep)], for a [reply_of] that may be
    [None]. *)
Definition append_node (reply_of : option string) (rep : note)
    (idx : gmap string (note * list note))
  : outcome (gmap string (note * list note)) :=
  match reply_of ≫= (idx !!.) with
  | Some (parent, nodes) =>
      Returned (<[default "" reply_of := (parent, nodes ++ [rep])]> idx)
  | None => Raised KeyError
  end.

(** The second loop: build the tree. *)
Definition link_replies (root_id : string) (replies2 : list note)
    (idx : gmap string (note * list note))
  : outcome (gmap string (note * list note)) :=
  for_each replies2
    (fun rep idx =>
       if String.eqb (rep_id rep) root_id then Returned idx
       else append_node (o_inReplyTo (n_obj rep)) rep idx)
    idx.

(** [_flatten], with the accumulator [thread] passed along. [room] is
    the number of frames the interpreter still admits above the frame
    of the call at hand ([sys.getrecursionlimit()] less the depth of the
    stack): the recursive call made with no room left raises
    [RecursionError]. The key function of [sorted] runs one frame up as
    well, before the first recursive call does, and only when there is
    a node to call [_flatten] on: it raises nothing that this call
    would not. A run that ends visits no dict twice (every record is in
    at most one [_nodes] list, once), so the [_level] written at a visit
    is final. *)
Fixpoint _flatten (room : nat) (idx : gmap string (note * list note))
    (node : note) (level : nat) (thread : list thread_node) {struct room}
  : outcome (list thread_node) :=
  let thread := thread ++ [{| tn_note := node; tn_level := level |}] in
  match idx !! rep_id node with
  | None => Raised KeyError
  | Some (_, nodes) =>
      for_each (sorted_by_published nodes)
        (fun snode thread =>
           match room with
           | O => Raised RecursionError
           | S room' => _flatten room' idx snode (level + 1) thread
           end)
        thread
  end.

Definition thread_query (root_id : string) (o : as_object) : query :=
  QOr ([QAnd [QEq P_meta_thread_root_parent (BStr root_id);
              QEq P_type (BStr "Create")]]
       ++ (if truthy (o_inReplyTo o)
           then [QAnd [QEq P_activity_object_id
                         (BStr (default "" (o_inReplyTo o)))]]
           else [])).

(** The records [_build_thread] works on: the requested one, then what
    the three collections hold for the query. *)
Definition collect_replies (data : doc) (query : query) (db : DB)
  : outcome (list note) :=
  rep ← as_note true data;
  found ← mapM (as_note false)
    (find (DB_inbox db) query ++ find (DB_outbox db) query ++ find (DB_threads db) query);
  mret (rep :: found).

(** [room] is the room of the first call of [_flatten]: that call is
    made at the depth at which the key function of the [sorted] above
    has run, so the interpreter admits it. *)
Definition _build_thread (room : nat) (data : doc) (include_children : bool)
    (db : DB) : outcome (list thread_node) :=
  o ← the_object data;
  let root_id := default (o_id o) (thread_root_parent (meta data)) in
  let query := thread_query root_id o in
  replies ← collect_replies data query db;
  let replies := sorted_by_published replies in
  let '(idx, replies2) := index_replies replies in
  idx ← link_replies root_id replies2 idx;
  match idx !! root_id with
  | None => Raised KeyError
  | Some (root, _) => _flatten room idx root 0 []
  end.

(** *** Reading one note *)

Definition q_remote_id (iri : string) : query :=
  QAnd [QEq P_remote_id (BStr iri)].

Definition q_reactions (ty oid : string) : query :=
  QAnd [QEq P_meta_undo (BBool false); QEq P_type (BStr ty);
        QOr [QAnd [QEq P_activity_object_id (BStr oid)];
             QAnd [QEq P_activity_object (BStr oid)]]].

Definition actors_of (docs : list doc) : outcome (list json) :=
  mapM (fun d => OBJECT_SERVICE_get (a_actor (doc_activity d))) docs.

Definition note_by_id (room : nat) (note_id : string) : M response :=
  db ← get_db;
  match find_one (DB_outbox db) (q_remote_id (activity_url note_id)) with
  | None => abort 404
  | Some data =>
      if default false (deleted (meta data)) then abort 410
      else
        thread ← lift (_build_thread room data true db);
        o ← lift (the_object data);
        likes ← lift (actors_of (find (DB_inbox db) (q_reactions "Like" (o_id o))));
        shares ← lift (actors_of (find (DB_inbox db) (q_reactions "Announce" (o_id o))));
        mret (RenderTemplate "note.html" (NoteCtx likes shares thread data))
  end.

(** *** The ordered collections *)

(** Modelled from the spec: [activitypub.build_ordered_collection] lives
    in activitypub.py, outside [app.py]. Section 4.4 of the
    specification: the query combines the caller's filter with "ordering
    key strictly less than cursor" when a cursor is present, sorts
    descending by ordering key and returns at most [limit] items;
    [next_cursor] is set only when exactly [limit] items were returned. *)
Record collection_page : Type := {
  cp_items : list doc;
  cp_next_cursor : option string;
}.

Definition build_ordered_collection (col : list doc) (q : query)
    (cursor : option string) : outcome collection_page :=
  q ← (if truthy cursor then
         oid ← ObjectId (default "" cursor);
         mret (q_set q (QLt P__id (BOid oid)))
       else mret q);
  let data := find_page col q page_limit in
  mret {| cp_items := data; cp_next_cursor := next_cursor data page_limit |}.

Definition page_members (map_func : doc -> json) (page : collection_page)
  : list (string * json) :=
  [("items", JArr (map_func <$> cp_items page))]
  ++ match cp_next_cursor page with
     | Some c => [("next", JStr c)]
     | None => []
     end.

Definition remove_context (activity : list (string * json))
  : list (string * json) :=
  List.filter (fun kv => negb (String.eqb (fst kv) "@context")) activity.

Definition q_not_deleted : query := QAnd [QEq P_meta_deleted (BBool false)].

Definition call_OUTBOX_post (a : ap_activity) : M string :=
  emit (EvOutboxPost a);; on_db (OUTBOX_post a).

Definition call_INBOX_post (a : ap_activity) : M unit :=
  emit (EvInboxPost a);; on_db (INBOX_post a).

(** [request.get_json(force=True)] *)
Definition get_json_force (req : request) : M json :=
  match r_data req with
  | Some data => mret data
  | None => abort 400
  end.

Definition outbox (req : request) : M response :=
  if String.eqb (r_method req) "GET" then
    if negb (is_api_request req) then abort 404
    else
      db ← get_db;
      page ← lift (build_ordered_collection (DB_outbox db) q_not_deleted
                     (assoc "cursor" (r_args req)));
      mret (jsonify (page_members (fun d => JObj (activity_from_doc d true)) page))
  else
    api_or_abort 401 req;;
    data ← get_json_force req;
    lift (parse_activity data);;
    activity_id ← call_OUTBOX_post (ApParsed data);
    emit EvCachePurge;;
    mret (Plain 201 [("Location", activity_id)] "").

Definition outbox_detail (item_id : string) : M response :=
  db ← get_db;
  match find_one (DB_outbox db) (q_remote_id (activity_url item_id)) with
  | None => raise TypeError
  | Some d =>
      if default false (deleted (meta d)) then
        tombstone ← lift (get_tombstone (doc_activity d));
        mret (jsonify_status 410 tombstone)
      else mret (jsonify (activity_from_doc d false))
  end.

(** *** The user API *)

(** The [oid] that [_user_api_arg] looks up. For a request that is JSON
    it is [request.json.get(key)]: a body that does not parse aborts
    with 400, a body that is not an object has no [get]
    ([AttributeError]), and what an object holds under [key] may be any
    JSON value. Otherwise it is
    [request.args.get(key) or request.form.get(key)]. *)
Definition user_api_oid (req : request) (key : string) : outcome json :=
  if r_is_json req then
    match r_data req with
    | None => Raised (HTTPException 400)
    | Some (JObj members) => Returned (default JNull (assoc key members))
    | Some _ => Raised AttributeError
    end
  else
    let from_args := opt_json (assoc key (r_args req)) in
    Returned (if json_truthy from_args then from_args
              else opt_json (assoc key (r_form req))).

(** [_user_api_arg(key)] *)
Definition _user_api_arg (req : request) (key : string) : outcome json :=
  oid ← user_api_oid req key;
  if negb (json_truthy oid) then Raised (ValueError ("missing " +:+ key))
  else Returned oid.

(** [_user_api_arg(key, default=d)] *)
Definition _user_api_arg_default (req : request) (key : string) (d : json)
  : outcome json :=
  oid ← user_api_oid req key;
  if negb (json_truthy oid) then Returned d else Returned oid.

(** [redirect(location)] *)
Definition redirect (location : json) : outcome response :=
  match location with
  | JStr url => Returned (Redirect url)
  | _ => redirect_other location
  end.

(** [_user_api_response(activity=activity_id)] *)
Definition _user_api_response (req : request) (activity_id : string)
  : outcome response :=
  _redirect ← _user_api_arg_default req "redirect" JNull;
  if json_truthy _redirect then redirect _redirect
  else Returned (Json 201 (JObj [("activity", JStr activity_id)])).

Definition q_undo_target (oid : string) : query :=
  QOr [QAnd [QEq P_remote_id (BStr (activity_url oid))];
       QAnd [QEq P_remote_id (BStr oid)]].

Definition api_undo : request -> M response :=
  api_required (fun req =>
    oid ← lift (_user_api_arg req "id");
    match oid with
    | JStr oid =>
        db ← get_db;
        match find_one (DB_outbox db) (q_undo_target oid) with
        | None => raise (ActivityNotFoundError ("cannot found " +:+ oid))
        | Some d =>
            undo ← lift (build_undo (doc_activity d));
            undo_id ← call_OUTBOX_post undo;
            lift (_user_api_response req undo_id)
        end
    | _ => other_argument "api_undo" oid req
    end).

Definition q_block (actor : string) : query :=
  QAnd [QEq P_type (BStr "Block"); QEq P_activity_object (BStr actor);
        QEq P_meta_undo (BBool false)].

(** [existing["activity"]["id"]] *)
Definition activity_id_of (a : option activity) : outcome string :=
  match a ≫= a_id with
  | Some i => Returned i
  | None => Raised KeyError
  end.

Definition api_block : request -> M response :=
  api_required (fun req =>
    actor ← lift (_user_api_arg req "actor");
    match actor with
    | JStr actor =>
        db ← get_db;
        match find_one (DB_outbox db) (q_block actor) with
        | Some existing =>
            existing_id ← lift (activity_id_of (Some (doc_activity existing)));
            lift (_user_api_response req existing_id)
        | None =>
            block_id ← call_OUTBOX_post (ApBlock MY_PERSON_id actor);
            lift (_user_api_response req block_id)
        end
    | _ => other_argument "api_block" actor req
    end).

(** [DB.following.find_one({"remote_actor": actor})] *)
Definition find_following (col : list rel_doc) (actor : string)
  : option rel_doc :=
  head (List.filter (fun d => String.eqb (remote_actor d) actor) col).

Definition api_follow : request -> M response :=
  api_required (fun req =>
    actor ← lift (_user_api_arg req "actor");
    match actor with
    | JStr actor =>
        db ← get_db;
        match find_following (DB_following db) actor with
        | Some existing =>
            existing_id ← lift (activity_id_of (rel_activity existing));
            lift (_user_api_response req existing_id)
        | None =>
            follow_id ← call_OUTBOX_post (ApFollow MY_PERSON_id actor);
            lift (_user_api_response req follow_id)
        end
    | _ => other_argument "api_follow" actor req
    end).

(** *** The inbox *)

Definition call_verify_request (req : request) : M bool :=
  emit EvVerifyRequest;; lift (verify_request req).

Definition call_fetch_iri (iri : json) : M json :=
  emit (EvFetchIRI (match iri with JStr s => s | _ => "" end));;
  lift (fetch_iri iri).

Definition verification_failed : response :=
  Json 422
    (JObj [("error",
            JStr "failed to verify request (using HTTP signatures or fetching the IRI)")]).

(** The two nested [try] blocks of the POST branch: the body to go on
    with, or the response to stop with. The handler of the inner
    [except] formats [data["id"]] into its log line before it builds
    the response. *)
Definition verified_payload (req : request) (data : json)
  : M (json + response) :=
  try_except
    (ok ← call_verify_request req;
     if negb ok then raise (Exception "failed to verify request")
     else mret (inl data))
    (fun _ =>
       try_except
         (iri ← lift (subscript data "id");
          fetched ← call_fetch_iri iri;
          mret (inl fetched))
         (fun _ =>
            _ ← lift (subscript data "id");
            mret (inr verification_failed))).

Definition inbox (req : request) : M response :=
  if String.eqb (r_method req) "GET" then
    if negb (is_api_request req) then abort 404
    else
      api_or_abort 404 req;;
      db ← get_db;
      page ← lift (build_ordered_collection (DB_inbox db) q_not_deleted
                     (assoc "cursor" (r_args req)));
      mret (jsonify (page_members
                       (fun d => JObj (remove_context
                                         (activity_dict (doc_activity d))))
                       page))
  else
    data ← get_json_force req;
    checked ← verified_payload req data;
    match checked with
    | inr resp => mret resp
    | inl data =>
        lift (parse_activity data);;
        call_INBOX_post (ApParsed data);;
        mret (Plain 201 [] "")
    end.

End App.

(** ** More of [app.py]: the routes around the ones above *)

(** The template context every page gets from [inject_config]. *)
Record config_ctx : Type := {
  logged_in : bool;
  followers_count : nat;
  following_count : nat;
  notes_count : nat;
  with_replies_count : nat;
}.

(** [without_id(l)], on the dicts of a cursor. *)
Definition without_id (l : list (list (string * json)))
  : list (list (string * json)) :=
  (fun d => List.filter (fun kv => negb (String.eqb (fst kv) "_id")) d) <$> l.

(** [" ".join(s)] for a string [s]: its characters, a space between
    them. *)
Fixpoint join_chars (s : string) : string :=
  match s with
  | EmptyString => EmptyString
  | String c EmptyString => s
  | String c rest => String c (String " "%char (join_chars rest))
  end.

(** A document of [DB.indieauth], as [indieauth_flow] stores it (the
    only writer of the collection): [scope] is a string. *)
Record auth_doc : Type := {
  ia_scope : string;
  ia_me : option string;
  ia_client_id : option string;
  ia_state : option string;
  ia_redirect_uri : option string;
  ia_response_type : option string;
  ia_code : string;
  ia_verified : bool;
}.

(** [request.form.getlist(k)] *)
Definition getlist (k : string) (l : list (string * string)) : list string :=
  snd <$> List.filter (fun kv => String.eqb (fst kv) k) l.

(** A value in an f-string: [None] prints as ["None"]. *)
Definition fmt (v : option string) : string := default "None" v.

Section Routes.
(** *** External collaborators *)

Variable JWT_loads : string -> outcome json.
Variable OUTBOX_post : ap_activity -> DB -> outcome string * DB.
Variable OBJECT_SERVICE_get : string -> outcome json.
(** [OBJECT_SERVICE.get] of a key that is not a string, and werkzeug's
    [redirect] of a location that is not one *)
Variable OBJECT_SERVICE_get_other : json -> outcome json.
Variable redirect_other : json -> outcome response.
Variable activity_url : string -> string.
Variable activity_from_doc : doc -> bool -> list (string * json).
Variable activity_dict : activity -> list (string * json).
Variable login_url : request -> string.
Variable HEADERS : list string.
Variable CTX_AS : json.
Variable MY_PERSON_id : string.
Variable page_limit : nat.
(** [config.ID], [config.DEBUG_MODE] *)
Variable ID : string.
Variable DEBUG_MODE : bool.
(** [config._drop_db] *)
Variable _drop_db : DB -> DB.
(** a document of the outbox as the dict the driver hands out *)
Variable doc_dict : doc -> list (string * json).
(** [ap.parse_activity(data["activity"])] accepts a stored activity or
    raises. *)
Variable parse_stored : activity -> outcome unit.
(** [ap.parse_activity(data["activity"]).get_object().id] *)
Variable get_object_id : activity -> outcome string.
(** [doc["activity"]["object"]], as JSON *)
Variable object_of_doc : doc -> json.
(** [ap.parse_activity(obj, expected=ActivityType.NOTE).id]: the id of
    the note, or what the parse raises. *)
Variable parse_note_id : json -> outcome string.
(** [note.build_delete()], [note.build_announce(MY_PERSON)],
    [note.build_like(MY_PERSON)], for the note parsed from a body. *)
Variable build_delete : json -> outcome ap_activity.
Variable build_announce : json -> outcome ap_activity.
Variable build_like : json -> outcome ap_activity.
(** [little_boxes.webfinger.get_actor_url] *)
Variable get_actor_url : option string -> outcome (option string).
(** [render_template(name, **context)] for a context of optional
    strings. *)
Variable render_template : string -> list (string * option string) -> string.

(** *** The context processor *)

Definition inject_config (req : request) : M config_ctx :=
  db ← get_db;
  let q := q_index in
  let notes_count :=
    length (find (DB_outbox db) (QOr [q; q_announce_not_undone])) in
  let q := q_with_replies in
  let with_replies_count :=
    length (find (DB_outbox db) (QOr [q; q_announce_not_undone])) in
  mret {| logged_in := r_logged_in req;
          followers_count := length (DB_followers db);
          following_count := length (DB_following db);
          notes_count := notes_count;
          with_replies_count := with_replies_count |}.

(** *** The error handler of [ValueError] *)

(** [handle_value_error], as Flask applies it to what a view raises. *)
Definition handle_value_error (view : M response) : M response :=
  try_except view
    (fun error =>
       match error with
       | ValueError msg => mret (Json 400 (JObj [("message", JStr msg)]))
       | _ => raise error
       end).

(** *** Following from the remote-follow form *)

Definition authorize_follow : request -> M response :=
  login_required login_url (fun req =>
    if String.eqb (r_method req) "GET" then
      mret (Plain 200 []
              (render_template "authorize_remote_follow.html"
                 [("profile", assoc "profile" (r_args req))]))
    else
      actor ← lift (get_actor_url (assoc "profile" (r_form req)));
      if negb (truthy actor) then abort 500
      else
        let actor := default "" actor in
        db ← get_db;
        if Nat.ltb 0 (length (List.filter
                                (fun d => String.eqb (remote_actor d) actor)
                                (DB_following db)))
        then mret (Redirect "/following")
        else
          call_OUTBOX_post OUTBOX_post (ApFollow MY_PERSON_id actor);;
          mret (Redirect "/following")).

(** *** The sub-resources of an outbox item *)

Definition q_live (iri : string) : query :=
  QAnd [QEq P_remote_id (BStr iri); QEq P_meta_deleted (BBool false)].

(** [obj["type"] != ActivityType.CREATE.value] *)
Definition is_not_create (ty : json) : bool :=
  match ty with
  | JStr s => negb (String.eqb s "Create")
  | _ => true
  end.

Definition outbox_activity (item_id : string) : M response :=
  db ← get_db;
  match find_one (DB_outbox db) (q_live (activity_url item_id)) with
  | None => abort 404
  | Some data =>
      let obj := JObj (activity_from_doc data false) in
      ty ← lift (subscript obj "type");
      if is_not_create ty then abort 404
      else
        object ← lift (subscript obj "object");
        match object with
        | JObj members => mret (jsonify CTX_AS members)
        | _ => raise TypeError
        end
  end.

Definition q_replies (oid : string) : query :=
  QAnd [QEq P_meta_deleted (BBool false); QEq P_type (BStr "Create");
        QEq P_activity_object_inReplyTo (BStr oid)].

Definition outbox_activity_replies (item_id : string) (req : request)
  : M response :=
  if negb (is_api_request HEADERS req) then abort 404
  else
    db ← get_db;
    match find_one (DB_outbox db) (q_live (activity_url item_id)) with
    | None => abort 404
    | Some data =>
        lift (parse_stored (doc_activity data));;
        if negb (String.eqb (a_type (doc_activity data)) "Create") then abort 404
        else
          oid ← lift (get_object_id (doc_activity data));
          page ← lift (build_ordered_collection page_limit (DB_inbox db)
                         (q_replies oid) (assoc "cursor" (r_args req)));
          mret (jsonify CTX_AS (page_members object_of_doc page))
    end.

Definition outbox_activity_likes (item_id : string) (req : request)
  : M response :=
  if negb (is_api_request HEADERS req) then abort 404
  else
    db ← get_db;
    match find_one (DB_outbox db) (q_live (activity_url item_id)) with
    | None => abort 404
    | Some data =>
        lift (parse_stored (doc_activity data));;
        if negb (String.eqb (a_type (doc_activity data)) "Create") then abort 404
        else
          oid ← lift (get_object_id (doc_activity data));
          page ← lift (build_ordered_collection page_limit (DB_inbox db)
                         (q_reactions "Like" oid) (assoc "cursor" (r_args req)));
          mret (jsonify CTX_AS
                  (page_members
                     (fun d => JObj (remove_context
                                       (activity_dict (doc_activity d))))
                     page))
    end.

Definition outbox_activity_shares (item_id : string) (req : request)
  : M response :=
  if negb (is_api_request HEADERS req) then abort 404
  else
    db ← get_db;
    match find_one (DB_outbox db) (q_live (activity_url item_id)) with
    | None => abort 404
    | Some data =>
        lift (parse_stored (doc_activity data));;
        if negb (String.eqb (a_type (doc_activity data)) "Create") then abort 404
        else
          oid ← lift (get_object_id (doc_activity data));
          page ← lift (build_ordered_collection page_limit (DB_inbox db)
                         (q_reactions "Announce" oid)
                         (assoc "cursor" (r_args req)));
          mret (jsonify CTX_AS
                  (page_members
                     (fun d => JObj (remove_context
                                       (activity_dict (doc_activity d))))
                     page))
    end.

(** *** Deleting, boosting and liking a note *)

(** [_user_api_get_note(from_outbox)]: the body of the note. *)
Definition _user_api_get_note (req : request) (from_outbox : bool) : M json :=
  oid ← lift (_user_api_arg req "id");
  obj ← lift (match oid with
              | JStr oid => OBJECT_SERVICE_get oid
              | _ => OBJECT_SERVICE_get_other oid
              end);
  note_id ← lift (parse_note_id obj);
  if from_outbox && negb (startswith note_id ID) then
    raise (NotFromOutboxError
             ("cannot load " +:+ note_id +:+ ", id must be owned by the server"))
  else mret obj.

Definition api_delete : request -> M response :=
  api_required JWT_loads (fun req =>
    note ← _user_api_get_note req true;
    delete ← lift (build_delete note);
    delete_id ← call_OUTBOX_post OUTBOX_post delete;
    lift (_user_api_response redirect_other req delete_id)).

Definition api_boost : request -> M response :=
  api_required JWT_loads (fun req =>
    note ← _user_api_get_note req false;
    announce ← lift (build_announce note);
    announce_id ← call_OUTBOX_post OUTBOX_post announce;
    lift (_user_api_response redirect_other req announce_id)).

Definition api_like : request -> M response :=
  api_required JWT_loads (fun req =>
    note ← _user_api_get_note req false;
    like ← lift (build_like note);
    like_id ← call_OUTBOX_post OUTBOX_post like;
    lift (_user_api_response redirect_other req like_id)).

(** *** The debug endpoint *)

Definition api_debug : request -> M response :=
  api_required JWT_loads (fun req =>
    if negb DEBUG_MODE then
      mret (Json 200 (JObj [("message", JStr "DEBUG_MODE is off")]))
    else if String.eqb (r_method req) "DELETE" then
      on_db (fun db => (Returned tt, _drop_db db));;
      mret (Json 200 (JObj [("message", JStr "DB dropped")]))
    else
      db ← get_db;
      mret (Json 200
              (JObj [("inbox", JNum (Z.of_nat (length (DB_inbox db))));
                     ("outbox", JNum (Z.of_nat (length (DB_outbox db))));
                     ("outbox_data",
                      JArr (JObj <$> without_id (doc_dict <$> DB_outbox db)))]))).

End Routes.

(** *** IndieAuth *)

Section IndieAuth.
Variable JWT_loads : string -> outcome json.
(** [JWT.dumps(payload).decode("utf-8")] *)
Variable JWT_dumps : list (string * json) -> string.
(** [datetime.now().timestamp()] *)
Variable now : json.
(** [urllib.parse.urlencode] *)
Variable urlencode : list (string * json) -> string.
Variable login_url : request -> string.

Definition build_auth_resp (req : request) (payload : list (string * json))
  : response :=
  if bool_decide (assoc "Accept" (r_headers req) = Some "application/json")
  then Json 200 (JObj payload)
  else Plain 200 [("Content-Type", "application/x-www-form-urlencoded")]
             (urlencode payload).

(** [indieauth_flow], under [login_required]; [code] is the
    [binascii.hexlify(os.urandom(8))] of the call, and [DB.indieauth] is
    passed along. *)
Definition indieauth_flow (code : string) (req : request)
    (indieauth : list auth_doc) : outcome response * list auth_doc :=
  if negb (r_logged_in req) then (Returned (Redirect (login_url req)), indieauth)
  else
    let auth :=
      {| ia_scope := String.concat " " (getlist "scopes" (r_form req));
         ia_me := assoc "me" (r_form req);
         ia_client_id := assoc "client_id" (r_form req);
         ia_state := assoc "state" (r_form req);
         ia_redirect_uri := assoc "redirect_uri" (r_form req);
         ia_response_type := assoc "response_type" (r_form req);
         ia_code := code;
         ia_verified := false |} in
    if negb (truthy (ia_redirect_uri auth)) then
      (Raised (HTTPException 500), indieauth)
    else
      let red := fmt (ia_redirect_uri auth) +:+ "?code=" +:+ code
                 +:+ "&state=" +:+ fmt (ia_state auth)
                 +:+ "&me=" +:+ fmt (ia_me auth) in
      (Returned (Redirect red), indieauth ++ [auth]).

(** The filter of [token_endpoint] on [DB.indieauth]: equality on the
    four fields, [None] matching a null field. *)
Definition auth_matches (code me redirect_uri client_id : option string)
    (a : auth_doc) : bool :=
  bool_decide (code = Some (ia_code a))
  && bool_decide (me = ia_me a)
  && bool_decide (redirect_uri = ia_redirect_uri a)
  && bool_decide (client_id = ia_client_id a).

Definition token_endpoint (indieauth : list auth_doc) (req : request)
  : outcome response :=
  if String.eqb (r_method req) "POST" then
    let code := assoc "code" (r_form req) in
    let me := assoc "me" (r_form req) in
    let redirect_uri := assoc "redirect_uri" (r_form req) in
    let client_id := assoc "client_id" (r_form req) in
    match List.find (auth_matches code me redirect_uri client_id) indieauth with
    | None => Raised (HTTPException 403)
    | Some auth =>
        let scope := join_chars (ia_scope auth) in
        let payload := [("me", opt_json me); ("client_id", opt_json client_id);
                        ("scope", JStr scope); ("ts", now)] in
        let token := JWT_dumps payload in
        Returned (build_auth_resp req
                    [("me", opt_json me); ("scope", JStr scope);
                     ("access_token", JStr token)])
    end
  else
    match assoc "Authorization" (r_headers req) with
    | None => Raised AttributeError
    | Some h =>
        let token := str_replace h "Bearer " "" in
        match JWT_loads token with
        | Returned payload =>
            me ← subscript payload "me";
            scope ← subscript payload "scope";
            client_id ← subscript payload "client_id";
            mret (build_auth_resp req
                    [("me", me); ("scope", scope); ("client_id", client_id)])
        | Raised BadSignature => Raised (HTTPException 403)
        | Raised e => Raised e
        end
    end.
End IndieAuth.

(** ** Notions the statements use *)

(** The token [_api_required] compares with the hard-coded one: the
    Authorization header without its ["Bearer "], or the [access_token]
    form field when that is empty. *)
Definition bearer_token (req : request) : string :=
  let token := str_replace (get_or_empty "Authorization" (r_headers req))
                           "Bearer " "" in
  if String.eqb token "" then get_or_empty "access_token" (r_form req)
  else token.

(** The events of a run: what the trace gained. *)
Definition new_events (w w' : world) : list event :=
  drop (length (w_trace w)) (w_trace w').

Definition is_JWT_event (e : event) : bool :=
  match e with EvJWTLoads _ => true | _ => false end.

Definition is_post_event (e : event) : bool :=
  match e with EvOutboxPost _ | EvInboxPost _ => true | _ => false end.

(** The world after more calls were logged. *)
Definition seen (w : world) (events : list event) : world :=
  {| w_db := w_db w; w_trace := w_trace w ++ events |}.

(** The verifier of the inbox returned false or raised. *)
Definition verification_fails (verify_request : request -> outcome bool)
    (req : request) : Prop :=
  verify_request req = Returned false \/ exists e, verify_request req = Raised e.

(** What the inbox does with a body it trusts. *)
Definition process (parse_activity : json -> outcome unit)
    (INBOX_post : ap_activity -> DB -> outcome unit * DB) (data : json)
  : M response :=
  lift (parse_activity data);;
  call_INBOX_post INBOX_post (ApParsed data);;
  mret (Plain 201 [] "").

(** The filter of the HTML index, and the filter of GET /outbox. *)
Definition index_filter : query := QOr [q_index; q_announce_not_undone].
Definition outbox_filter : query := q_not_deleted.

(** A Create activity of a note that replies to nothing. *)
Definition top_level_note (d : doc) : Prop :=
  type_ d = "Create"
  /\ exists o, a_object (doc_activity d) = ObjEmbedded o
               /\ o_type o = "Note" /\ o_inReplyTo o = None.

(** The world at the start of a request. *)
Definition world_of (db : DB) : world := {| w_db := db; w_trace := [] |}.

(** The page an HTML view of the outbox rendered: its records and its
    cursor. *)
Definition rendered_page (r : outcome response * world)
  : option (list doc * option string) :=
  match fst r with
  | Returned (RenderTemplate _ (IndexCtx _ _ _ outbox_data cursor)) =>
      Some (it_doc <$> outbox_data, cursor)
  | _ => None
  end.

(** A reader that starts without cursor and follows the cursor of each
    page until a page has none: the pages it sees, at most [n] of them. *)
Fixpoint follow_cursors (view : request -> M response)
    (get : list (string * string) -> request) (db : DB) (n : nat)
    (cursor : option string) : list (list doc) :=
  match n with
  | O => []
  | S n' =>
      let args := match cursor with
                  | Some c => [("cursor", c)]
                  | None => []
                  end in
      match rendered_page (view (get args) (world_of db)) with
      | Some (records, Some c) =>
          records :: follow_cursors view get db n' (Some c)
      | Some (records, None) => [records]
      | None => []
      end
  end.

(** ** Threads *)

(** De-duplication by object id, first occurrence kept; [seen] holds the
    ids met so far. *)
Fixpoint first_by_id (seen : list string) (l : list note) : list note :=
  match l with
  | [] => []
  | rep :: l' =>
      if bool_decide (rep_id rep ∈ seen) then first_by_id seen l'
      else rep :: first_by_id (seen ++ [rep_id rep]) l'
  end.

(** The records a thread is made of: what was collected, in the order of
    [published], one record per object id. *)
Definition kept_replies (replies : list note) : list note :=
  first_by_id [] (sorted_by_published replies).

(** [rep] answers the note with id [k]. *)
Definition replies_to (k : string) (rep : note) : bool :=
  match o_inReplyTo (n_obj rep) with
  | Some p => String.eqb p k
  | None => false
  end.

(** The records of [l], other than the root, that answer [k]. *)
Definition kids (root_id : string) (l : list note) (k : string) : list note :=
  List.filter (fun rep => negb (String.eqb (rep_id rep) root_id)
                          && replies_to k rep) l.

(** A reply tree. *)
Inductive tree : Type :=
  | Node (label : note) (children : list tree).

Definition label (t : tree) : note :=
  match t with Node n _ => n end.

Definition children (t : tree) : list tree :=
  match t with Node _ cs => cs end.

(** The subtrees of a tree, itself first, in pre-order. *)
Fixpoint subtrees (t : tree) : list tree :=
  match t with
  | Node _ cs => t :: flat_map subtrees cs
  end.

Definition labels (t : tree) : list note := label <$> subtrees t.

(** The pre-order traversal: a node at its level, then its children, in
    their order, one level down. *)
Fixpoint preorder (level : nat) (t : tree) : list thread_node :=
  match t with
  | Node n cs =>
      {| tn_note := n; tn_level := level |}
      :: flat_map (preorder (level + 1)) cs
  end.

(** Every edge of the tree is a reply: the child's [inReplyTo] is the
    parent's object id. *)
Definition reply_links (t : tree) : Prop :=
  forall n cs c, Node n cs ∈ subtrees t -> c ∈ cs ->
    o_inReplyTo (n_obj (label c)) = Some (rep_id n).

(** Ascending [published]. *)
Definition published_le (a b : note) : Prop :=
  String.le (published a) (published b).

(** At every node the children are in ascending order of [published]. *)
Definition by_published (t : tree) : Prop :=
  forall n cs, Node n cs ∈ subtrees t -> Sorted published_le (label <$> cs).

(** The same tree, up to the order of siblings. *)
Inductive sibling_reorder : tree -> tree -> Prop :=
  | reorder_node n cs cs1 cs2 :
      cs ≡ₚ cs1 ->
      Forall2 sibling_reorder cs1 cs2 ->
      sibling_reorder (Node n cs) (Node n cs2).

(** The trees of [ts] in the order in which [l] lists their roots. *)
Definition order_as (l : list note) (ts : list tree) : list tree :=
  l ≫= fun rep =>
         List.filter (fun t => String.eqb (rep_id (label t)) (rep_id rep)) ts.

(** The tree with the siblings of every node in the order of [l]. *)
Fixpoint in_thread_order (l : list note) (t : tree) : tree :=
  match t with
  | Node n cs => Node n (order_as l (List.map (in_thread_order l) cs))
  end.

(** The record of [l] with object id [k]. *)
Definition with_id (k : string) (l : list note) : option note :=
  List.find (fun rep => String.eqb (rep_id rep) k) l.

(** What [idx] holds once the records [l] are indexed and linked:
    under every id the record and its [_nodes]. *)
Definition idx_of (l : list note) (nodes : string -> list note)
    (idx : gmap string (note * list note)) : Prop :=
  forall k, idx !! k = (fun rep => (rep, nodes k)) <$> with_id k l.

(** The number of nodes of a tree. *)
Definition size (t : tree) : nat := length (subtrees t).

(** A tree that [idx] describes: under the id of every node, [idx] holds
    the children as its [_nodes], in ascending order of [published]. *)
Inductive thread_shaped (idx : gmap string (note * list note)) : tree -> Prop :=
  | shaped_node n cs entry :
      idx !! rep_id n = Some (entry, label <$> cs) ->
      Sorted published_le (label <$> cs) ->
      Forall (thread_shaped idx) cs ->
      thread_shaped idx (Node n cs).

(** The id of the root of the thread of [data], whose object is [o]. *)
Definition thread_root_id (data : doc) (o : as_object) : string :=
  default (o_id o) (thread_root_parent (meta data)).

(** Descending ObjectId. *)
Definition id_ge (a b : doc) : Prop := (_id b <= _id a)%N.

(** ** More notions *)

(** Whether [_api_required] lets the request through. *)
Definition authorized (JWT_loads : string -> outcome json) (req : request)
  : bool :=
  if r_logged_in req then
    bool_decide (r_method req ∈ ["GET"; "HEAD"]) || r_csrf_valid req
  else
    String.eqb (bearer_token req) "xyugavnomuravej"
    || match JWT_loads (bearer_token req) with
       | Returned _ => true
       | _ => false
       end.

(** The calls authorisation makes. *)
Definition is_auth_event (e : event) : bool :=
  match e with EvCSRFProtect | EvJWTLoads _ => true | _ => false end.

(** The pages of [l], [size] records each, at most [n] of them: a page
    that is not full is the last one. *)
Fixpoint pages_of (size n : nat) (l : list doc) : list (list doc) :=
  match n with
  | O => []
  | S n' =>
      if Nat.leb size (length l)
      then take size l :: pages_of size n' (drop size l)
      else [l]
  end.

(** The records of [l] below an ObjectId. *)
Definition below (c : N) (l : list doc) : list doc :=
  List.filter (fun x => N.ltb (_id x) c) l.

(** The ids on the way from a kept record up to the root of the thread:
    each id but the last belongs to a record that answers the next. *)
Inductive chain (kept : list note) (root_id : string) : list string -> Prop :=
  | chain_root : chain kept root_id [root_id]
  | chain_step r y anc :
      chain kept root_id (y :: anc) ->
      r ∈ kept ->
      o_inReplyTo (n_obj r) = Some y ->
      rep_id r <> root_id ->
      chain kept root_id (rep_id r :: y :: anc).

(** An entry of a thread below [level]: a kept record other than the
    root. *)
Definition below_level (kept : list note) (root_id : string) (level : nat)
    (tn : thread_node) : Prop :=
  tn_note tn ∈ kept /\ rep_id (tn_note tn) <> root_id /\ level < tn_level tn.

(** Nothing dangles in the records collected for the thread of
    [root_id]: every kept record other than the root names in
    [inReplyTo] the object id of a collected record, and a collected
    record carries the root id. *)
Definition nothing_dangles (root_id : string) (replies : list note) : Prop :=
  (forall rep, rep ∈ kept_replies replies -> rep_id rep <> root_id ->
     exists r, r ∈ replies /\ o_inReplyTo (n_obj rep) = Some (rep_id r))
  /\ exists r, r ∈ replies /\ rep_id r = root_id.

(** The nesting level of the deepest node of a tree below its root: how
    many calls of [_flatten] are nested above the first one when the
    tree is traversed. *)
Fixpoint height (t : tree) : nat :=
  match t with
  | Node _ cs => foldr Nat.max 0 (List.map (fun c => S (height c)) cs)
  end.

(** The request gives no value for the argument [key]: its JSON body,
    an object, has no member [key] or a falsy one; or, the request not
    being JSON, neither the query string nor the form has a value for
    [key] that is not empty. *)
Definition argument_missing (req : request) (key : string) : Prop :=
  if r_is_json req then
    exists members,
      r_data req = Some (JObj members)
      /\ json_truthy (default JNull (assoc key members)) = false
  else
    truthy (assoc key (r_args req)) = false
    /\ truthy (assoc key (r_form req)) = false.

(** The request is JSON and no argument can be read from its body: the
    body does not parse, which is [abort(400)], or it is not an object,
    which is an [AttributeError]. *)
Definition unreadable_body (req : request) (e : exn) : Prop :=
  r_is_json req = true
  /\ match r_data req with
     | None => e = HTTPException 400
     | Some (JObj _) => False
     | Some _ => e = AttributeError
     end.

(** The relationship exists in the store: [DB.following] holds a record
    of the actor; the outbox holds a Block of the actor that is not
    undone. *)
Definition followed (db : DB) (actor : string) : Prop :=
  exists d, d ∈ DB_following db /\ remote_actor d = actor.

Definition is_block_of (actor : string) (d : doc) : Prop :=
  type_ d = "Block"
  /\ a_object (doc_activity d) = ObjIRI actor
  /\ undo (meta d) = Some false.

Definition blocked (db : DB) (actor : string) : Prop :=
  exists d, d ∈ DB_outbox db /\ is_block_of actor d.

(** [x] is the first element of [l] for which [P] holds. *)
Definition first_such {A} (P : A -> Prop) (l : list A) (x : A) : Prop :=
  exists before after,
    l = before ++ x :: after /\ P x /\ forall y, y ∈ before -> ~ P y.

(** What the stream shows of a record: an Announce with the cached
    object it refers to, anything else as it is. *)
Definition stream_item (db : DB) (it : item) : Prop :=
  if String.eqb (type_ (it_doc it)) "Announce" then
    exists iri c,
      a_object (doc_activity (it_doc it)) = ObjIRI iri
      /\ startswith iri "http" = true
      /\ c ∈ DB_objects_cache db /\ part_of_stream c = Some true
      /\ object_id c = iri
      /\ it_ref it = Some (ref_of (cached_object c))
  else it_ref it = None.

(** ** Concrete collaborators, stores and requests *)

(** A serializer that accepts no token. *)
Definition JWT_reject (token : string) : outcome json := Raised BadSignature.

Definition db_of (inbox outbox threads : list doc) : DB :=
  {| DB_inbox := inbox; DB_outbox := outbox; DB_threads := threads;
     DB_following := []; DB_followers := []; DB_objects_cache := [] |}.

Definition db_empty : DB := db_of [] [] [].

(** A request without session: method, headers, query string, form. *)
Definition anonymous (method : string) (headers args form : list (string * string))
  : request :=
  {| r_method := method; r_path := "/"; r_headers := headers; r_args := args;
     r_form := form; r_is_json := false; r_data := None;
     r_logged_in := false; r_csrf_valid := false |}.

(** The same request sent from a browser with a login session and no
    CSRF token. *)
Definition in_session (req : request) : request :=
  {| r_method := r_method req; r_path := r_path req;
     r_headers := r_headers req; r_args := r_args req; r_form := r_form req;
     r_is_json := r_is_json req; r_data := r_data req;
     r_logged_in := true; r_csrf_valid := false |}.

Definition req_bearer : request :=
  anonymous "POST" [("Authorization", "Bearer xyugavnomuravej")] [] [].

Definition req_form_token : request :=
  anonymous "POST" [] [] [("access_token", "xyugavnomuravej")].

(** The token in the form field, another one in the header. *)
Definition req_shadowed : request :=
  anonymous "POST" [("Authorization", "Bearer stale")] []
            [("access_token", "xyugavnomuravej")].

(** Collaborators of the inbox: a verifier that refuses every request, a
    remote that serves nothing, a parser and an ingestion engine that
    accept everything. *)
Definition verify_never (req : request) : outcome bool := Returned false.
Definition fetch_nothing (iri : json) : outcome json :=
  Raised (Exception "unreachable").
Definition parse_anything (data : json) : outcome unit := Returned tt.
Definition INBOX_accept (a : ap_activity) (db : DB) : outcome unit * DB :=
  (Returned tt, db).
Definition no_dict (a : activity) : list (string * json) := [].

(** A delivery to the inbox with the given JSON body. *)
Definition delivery (data : json) : request :=
  {| r_method := "POST"; r_path := "/inbox"; r_headers := []; r_args := [];
     r_form := []; r_is_json := true; r_data := Some data;
     r_logged_in := false; r_csrf_valid := false |}.

Definition inbox_unverified : request -> M response :=
  inbox JWT_reject verify_never fetch_nothing parse_anything INBOX_accept
        no_dict [] JNull 50.

(** Stored documents. *)
Definition note_object (id : string) (reply_to : option string)
    (published : string) : as_object :=
  {| o_id := id; o_type := "Note"; o_inReplyTo := reply_to;
     o_published := published |}.

Definition fresh_meta : meta_block :=
  {| deleted := Some false; undo := Some false; thread_root_parent := None |}.

Definition stored (oid : N) (iri type : string) (object : obj_field)
    (m : meta_block) : doc :=
  {| _id := oid; remote_id := iri; type_ := type;
     doc_activity := {| a_id := Some iri; a_type := type;
                        a_actor := "https://me.example";
                        a_object := object; a_published := "2018-06-01" |};
     meta := m |}.

Definition like_1 : doc :=
  stored 1 "https://me.example/outbox/l1" "Like"
         (ObjIRI "https://remote.example/note/7") fresh_meta.

Definition note_2 : doc :=
  stored 2 "https://me.example/outbox/n2" "Create"
         (ObjEmbedded (note_object "https://me.example/outbox/n2/activity"
                                   None "2018-06-02"))
         fresh_meta.

Definition deleted_note_3 : doc :=
  stored 3 "https://me.example/outbox/n3" "Create"
         (ObjEmbedded (note_object "https://me.example/outbox/n3/activity"
                                   None "2018-06-03"))
         {| deleted := Some true; undo := Some false;
            thread_root_parent := None |}.

(** A note of the local actor and the reply the local actor wrote to it
    and deleted since. *)
Definition parent_note : doc :=
  stored 11 "https://me.example/outbox/p" "Create"
         (ObjEmbedded (note_object "https://me.example/outbox/p/activity"
                                   None "2018-06-01T10:00:00Z"))
         fresh_meta.

Definition deleted_reply : doc :=
  stored 12 "https://me.example/outbox/r" "Create"
         (ObjEmbedded (note_object "https://me.example/outbox/r/activity"
                                   (Some "https://me.example/outbox/p/activity")
                                   "2018-06-01T11:00:00Z"))
         {| deleted := Some true; undo := Some false;
            thread_root_parent := Some "https://me.example/outbox/p/activity" |}.

Definition db_deleted_reply : DB := db_of [] [parent_note; deleted_reply] [].

(** [back.activity_url] of an instance at me.example. *)
Definition activity_url_me (obj_id : string) : string :=
  "https://me.example/outbox/" +:+ obj_id.

Definition OBJECT_SERVICE_echo (iri : string) : outcome json :=
  Returned (JObj [("id", JStr iri)]).

Definition tombstone_of (a : activity) : outcome (list (string * json)) :=
  Returned [("type", JStr "Tombstone")].

Definition dict_of (d : doc) (embed : bool) : list (string * json) :=
  [("id", JStr (remote_id d))].

(** An ingestion engine that only stores what is posted, under a fixed
    id. *)
Definition posted_doc (a : ap_activity) (n : nat) : doc :=
  let type := match a with
              | ApUndo _ => "Undo"
              | ApFollow _ _ => "Follow"
              | ApBlock _ _ => "Block"
              | _ => "Create"
              end in
  stored (N.of_nat (100 + n)) "https://me.example/outbox/new" type
         (ObjIRI "") fresh_meta.

Definition OUTBOX_store (a : ap_activity) (db : DB) : outcome string * DB :=
  (Returned "https://me.example/outbox/new",
   {| DB_inbox := DB_inbox db;
      DB_outbox := DB_outbox db ++ [posted_doc a (length (DB_outbox db))];
      DB_threads := DB_threads db; DB_following := DB_following db;
      DB_followers := DB_followers db;
      DB_objects_cache := DB_objects_cache db |}).

Definition undo_of (a : activity) : outcome ap_activity :=
  Returned (ApUndo (ApStored a)).

(** An API call with the hard-coded token and a JSON body. *)
Definition api_body (data : json) : request :=
  {| r_method := "POST"; r_path := "/api";
     r_headers := [("Authorization", "Bearer xyugavnomuravej")];
     r_args := []; r_form := []; r_is_json := true;
     r_data := Some data; r_logged_in := false; r_csrf_valid := false |}.

(** The body is an object of strings. *)
Definition api_call (members : list (string * string)) : request :=
  api_body (JObj ((fun kv => (fst kv, JStr (snd kv))) <$> members)).

(** A driver and a werkzeug that take strings only. *)
Definition no_other_argument (name : string) (v : json) (req : request)
  : M response := raise TypeError.
Definition no_other_redirect (location : json) : outcome response :=
  Raised TypeError.
Definition no_other_key (key : json) : outcome json := Raised TypeError.

(** A Follow of the outbox that was undone already. *)
Definition undone_follow_4 : doc :=
  stored 4 "https://me.example/outbox/f4" "Follow"
         (ObjIRI "https://remote.example/bob")
         {| deleted := Some false; undo := Some true;
            thread_root_parent := None |}.

Definition block_5 : doc :=
  stored 5 "https://me.example/outbox/b5" "Block"
         (ObjIRI "https://remote.example/eve") fresh_meta.

(** Bob is followed no more, Eve is blocked. *)
Definition db_relations : DB :=
  {| DB_inbox := []; DB_outbox := [undone_follow_4; block_5];
     DB_threads := []; DB_following := [];
     DB_followers := []; DB_objects_cache := [] |}.

(** Dave is followed (the Follow stands), Eve is blocked; of Dan only the
    record that he is followed is held, keyed by his IRI. *)
Definition follow_6 : doc :=
  stored 6 "https://me.example/outbox/f6" "Follow"
         (ObjIRI "https://remote.example/dave") fresh_meta.

Definition following_dave : rel_doc :=
  {| remote_actor := "https://remote.example/dave";
     rel_activity := Some (doc_activity follow_6) |}.

Definition following_dan : rel_doc :=
  {| remote_actor := "https://remote.example/dan"; rel_activity := None |}.

Definition db_friends : DB :=
  {| DB_inbox := []; DB_outbox := [follow_6; block_5];
     DB_threads := []; DB_following := [following_dave; following_dan];
     DB_followers := []; DB_objects_cache := [] |}.

(** A reply of the local actor to a remote note. *)
Definition reply_7 : doc :=
  stored 7 "https://me.example/outbox/n7" "Create"
         (ObjEmbedded (note_object "https://me.example/outbox/n7/activity"
                                   (Some "https://remote.example/note/7")
                                   "2018-06-07"))
         {| deleted := Some false; undo := Some false;
            thread_root_parent := Some "https://remote.example/note/7" |}.

Definition db_mixed : DB := db_of [] [like_1; note_2; reply_7] [].

(** A browser, and an ActivityPub client. *)
Definition browser_get (args : list (string * string)) : request :=
  anonymous "GET" [("Accept", "text/html")] args [].

Definition client_get (args : list (string * string)) : request :=
  anonymous "GET" [("Accept", "application/json")] args [].

Definition plain (d : doc) : item := {| it_doc := d; it_ref := None |}.

(** An Announce of the local actor, not undone. *)
Definition announce (oid : N) : doc :=
  stored oid ("https://me.example/outbox/a" +:+ str_ObjectId oid) "Announce"
         (ObjIRI "https://remote.example/note/1") fresh_meta.

Definition top_note (oid : N) : doc :=
  stored oid ("https://me.example/outbox/n" +:+ str_ObjectId oid) "Create"
         (ObjEmbedded (note_object ("https://me.example/note/" +:+ str_ObjectId oid)
                                   None "2018-06-02"))
         fresh_meta.

(** Ids [lo], [lo+1], ..., [lo+n-1]. *)
Definition top_notes (lo : N) (n : nat) : list doc :=
  (fun k => top_note (lo + N.of_nat k)) <$> seq 0 n.

(** One note below the cursor, one Announce above it. *)
Definition db_boosted : DB := db_of [] [top_note 2; announce 9] [].

(** Fifty notes and, newest of all, one Announce. *)
Definition db_51 : DB := db_of [] (top_notes 1 50 ++ [announce 51]) [].

Definition boosted (d : doc) : item :=
  {| it_doc := d;
     it_ref := Some (ref_of (JObj [("id", JStr "https://remote.example/note/1")])) |}.

Definition index_html : request -> M response :=
  index OBJECT_SERVICE_echo [] [] JNull.

Definition with_replies_html : request -> M response :=
  with_replies OBJECT_SERVICE_echo.

(** The scenario of the specification: A, then B in reply to A, then C in
    reply to B; B and C arrived from remote actors. *)
Definition create_note (oid : N) (id : string) (reply_to root : option string)
    (published : string) : doc :=
  stored oid id "Create" (ObjEmbedded (note_object id reply_to published))
         {| deleted := Some false; undo := Some false;
            thread_root_parent := root |}.

Definition doc_A : doc := create_note 1 "A" None None "2018-06-01T10:00:00Z".
Definition doc_B : doc :=
  create_note 2 "B" (Some "A") (Some "A") "2018-06-01T11:00:00Z".
Definition doc_C : doc :=
  create_note 3 "C" (Some "B") (Some "A") "2018-06-01T12:00:00Z".

Definition db_ABC : DB := db_of [doc_B; doc_C] [doc_A] [].

Definition read_as (requested : bool) (d : doc) (id : string)
    (reply_to : option string) (published : string) : note :=
  {| n_doc := d; n_obj := note_object id reply_to published;
     n_requested := requested |}.

Definition note_A : note := read_as true doc_A "A" None "2018-06-01T10:00:00Z".
Definition note_B : note :=
  read_as false doc_B "B" (Some "A") "2018-06-01T11:00:00Z".
Definition note_C : note :=
  read_as false doc_C "C" (Some "B") "2018-06-01T12:00:00Z".

Definition tree_ABC : tree := Node note_A [Node note_B [Node note_C []]].

(** The note A a second time: a record of the inbox with the object
    id of A, published an hour before the record of the outbox. *)
Definition doc_A_early : doc :=
  create_note 5 "A" None (Some "A") "2018-06-01T09:00:00Z".

Definition note_A_early : note :=
  read_as false doc_A_early "A" None "2018-06-01T09:00:00Z".

Definition db_twice : DB := db_of [doc_A_early] [doc_A] [].

(** A note that names itself as the note it replies to. *)
Definition doc_X : doc :=
  create_note 4 "X" (Some "X") (Some "A") "2018-06-01T13:00:00Z".

Definition db_AX : DB := db_of [doc_X] [doc_A] [].

(** A note received from a remote actor, with its publication time. *)
Definition remote_note (oid : N) (published : string) : doc :=
  {| _id := oid; remote_id := "https://remote.example/n" +:+ str_ObjectId oid;
     type_ := "Create";
     doc_activity :=
       {| a_id := Some ("https://remote.example/n" +:+ str_ObjectId oid);
          a_type := "Create"; a_actor := "https://remote.example/bob";
          a_object := ObjEmbedded
                        (note_object ("https://remote.example/note/" +:+ str_ObjectId oid)
                                     None published);
          a_published := published |};
     meta := fresh_meta |}.

(** ** More collaborators and requests *)

(** A remote that serves, for every IRI, an object with that id. *)
Definition fetch_remote (iri : json) : outcome json :=
  Returned (JObj [("id", iri); ("fetched", JBool true)]).

Definition inbox_refetching : request -> M response :=
  inbox JWT_reject verify_never fetch_remote parse_anything INBOX_accept
        no_dict [] JNull 50.

(** A client that lists the inbox with the hard-coded token. *)
Definition client_with_token : request :=
  anonymous "GET" [("Accept", "application/json");
                   ("Authorization", "Bearer xyugavnomuravej")] [] [].

(** A token-bearing POST with a JSON body for the outbox. *)
Definition post_activity (data : json) : request :=
  {| r_method := "POST"; r_path := "/outbox";
     r_headers := [("Authorization", "Bearer xyugavnomuravej")];
     r_args := []; r_form := []; r_is_json := true;
     r_data := Some data; r_logged_in := false; r_csrf_valid := false |}.

Definition outbox_storing : request -> M response :=
  outbox JWT_reject parse_anything OUTBOX_store dict_of [] JNull 50.

(** little_boxes on a note body: its id, and the activities built from
    it. *)
Definition note_id_of (obj : json) : outcome string :=
  match obj with
  | JObj members =>
      match assoc "id" members with
      | Some (JStr s) => Returned s
      | _ => Raised KeyError
      end
  | _ => Raised TypeError
  end.

Definition activity_of (obj : json) : outcome ap_activity :=
  Returned (ApParsed obj).

(** WebFinger that resolves a profile to itself. *)
Definition actor_url_of (profile : option string) : outcome (option string) :=
  Returned profile.

Definition render_nothing (name : string) (ctx : list (string * option string))
  : string := "".

(** The remote-follow form, sent from a session without CSRF token. *)
Definition follow_form (profile : string) : request :=
  in_session (anonymous "POST" [] [] [("profile", profile)]).

Definition parse_stored_ok (a : activity) : outcome unit := Returned tt.

Definition object_id_of (a : activity) : outcome string :=
  match a_object a with
  | ObjEmbedded o => Returned (o_id o)
  | ObjIRI iri => Returned iri
  end.

Definition object_json (d : doc) : json := JNull.

(** An Announce received from a remote actor. *)
Definition remote_announce (oid : N) (object : string) (published : string)
  : doc :=
  {| _id := oid; remote_id := "https://remote.example/a" +:+ str_ObjectId oid;
     type_ := "Announce";
     doc_activity :=
       {| a_id := Some ("https://remote.example/a" +:+ str_ObjectId oid);
          a_type := "Announce"; a_actor := "https://remote.example/bob";
          a_object := ObjIRI object; a_published := published |};
     meta := fresh_meta |}.

Definition cached_note_9 : cache_doc :=
  {| object_id := "https://remote.example/note/9";
     cached_object := JObj [("id", JStr "https://remote.example/note/9")];
     part_of_stream := Some true;
     announce_published := "2018-06-03" |}.

(** An inbox with a note, an Announce whose object is cached and an
    Announce whose object is not. *)
Definition db_stream : DB :=
  {| DB_inbox := [remote_note 1 "2018-06-01";
                  remote_announce 2 "https://remote.example/note/9" "2018-06-03";
                  remote_announce 3 "https://remote.example/note/8" "2018-06-02"];
     DB_outbox := []; DB_threads := []; DB_following := [];
     DB_followers := []; DB_objects_cache := [cached_note_9] |}.

(** A hundred and twenty notes, nothing boosted. *)
Definition db_120 : DB := db_of [] (top_notes 1 120) [].

(** IndieAuth: the consent form that grants two scopes, and the request
    that redeems the code. *)
Definition grant_form : request :=
  in_session
    (anonymous "POST" [] []
       [("scopes", "create"); ("scopes", "update");
        ("me", "https://me.example"); ("client_id", "https://app.example");
        ("state", "s1"); ("redirect_uri", "https://app.example/cb");
        ("response_type", "code")]).

Definition redeem_form : request :=
  anonymous "POST" [("Accept", "application/json")] []
    [("code", "c0de"); ("me", "https://me.example");
     ("client_id", "https://app.example");
     ("redirect_uri", "https://app.example/cb")].

Definition JWT_sign (payload : list (string * json)) : string := "signed".

Definition urlencode_nothing (payload : list (string * json)) : string := "".

(** * Theorems *)

(** ** The hard-coded token *)

Section AuthFacts.
Variable JWT_loads : string -> outcome json.

Lemma api_required_run {A} (f : request -> M A) req w :
  _api_required JWT_loads req w = (Returned tt, w) ->
  api_required JWT_loads f req w = f req w.
Proof.
  intros Hrun. unfold api_required, api_or_abort.
  unfold mbind, M_bind, bind, try_except. rewrite Hrun. reflexivity.
Qed.

(** C1, as the code has it: without a login session, a request whose
    token (the Authorization header stripped of "Bearer ", or the
    access_token form field when the header leaves nothing) is the
    hard-coded string passes [_api_required] with no call to
    [JWT.loads] or [csrf.protect] (the world, its trace included, is
    unchanged), and every [api_required] endpoint runs its body. *)
Theorem backdoor_token_authorizes req w :
  r_logged_in req = false ->
  bearer_token req = "xyugavnomuravej" ->
  _api_required JWT_loads req w = (Returned tt, w)
  /\ forall A (f : request -> M A), api_required JWT_loads f req w = f req w.
Proof.
  intros Hsession Htoken.
  assert (Hrun : _api_required JWT_loads req w = (Returned tt, w)).
  { unfold _api_required. rewrite Hsession.
    fold (bearer_token req). rewrite Htoken. reflexivity. }
  split; [exact Hrun|]. intros A f. now apply api_required_run.
Qed.

(** With a login session the token is never read. *)
Lemma session_never_loads_token req w :
  r_logged_in req = true ->
  List.filter is_JWT_event
    (new_events w (snd (_api_required JWT_loads req w))) = [].
Proof.
  intros Hsession. unfold _api_required. rewrite Hsession.
  destruct (negb _); [|by unfold new_events; simpl; rewrite drop_all].
  unfold csrf_protect, mbind, M_bind, bind, emit, new_events. simpl.
  destruct (r_csrf_valid req); simpl; by rewrite drop_app_length.
Qed.

(** The two usual carriers of the token. *)
Lemma bearer_header_token req :
  assoc "Authorization" (r_headers req) = Some "Bearer xyugavnomuravej" ->
  bearer_token req = "xyugavnomuravej".
Proof. intros H. unfold bearer_token, get_or_empty. by rewrite H. Qed.

Lemma form_field_token req :
  assoc "Authorization" (r_headers req) = None ->
  assoc "access_token" (r_form req) = Some "xyugavnomuravej" ->
  bearer_token req = "xyugavnomuravej".
Proof.
  intros Hh Hf. unfold bearer_token, get_or_empty. by rewrite Hh, Hf.
Qed.
End AuthFacts.

Lemma backdoor_token_authorizes_witness :
  _api_required JWT_reject req_bearer (world_of db_empty)
    = (Returned tt, world_of db_empty)
  /\ forall A (f : request -> M A),
       api_required JWT_reject f req_bearer (world_of db_empty)
       = f req_bearer (world_of db_empty).
Proof.
  apply (backdoor_token_authorizes JWT_reject req_bearer (world_of db_empty));
    reflexivity.
Defined.

(** C1 as stated fails twice. A request that carries the token in the
    access_token form field and another token in the Authorization header
    has the header's token verified and is refused; a request that
    carries the token in the header of a session call without CSRF token
    raises. *)
Lemma backdoor_token_not_unconditional :
  (assoc "access_token" (r_form req_shadowed) = Some "xyugavnomuravej"
   /\ _api_required JWT_reject req_shadowed (world_of db_empty)
      = (Raised BadSignature,
         {| w_db := db_empty; w_trace := [EvJWTLoads "stale"] |})
   /\ fst (api_required JWT_reject (fun _ => mret tt) req_shadowed
             (world_of db_empty))
      = Raised (HTTPException 401))
  /\ (assoc "Authorization" (r_headers (in_session req_bearer))
      = Some "Bearer xyugavnomuravej"
      /\ fst (_api_required JWT_reject (in_session req_bearer)
                (world_of db_empty))
         = Raised CSRFError).
Proof. repeat split. Qed.

(** ** Deliveries to the inbox *)

Section InboxFacts.
Variable JWT_loads : string -> outcome json.
Variable verify_request : request -> outcome bool.
Variable fetch_iri : json -> outcome json.
Variable parse_activity : json -> outcome unit.
Variable INBOX_post : ap_activity -> DB -> outcome unit * DB.
Variable activity_dict : activity -> list (string * json).
Variable HEADERS : list string.
Variable CTX_AS : json.
Variable page_limit : nat.

Abbreviation inbox_run :=
  (inbox JWT_loads verify_request fetch_iri parse_activity INBOX_post
         activity_dict HEADERS CTX_AS page_limit).

Abbreviation verification_fails := (verification_fails verify_request).
Abbreviation process := (process parse_activity INBOX_post).

Lemma seen_seen w es es' : seen (seen w es) es' = seen w (es ++ es').
Proof. unfold seen. simpl. by rewrite app_assoc. Qed.

Lemma verified_payload_ok req data w :
  verify_request req = Returned true ->
  verified_payload verify_request fetch_iri req data w
  = (Returned (inl data), seen w [EvVerifyRequest]).
Proof.
  intros Hv. unfold verified_payload, try_except, call_verify_request.
  unfold mbind, M_bind, bind, emit, lift. simpl. by rewrite Hv.
Qed.

Lemma verified_payload_refetch req data iri w :
  verification_fails req ->
  subscript data "id" = Returned iri ->
  verified_payload verify_request fetch_iri req data w
  = match fetch_iri iri with
    | Returned fetched =>
        (Returned (inl fetched),
         seen w [EvVerifyRequest;
                 EvFetchIRI (match iri with JStr s => s | _ => "" end)])
    | Raised _ =>
        (Returned (inr verification_failed),
         seen w [EvVerifyRequest;
                 EvFetchIRI (match iri with JStr s => s | _ => "" end)])
    end.
Proof.
  intros Hv Hid.
  unfold verified_payload, try_except, call_verify_request, call_fetch_iri.
  unfold mbind, M_bind, bind, emit, lift, raise. simpl.
  destruct Hv as [-> | [e ->]]; simpl; rewrite Hid; simpl;
    destruct (fetch_iri iri); simpl; unfold seen; simpl;
    by rewrite <- ?app_assoc.
Qed.

(** The part of C2 the code keeps, for a body that has an [id]: after
    a failed verification the activity is fetched from its [id]; a
    fetched representation replaces the delivered body and is
    processed, a failed fetch ends the request with status 422 and
    the JSON error. *)
Lemma inbox_unverified_with_id req data iri w :
  r_method req <> "GET" ->
  r_data req = Some data ->
  verification_fails req ->
  subscript data "id" = Returned iri ->
  (forall fetched, fetch_iri iri = Returned fetched ->
     inbox_run req w
     = process fetched
         (seen w [EvVerifyRequest;
                  EvFetchIRI (match iri with JStr s => s | _ => "" end)]))
  /\ (forall e, fetch_iri iri = Raised e ->
     inbox_run req w
     = (Returned verification_failed,
        seen w [EvVerifyRequest;
                EvFetchIRI (match iri with JStr s => s | _ => "" end)])).
Proof.
  intros Hm Hd Hv Hid.
  assert (Hget : String.eqb (r_method req) "GET" = false)
    by by apply String.eqb_neq.
  split.
  - intros fetched Hf. unfold inbox. rewrite Hget.
    unfold get_json_force. rewrite Hd.
    unfold mbind at 1, M_bind at 1, bind at 1, mret at 1, M_ret at 1, ret at 1.
    unfold mbind at 1, M_bind at 1, bind at 1.
    rewrite (verified_payload_refetch req data iri w Hv Hid), Hf.
    reflexivity.
  - intros e Hf. unfold inbox. rewrite Hget.
    unfold get_json_force. rewrite Hd.
    unfold mbind at 1, M_bind at 1, bind at 1, mret at 1, M_ret at 1, ret at 1.
    unfold mbind at 1, M_bind at 1, bind at 1.
    rewrite (verified_payload_refetch req data iri w Hv Hid), Hf.
    reflexivity.
Qed.

(** A processed delivery is answered 201 with an empty body. *)
Lemma process_created data w resp w' :
  process data w = (Returned resp, w') -> resp = Plain 201 [] "".
Proof.
  unfold process, call_INBOX_post, on_db, lift, emit.
  unfold mbind, M_bind, bind, mret, M_ret, ret. simpl.
  destruct (parse_activity data); [|congruence..].
  destruct (INBOX_post _ _) as [[|] ?]; congruence.
Qed.

(** C2, where the code leaves it: a delivery whose signature does not
    verify and whose body has no [id] (the lookup [data["id"]] raises)
    is neither fetched nor answered 422. The lookup raises in the inner
    [try], is caught, and raises again in the log line of the handler,
    so the exception is the outcome of the route. *)
Theorem inbox_unverified_without_id req data e w :
  r_method req <> "GET" ->
  r_data req = Some data ->
  verification_fails req ->
  subscript data "id" = Raised e ->
  inbox_run req w = (Raised e, seen w [EvVerifyRequest]).
Proof.
  intros Hm Hd Hv Hid.
  assert (Hget : String.eqb (r_method req) "GET" = false)
    by by apply String.eqb_neq.
  unfold inbox. rewrite Hget. unfold get_json_force. rewrite Hd.
  unfold verified_payload, try_except, call_verify_request.
  unfold mbind, M_bind, bind, mret, M_ret, ret, emit, lift, raise. simpl.
  destruct Hv as [-> | [e' ->]]; simpl; rewrite Hid; reflexivity.
Qed.
End InboxFacts.

Lemma inbox_unverified_without_id_witness :
  inbox_unverified (delivery (JObj [])) (world_of db_empty)
  = (Raised KeyError, {| w_db := db_empty; w_trace := [EvVerifyRequest] |}).
Proof.
  apply (inbox_unverified_without_id JWT_reject verify_never fetch_nothing
           parse_anything INBOX_accept no_dict [] JNull 50
           (delivery (JObj [])) (JObj []) KeyError (world_of db_empty)).
  - discriminate.
  - reflexivity.
  - left. reflexivity.
  - reflexivity.
Defined.

(** ** Reading stored records *)

Ltac run_M :=
  unfold mbind, M_bind, bind, mret, M_ret, ret, lift, get_db, raise, abort;
  simpl.

Lemma matches_q_remote_id iri d :
  matches (q_remote_id iri) d = String.eqb iri (remote_id d).
Proof. simpl. by rewrite andb_true_r. Qed.

(** With unique [remote_id]s, [find_one] by [remote_id] finds the record
    that has it. *)
Lemma find_one_remote_id col d :
  d ∈ col ->
  NoDup (remote_id <$> col) ->
  find_one col (q_remote_id (remote_id d)) = Some d.
Proof.
  unfold find_one, find. induction col as [|d' col IH]; intros Hin Hnd.
  - by apply elem_of_nil in Hin.
  - apply NoDup_cons in Hnd as [Hfresh Hnd].
    cbn [List.filter]. rewrite matches_q_remote_id.
    destruct (String.eqb_spec (remote_id d) (remote_id d')) as [Heq | Hne].
    + apply elem_of_cons in Hin as [-> | Hin]; [done|].
      exfalso. apply Hfresh. rewrite <- Heq.
      by apply list_elem_of_fmap_2.
    + apply elem_of_cons in Hin as [-> | Hin]; [done|]. by apply IH.
Qed.

Section ReadFacts.
Variable OBJECT_SERVICE_get : string -> outcome json.
Variable activity_url : string -> string.
Variable get_tombstone : activity -> outcome (list (string * json)).
Variable activity_from_doc : doc -> bool -> list (string * json).
Variable CTX_AS : json.

(** The two reads of a record by its own id. A stored outbox record
    whose [meta.deleted] is true, read through [outbox_detail], is
    answered with status 410 and the tombstone that little_boxes builds
    for its object; read through [note_by_id] the route aborts with 410
    before anything is rendered. (The outbox keeps [remote_id]
    unique.) *)
Lemma deleted_record_is_tombstone d item_id room w :
  d ∈ DB_outbox (w_db w) ->
  NoDup (remote_id <$> DB_outbox (w_db w)) ->
  activity_url item_id = remote_id d ->
  deleted (meta d) = Some true ->
  outbox_detail activity_url get_tombstone activity_from_doc CTX_AS item_id w
  = (tombstone ← get_tombstone (doc_activity d);
     mret (jsonify_status CTX_AS 410 tombstone), w)
  /\ note_by_id OBJECT_SERVICE_get activity_url room item_id w
     = (Raised (HTTPException 410), w).
Proof.
  intros Hin Hnd Hurl Hdel.
  pose proof (find_one_remote_id _ _ Hin Hnd) as Hfind.
  unfold outbox_detail, note_by_id. run_M.
  rewrite Hurl, Hfind, Hdel. simpl. split; [|reflexivity].
  by destruct (get_tombstone (doc_activity d)).
Qed.
End ReadFacts.

Lemma deleted_record_is_tombstone_witness :
  outbox_detail activity_url_me tombstone_of dict_of JNull "n3"
    (world_of (db_of [] [note_2; deleted_note_3] []))
  = (Returned (Json 410 (JObj [("type", JStr "Tombstone"); ("@context", JNull)])),
     world_of (db_of [] [note_2; deleted_note_3] []))
  /\ note_by_id OBJECT_SERVICE_echo activity_url_me 8 "n3"
       (world_of (db_of [] [note_2; deleted_note_3] []))
     = (Raised (HTTPException 410),
        world_of (db_of [] [note_2; deleted_note_3] [])).
Proof.
  apply (deleted_record_is_tombstone OBJECT_SERVICE_echo activity_url_me
           tombstone_of dict_of JNull deleted_note_3 "n3" 8
           (world_of (db_of [] [note_2; deleted_note_3] []))).
  - simpl. apply list_elem_of_In. right. left. reflexivity.
  - simpl. apply NoDup_cons. split.
    + intros H. apply list_elem_of_In in H. destruct H as [H | []].
      discriminate.
    + apply NoDup_singleton.
  - reflexivity.
  - reflexivity.
Defined.

(** C7, where the code leaves it: a deleted record is served as live
    content in the thread of another note. The reply was deleted; read
    by its own id it is the tombstone ([outbox_detail]) and 410
    ([note_by_id]). The note it answers is live: [note_by_id] of that
    note collects the thread with a query that does not look at
    [meta.deleted], and renders the deleted reply, the record as it is
    stored, at level 1. *)
Theorem deleted_reply_is_rendered_in_thread :
  deleted (meta deleted_reply) = Some true
  /\ outbox_detail activity_url_me tombstone_of dict_of JNull "r"
       (world_of db_deleted_reply)
     = (Returned (Json 410 (JObj [("type", JStr "Tombstone"); ("@context", JNull)])),
        world_of db_deleted_reply)
  /\ note_by_id OBJECT_SERVICE_echo activity_url_me 8 "r"
       (world_of db_deleted_reply)
     = (Raised (HTTPException 410), world_of db_deleted_reply)
  /\ note_by_id OBJECT_SERVICE_echo activity_url_me 8 "p"
       (world_of db_deleted_reply)
     = (Returned
          (RenderTemplate "note.html"
             (NoteCtx [] []
                [ {| tn_note :=
                       {| n_doc := parent_note;
                          n_obj := note_object "https://me.example/outbox/p/activity"
                                               None "2018-06-01T10:00:00Z";
                          n_requested := true |};
                     tn_level := 0 |};
                  {| tn_note :=
                       {| n_doc := deleted_reply;
                          n_obj := note_object "https://me.example/outbox/r/activity"
                                     (Some "https://me.example/outbox/p/activity")
                                     "2018-06-01T11:00:00Z";
                          n_requested := false |};
                     tn_level := 1 |} ]
                parent_note)),
        world_of db_deleted_reply).
Proof. repeat split; vm_compute; reflexivity. Qed.

(** ** The two views of the outbox *)

Lemma matches_outbox_filter d :
  matches outbox_filter d = bool_decide (deleted (meta d) = Some false).
Proof.
  unfold outbox_filter, q_not_deleted. simpl.
  destruct (deleted (meta d)) as [[|]|]; reflexivity.
Qed.

Lemma matches_index_filter_create d :
  type_ d = "Create" ->
  matches index_filter d
  = eq_holds (BStr "Note") (get_path P_activity_object_type d)
    && eq_holds BNull (get_path P_activity_object_inReplyTo d)
    && bool_decide (deleted (meta d) = Some false).
Proof.
  intros Hty. unfold index_filter, q_index, q_announce_not_undone.
  cbn [matches forallb existsb get_path]. rewrite Hty. cbn [eq_holds bson_eqb].
  change (String.eqb "Create" "Create") with true.
  change (String.eqb "Announce" "Create") with false.
  cbn [andb orb]. rewrite !orb_false_r, andb_true_r, !andb_assoc.
  f_equal. destruct (deleted (meta d)) as [[|]|]; reflexivity.
Qed.

(** C5, as the code has it: the two read paths agree on the Create
    records of a note that replies to nothing, which both select exactly
    when [meta.deleted] is false, and every Create record the index
    selects is also selected by GET /outbox. The index is the page of
    top-level notes: a reply is left to [with_replies] and to GET
    /outbox. *)
Theorem outbox_views_agree_on_top_level_notes d :
  type_ d = "Create" ->
  (matches index_filter d = true -> matches outbox_filter d = true)
  /\ (top_level_note d -> matches index_filter d = matches outbox_filter d).
Proof.
  intros Hty. rewrite (matches_index_filter_create d Hty), matches_outbox_filter.
  split.
  - intros H. by apply andb_prop in H as [_ H].
  - intros (_ & o & Hobj & Hnote & Hroot). cbn [get_path].
    rewrite Hobj, Hnote, Hroot. reflexivity.
Qed.

Lemma outbox_views_agree_on_top_level_notes_witness :
  (matches index_filter note_2 = true -> matches outbox_filter note_2 = true)
  /\ (top_level_note note_2 ->
      matches index_filter note_2 = matches outbox_filter note_2).
Proof.
  apply (outbox_views_agree_on_top_level_notes note_2). reflexivity.
Defined.

(** C5 as stated fails: of an outbox that holds a Like, a note and a
    reply, none of them deleted, the index shows the note and GET
    /outbox serves all three. *)
Lemma outbox_views_select_different_records :
  fst (index OBJECT_SERVICE_echo [] [] JNull (browser_get [])
         (world_of db_mixed))
  = Returned (RenderTemplate "index.html"
                (IndexCtx 0 0 0 [plain note_2] None))
  /\ find (DB_outbox db_mixed) index_filter = [note_2]
  /\ find (DB_outbox db_mixed) outbox_filter = [like_1; note_2; reply_7]
  /\ fst (outbox JWT_reject parse_anything OUTBOX_store dict_of [] JNull 50
            (client_get []) (world_of db_mixed))
     = Returned (jsonify JNull
                   [("items", JArr [JObj (dict_of reply_7 true);
                                    JObj (dict_of note_2 true);
                                    JObj (dict_of like_1 true)])]).
Proof. repeat split. Qed.

(** ** The user API: undo, follow, block *)

Section ApiFacts.
Variable JWT_loads : string -> outcome json.
Variable OUTBOX_post : ap_activity -> DB -> outcome string * DB.
Variable build_undo : activity -> outcome ap_activity.
Variable activity_url : string -> string.
Variable MY_PERSON_id : string.
Variable other_argument : string -> json -> request -> M response.
Variable redirect_other : json -> outcome response.

(** Authorisation reads the request only: it leaves the database alone
    and posts nothing. *)
Lemma _api_required_world req w :
  exists events,
    snd (_api_required JWT_loads req w) = seen w events
    /\ List.filter is_post_event events = [].
Proof.
  unfold _api_required, csrf_protect, call_JWT_loads, seen.
  destruct w as [db tr].
  destruct (r_logged_in req).
  - destruct (negb _).
    + exists [EvCSRFProtect]. unfold emit. run_M.
      by destruct (r_csrf_valid req).
    + exists []. run_M. by rewrite app_nil_r.
  - destruct (negb _).
    + eexists [EvJWTLoads _]. unfold emit. run_M.
      destruct (JWT_loads _); split; reflexivity.
    + exists []. run_M. by rewrite app_nil_r.
Qed.

Lemma api_required_authorized {A} (f : request -> M A) req w w1 :
  _api_required JWT_loads req w = (Returned tt, w1) ->
  api_required JWT_loads f req w = f req w1.
Proof.
  intros Hrun. unfold api_required, api_or_abort.
  unfold mbind, M_bind, bind, try_except. by rewrite Hrun.
Qed.

Lemma authorized_world req w w1 :
  _api_required JWT_loads req w = (Returned tt, w1) ->
  w_db w1 = w_db w /\ List.filter is_post_event (new_events w w1) = [].
Proof.
  intros Hrun. destruct (_api_required_world req w) as (es & Hw & Hes).
  rewrite Hrun in Hw. simpl in Hw. subst w1. split; [reflexivity|].
  unfold new_events, seen. simpl. by rewrite drop_app_length.
Qed.

(** The first record a filter lets through is what [find_one] finds. *)
Lemma head_filter_first {A} (p : A -> bool) (l : list A) :
  (exists y, y ∈ l /\ p y = true) ->
  exists x, head (List.filter p l) = Some x
            /\ first_such (fun y => p y = true) l x.
Proof.
  induction l as [|z l IH]; intros (y & Hy & Hp).
  - by apply elem_of_nil in Hy.
  - cbn [List.filter]. destruct (p z) eqn:Hz.
    + exists z. split; [done|]. exists [], l. split; [done|]. split; [done|].
      by intros ? ?%elem_of_nil.
    + destruct IH as (x & Hhead & before & after & -> & Hx & Hbefore).
      { exists y. split; [|done].
        apply elem_of_cons in Hy as [->|Hy]; [congruence|done]. }
      exists x. split; [done|]. exists (z :: before), after.
      split; [done|]. split; [done|].
      intros y' [->|Hy']%elem_of_cons; [congruence|by apply Hbefore].
Qed.

Lemma first_such_iff {A} (P Q : A -> Prop) l x :
  (forall y, P y <-> Q y) -> first_such P l x -> first_such Q l x.
Proof.
  intros HPQ (before & after & -> & Hx & Hbefore).
  exists before, after. split; [done|]. split; [by apply HPQ|].
  intros y Hy HQ. apply (Hbefore y Hy). by apply HPQ.
Qed.

Lemma matches_q_block actor d :
  matches (q_block actor) d = true <-> is_block_of actor d.
Proof.
  unfold is_block_of, q_block.
  cbn [matches forallb get_path]. rewrite !andb_true_iff. unfold eq_holds.
  destruct (a_object (doc_activity d)) as [iri|o];
    destruct (undo (meta d)) as [[]|];
    cbn [fmap option_fmap option_map bson_eqb Bool.eqb];
    rewrite ?String.eqb_eq;
    (split; [intros (H1 & H2 & H3 & _)|intros (H1 & H2 & H3)]);
    repeat split; congruence.
Qed.


(** Without a [redirect] argument the answer is status 201 and the id. *)
Lemma _user_api_response_plain req activity_id v :
  user_api_oid req "redirect" = Returned v ->
  json_truthy v = false ->
  _user_api_response redirect_other req activity_id
  = Returned (Json 201 (JObj [("activity", JStr activity_id)])).
Proof.
  intros Hoid Hv. unfold _user_api_response, _user_api_arg_default.
  rewrite Hoid. cbn [mbind outcome_bind obind]. by rewrite Hv.
Qed.

(** C8, where the code leaves it: [api_undo] does not look at
    [meta.undo]. For a target that is undone already it builds the Undo
    and hands it to [OUTBOX.post] once more; the outcome and the
    database are whatever the ingestion engine makes of a second Undo. *)
Theorem api_undo_posts_again req oid d undo_activity w w1 :
  _api_required JWT_loads req w = (Returned tt, w1) ->
  _user_api_arg req "id" = Returned (JStr oid) ->
  find_one (DB_outbox (w_db w)) (q_undo_target activity_url oid) = Some d ->
  undo (meta d) = Some true ->
  build_undo (doc_activity d) = Returned undo_activity ->
  api_undo JWT_loads OUTBOX_post build_undo activity_url other_argument
           redirect_other req w
  = (undo_id ← fst (OUTBOX_post undo_activity (w_db w));
     _user_api_response redirect_other req undo_id,
     {| w_db := snd (OUTBOX_post undo_activity (w_db w));
        w_trace := w_trace w1 ++ [EvOutboxPost undo_activity] |}).
Proof.
  intros Hauth Hoid Hfind _ Hundo.
  destruct (authorized_world req w w1 Hauth) as [Hdb _].
  unfold api_undo. rewrite (api_required_authorized _ req w w1 Hauth).
  run_M. rewrite Hoid. simpl. rewrite Hdb, Hfind, Hundo. simpl.
  unfold call_OUTBOX_post, on_db, emit. run_M. rewrite Hdb.
  destruct (OUTBOX_post undo_activity (w_db w)) as [[|] db']; reflexivity.
Qed.
End ApiFacts.


(** What the two calls answer there: status 201 and the id of the
    Follow, of the Block, that stands; the outbox is as it was. *)
Example duplicate_follow_and_block_answers :
  api_follow JWT_reject OUTBOX_store "https://me.example"
    no_other_argument no_other_redirect
    (api_call [("actor", "https://remote.example/dave")])
    (world_of db_friends)
  = (Returned (Json 201 (JObj [("activity", JStr "https://me.example/outbox/f6")])),
     world_of db_friends)
  /\ api_block JWT_reject OUTBOX_store "https://me.example"
       no_other_argument no_other_redirect
       (api_call [("actor", "https://remote.example/eve")])
       (world_of db_friends)
     = (Returned (Json 201 (JObj [("activity", JStr "https://me.example/outbox/b5")])),
        world_of db_friends).
Proof. split; reflexivity. Qed.


(** The Follow [f4] is undone already; undoing it again posts a second
    Undo, which this engine stores: the outbox grows. *)
Lemma api_undo_posts_again_witness :
  api_undo JWT_reject OUTBOX_store undo_of activity_url_me
    no_other_argument no_other_redirect
    (api_call [("id", "f4")]) (world_of db_relations)
  = (undo_id ← fst (OUTBOX_store (ApUndo (ApStored (doc_activity undone_follow_4)))
                      db_relations);
     _user_api_response no_other_redirect (api_call [("id", "f4")]) undo_id,
     {| w_db := snd (OUTBOX_store
                       (ApUndo (ApStored (doc_activity undone_follow_4)))
                       db_relations);
        w_trace := [] ++ [EvOutboxPost
                            (ApUndo (ApStored (doc_activity undone_follow_4)))] |}).
Proof.
  apply (api_undo_posts_again JWT_reject OUTBOX_store undo_of activity_url_me
           no_other_argument no_other_redirect
           (api_call [("id", "f4")]) "f4" undone_follow_4
           (ApUndo (ApStored (doc_activity undone_follow_4)))
           (world_of db_relations) (world_of db_relations));
    reflexivity.
Defined.

Example undo_twice_grows_outbox :
  length (DB_outbox (w_db (snd (api_undo JWT_reject OUTBOX_store undo_of
                                  activity_url_me no_other_argument
                                  no_other_redirect (api_call [("id", "f4")])
                                  (world_of db_relations))))) = 3.
Proof. reflexivity. Qed.

(** ** Sorting and de-duplication *)

Section SortFacts.
Context {A : Type} (le : A -> A -> bool) (R : relation A).
Hypothesis le_R : forall x y, le x y = true <-> R x y.
Hypothesis R_total : forall x y, R x y \/ R y x.

Lemma insert_sorted_Permutation x l : insert_sorted le x l ≡ₚ x :: l.
Proof.
  induction l as [|y l IH]; simpl; [done|].
  destruct (le x y); [done|]. rewrite IH. apply Permutation_swap.
Qed.

Lemma sort_by_Permutation l : sort_by le l ≡ₚ l.
Proof.
  induction l as [|x l IH]; simpl; [done|].
  by rewrite insert_sorted_Permutation, IH.
Qed.

Lemma insert_sorted_Sorted x l :
  Sorted R l -> Sorted R (insert_sorted le x l).
Proof.
  induction 1 as [|y l Hl IH Hhd]; simpl.
  - by repeat constructor.
  - destruct (le x y) eqn:Hxy.
    + apply le_R in Hxy. constructor; [by constructor|]. by constructor.
    + constructor; [done|].
      assert (Hyx : R y x).
      { destruct (R_total x y) as [H%le_R|]; [congruence|done]. }
      destruct Hhd as [|z l Hyz]; simpl; [by constructor|].
      destruct (le x z); by constructor.
Qed.

Lemma sort_by_Sorted l : Sorted R (sort_by le l).
Proof.
  induction l; simpl; [constructor|]. by apply insert_sorted_Sorted.
Qed.

(** Sorting a sorted list changes nothing. *)
Lemma sort_by_sorted l : Sorted R l -> sort_by le l = l.
Proof.
  induction 1 as [|x l Hl IH Hhd]; simpl; [done|]. rewrite IH.
  destruct Hhd as [|y l Hxy]; simpl; [done|].
  apply le_R in Hxy. by rewrite Hxy.
Qed.
End SortFacts.

Lemma published_leb_le a b :
  String.leb (published a) (published b) = true <-> published_le a b.
Proof. unfold published_le, String.le. by rewrite Is_true_true. Qed.

Lemma published_le_total a b : published_le a b \/ published_le b a.
Proof. unfold published_le. apply (total String.le). Qed.

#[global] Instance published_le_trans : Transitive published_le.
Proof. intros a b c. unfold published_le. apply transitivity. Qed.

Lemma sorted_by_published_Sorted l :
  StronglySorted published_le (sorted_by_published l).
Proof.
  apply Sorted_StronglySorted; [apply _|].
  apply (sort_by_Sorted _ _ published_leb_le published_le_total).
Qed.

Lemma sorted_by_published_Permutation l : sorted_by_published l ≡ₚ l.
Proof. apply sort_by_Permutation. Qed.

Lemma sorted_by_published_sorted l :
  Sorted published_le l -> sorted_by_published l = l.
Proof. apply (sort_by_sorted _ _ published_leb_le). Qed.

(** De-duplication *)

Lemma first_by_id_sublist seen l : sublist (first_by_id seen l) l.
Proof.
  revert seen. induction l as [|r l IH]; intros seen; simpl; [done|].
  case_bool_decide; [by apply sublist_cons|by apply sublist_skip].
Qed.

Lemma first_by_id_fresh seen l r :
  r ∈ first_by_id seen l -> rep_id r ∉ seen.
Proof.
  revert seen. induction l as [|x l IH]; intros seen; cbn [first_by_id].
  - by intros ?%elem_of_nil.
  - case_bool_decide as Hx; [by apply IH|].
    intros [->|Hr]%elem_of_cons; [done|].
    apply IH in Hr. intros Hin. apply Hr, elem_of_app. by left.
Qed.

Lemma first_by_id_NoDup seen l : NoDup (rep_id <$> first_by_id seen l).
Proof.
  revert seen. induction l as [|x l IH]; intros seen; cbn [first_by_id].
  - constructor.
  - case_bool_decide as Hx; [by apply IH|].
    rewrite fmap_cons. apply NoDup_cons. split; [|by apply IH].
    intros (r & Hid & Hr)%list_elem_of_fmap.
    apply first_by_id_fresh in Hr. apply Hr, elem_of_app. right.
    rewrite Hid. by apply list_elem_of_singleton.
Qed.

(** Every id that was met and is not in [seen] is kept. *)
Lemma first_by_id_ids seen l k :
  k ∈ rep_id <$> first_by_id seen l <-> k ∈ rep_id <$> l /\ k ∉ seen.
Proof.
  revert seen. induction l as [|x l IH]; intros seen; cbn [first_by_id].
  - rewrite fmap_nil. split; [by intros ?%elem_of_nil|by intros [?%elem_of_nil _]].
  - rewrite fmap_cons. case_bool_decide as Hx.
    + rewrite IH, elem_of_cons. split; [tauto|].
      intros [[->|?] ?]; [done|tauto].
    + rewrite fmap_cons, !elem_of_cons, IH, elem_of_app, list_elem_of_singleton.
      split; [|destruct (decide (k = rep_id x)); tauto].
      intros [->|[? ?]]; [tauto|]. split; [tauto|]. intros ?. tauto.
Qed.

Lemma kept_replies_NoDup replies : NoDup (rep_id <$> kept_replies replies).
Proof. apply first_by_id_NoDup. Qed.

Lemma StronglySorted_sublist {A} (R : relation A) l1 l2 :
  sublist l1 l2 -> StronglySorted R l2 -> StronglySorted R l1.
Proof.
  induction 1 as [|x l1 l2 Hsub IH|x l1 l2 Hsub IH]; intros Hs; [done|..].
  - apply StronglySorted_inv in Hs as [Hs Hall]. constructor; [by apply IH|].
    eapply Forall_forall. intros y Hy.
    eapply Forall_forall in Hall; [done|]. by eapply elem_of_sublist.
  - apply StronglySorted_inv in Hs as [Hs _]. by apply IH.
Qed.

Lemma kept_replies_sorted replies :
  StronglySorted published_le (kept_replies replies).
Proof.
  eapply StronglySorted_sublist; [apply first_by_id_sublist|].
  apply sorted_by_published_Sorted.
Qed.

Lemma kept_replies_ids replies k :
  k ∈ rep_id <$> kept_replies replies <-> k ∈ rep_id <$> replies.
Proof.
  unfold kept_replies. rewrite first_by_id_ids.
  rewrite sorted_by_published_Permutation. split; [by intros [? _]|].
  intros ?. split; [done|]. by intros ?%elem_of_nil.
Qed.

(** Of the records with one object id, the record that is kept is one
    that was published first. *)
Lemma first_by_id_earliest seen l rep r :
  StronglySorted published_le l ->
  rep ∈ first_by_id seen l -> r ∈ l -> rep_id r = rep_id rep ->
  published_le rep r.
Proof.
  revert seen. induction l as [|x l IH]; intros seen Hs Hrep Hr Hid.
  - by apply elem_of_nil in Hr.
  - apply StronglySorted_inv in Hs as [Hs Hall].
    rewrite Forall_forall in Hall. cbn [first_by_id] in Hrep.
    case_bool_decide as Hx.
    + apply elem_of_cons in Hr as [->|Hr]; [|by eapply IH].
      apply first_by_id_fresh in Hrep. by rewrite Hid in Hx.
    + apply elem_of_cons in Hrep as [->|Hrep].
      * apply elem_of_cons in Hr as [->|Hr]; [|by apply Hall].
        by destruct (published_le_total x x).
      * apply elem_of_cons in Hr as [->|Hr]; [|by eapply IH].
        apply first_by_id_fresh in Hrep. exfalso. apply Hrep.
        apply elem_of_app. right. rewrite Hid. by apply list_elem_of_singleton.
Qed.

Lemma kept_replies_earliest replies rep r :
  rep ∈ kept_replies replies -> r ∈ replies -> rep_id r = rep_id rep ->
  published_le rep r.
Proof.
  intros Hrep Hr. eapply first_by_id_earliest; [|exact Hrep|].
  - apply sorted_by_published_Sorted.
  - by rewrite sorted_by_published_Permutation.
Qed.

Lemma List_filter_sublist {A} (f : A -> bool) l :
  sublist (List.filter f l) l.
Proof.
  induction l as [|x l IH]; simpl; [done|].
  destruct (f x); [by apply sublist_skip|by apply sublist_cons].
Qed.

Lemma elem_of_List_filter {A} (f : A -> bool) l x :
  x ∈ List.filter f l <-> x ∈ l /\ f x = true.
Proof. rewrite !list_elem_of_In. apply filter_In. Qed.

Lemma kids_sorted root_id l k :
  StronglySorted published_le l -> Sorted published_le (kids root_id l k).
Proof.
  intros Hs. apply StronglySorted_Sorted.
  eapply StronglySorted_sublist; [|done]. apply List_filter_sublist.
Qed.

(** ** The index of a thread *)

Lemma with_id_app k l1 l2 :
  with_id k (l1 ++ l2)
  = match with_id k l1 with Some rep => Some rep | None => with_id k l2 end.
Proof.
  unfold with_id. induction l1 as [|x l1 IH]; simpl; [done|].
  by destruct (String.eqb (rep_id x) k).
Qed.

Lemma with_id_Some k l rep :
  with_id k l = Some rep -> rep ∈ l /\ rep_id rep = k.
Proof.
  unfold with_id. intros [Hin Heq]%find_some.
  split; [by apply list_elem_of_In|by apply String.eqb_eq].
Qed.

Lemma with_id_None k l : with_id k l = None <-> k ∉ rep_id <$> l.
Proof.
  unfold with_id. split.
  - intros Hnone (rep & -> & Hin)%list_elem_of_fmap.
    apply list_elem_of_In in Hin.
    pose proof (find_none _ _ Hnone _ Hin) as H. simpl in H.
    by rewrite String.eqb_refl in H.
  - intros Hnot. destruct (List.find _ l) as [rep|] eqn:Hfind; [|done].
    apply find_some in Hfind as [Hin Heq%String.eqb_eq].
    exfalso. apply Hnot. rewrite <- Heq.
    by apply list_elem_of_fmap_2, list_elem_of_In.
Qed.

(** With distinct ids, the record with the id of [rep] is [rep]. *)
Lemma with_id_elem_of l rep :
  NoDup (rep_id <$> l) -> rep ∈ l -> with_id (rep_id rep) l = Some rep.
Proof.
  unfold with_id. induction l as [|x l IH]; intros Hnd Hin.
  - by apply elem_of_nil in Hin.
  - rewrite fmap_cons in Hnd. apply NoDup_cons in Hnd as [Hx Hnd]. simpl.
    destruct (String.eqb_spec (rep_id x) (rep_id rep)) as [Heq|Hne].
    + apply elem_of_cons in Hin as [->|Hin]; [done|].
      exfalso. apply Hx. rewrite Heq. by apply list_elem_of_fmap_2.
    + apply elem_of_cons in Hin as [->|Hin]; [done|]. by apply IH.
Qed.

(** Two records of [l] with one id are one record. *)
Lemma same_id_same_record l a b :
  NoDup (rep_id <$> l) -> a ∈ l -> b ∈ l -> rep_id a = rep_id b -> a = b.
Proof.
  intros Hnd Ha Hb Hid.
  pose proof (with_id_elem_of l a Hnd Ha) as H1.
  pose proof (with_id_elem_of l b Hnd Hb) as H2.
  rewrite Hid in H1. congruence.
Qed.

(** The first loop computes the de-duplicated list and indexes it. *)
Lemma index_replies_from idx0 kept0 l :
  idx_of kept0 (fun _ => []) idx0 ->
  exists idx,
    foldl (fun (acc : gmap string (note * list note) * list note) rep =>
             let '(idx, replies2) := acc in
             match idx !! rep_id rep with
             | Some _ => (idx, replies2)
             | None => (<[rep_id rep := (rep, [])]> idx, replies2 ++ [rep])
             end)
          (idx0, kept0) l
    = (idx, kept0 ++ first_by_id (rep_id <$> kept0) l)
    /\ idx_of (kept0 ++ first_by_id (rep_id <$> kept0) l) (fun _ => []) idx.
Proof.
  revert idx0 kept0. induction l as [|x l IH]; intros idx0 kept0 Hidx.
  - exists idx0. simpl. by rewrite app_nil_r.
  - cbn [foldl first_by_id]. rewrite (Hidx (rep_id x)).
    destruct (with_id (rep_id x) kept0) as [rep|] eqn:Hwith; cbn [fmap option_fmap option_map].
    + rewrite bool_decide_true; [by apply IH|].
      apply with_id_Some in Hwith as [Hin <-]. by apply list_elem_of_fmap_2.
    + rewrite bool_decide_false by by apply with_id_None.
      destruct (IH (<[rep_id x := (x, [])]> idx0) (kept0 ++ [x])) as (idx & Hrun & Hspec).
      { intros k. rewrite with_id_app.
        destruct (decide (rep_id x = k)) as [<-|Hne].
        - rewrite lookup_insert_eq, Hwith.
          unfold with_id. simpl. by rewrite String.eqb_refl.
        - rewrite lookup_insert_ne, (Hidx k) by done.
          destruct (with_id k kept0); [done|].
          unfold with_id. simpl.
          by rewrite (proj2 (String.eqb_neq _ _) Hne). }
      exists idx. rewrite fmap_app, <- !app_assoc in *. simpl in *. done.
Qed.

Lemma index_replies_spec l :
  exists idx,
    index_replies l = (idx, first_by_id [] l)
    /\ idx_of (first_by_id [] l) (fun _ => []) idx.
Proof.
  destruct (index_replies_from ∅ [] l) as (idx & Hrun & Hspec).
  { intros k. by rewrite lookup_empty. }
  by exists idx.
Qed.

(** The second loop *)

Lemma append_node_cases reply_of rep idx :
  (reply_of ≫= (idx !!.) = None
   /\ append_node reply_of rep idx = Raised KeyError)
  \/ exists p parent nodes,
       reply_of = Some p /\ idx !! p = Some (parent, nodes)
       /\ append_node reply_of rep idx
          = Returned (<[p := (parent, nodes ++ [rep])]> idx).
Proof.
  unfold append_node. destruct reply_of as [p|]; simpl; [|by left].
  destruct (idx !! p) as [[parent nodes]|] eqn:Hp; [|by left].
  right. by exists p, parent, nodes.
Qed.

Lemma insert_keeps_keys (idx : gmap string (note * list note)) p v k :
  is_Some (idx !! p) -> is_Some (<[p := v]> idx !! k) <-> is_Some (idx !! k).
Proof.
  intros Hp. rewrite lookup_insert_is_Some.
  destruct (decide (p = k)) as [<-|]; tauto.
Qed.

(** The loop raises nothing but [KeyError], and keeps the keys. *)
Lemma link_replies_keys root_id l idx :
  link_replies root_id l idx = Raised KeyError
  \/ exists idx', link_replies root_id l idx = Returned idx'
                  /\ forall k, is_Some (idx' !! k) <-> is_Some (idx !! k).
Proof.
  unfold link_replies. revert idx. induction l as [|rep l IH]; intros idx.
  - right. by exists idx.
  - cbn [for_each]. destruct (String.eqb (rep_id rep) root_id).
    + apply IH.
    + destruct (append_node_cases (o_inReplyTo (n_obj rep)) rep idx)
        as [[_ ->]|(p & parent & nodes & _ & Hp & ->)]; [by left|].
      cbn [mbind outcome_bind obind].
      destruct (IH (<[p := (parent, nodes ++ [rep])]> idx))
        as [->|(idx' & -> & Hkeys)]; [by left|].
      right. exists idx'. split; [done|]. intros k.
      rewrite Hkeys. by apply insert_keeps_keys.
Qed.

(** A record whose parent is not indexed stops the loop. *)
Lemma link_replies_KeyError root_id l idx rep :
  rep ∈ l ->
  rep_id rep <> root_id ->
  o_inReplyTo (n_obj rep) ≫= (idx !!.) = None ->
  link_replies root_id l idx = Raised KeyError.
Proof.
  unfold link_replies. revert idx.
  induction l as [|x l IH]; intros idx Hin Hne Hnone.
  - by apply elem_of_nil in Hin.
  - cbn [for_each].
    destruct (String.eqb_spec (rep_id x) root_id) as [Hx|Hx].
    + apply elem_of_cons in Hin as [->|Hin]; [done|]. by apply IH.
    + destruct (append_node_cases (o_inReplyTo (n_obj x)) x idx)
        as [[_ ->]|(p & parent & nodes & Hp & Hidx & ->)]; [done|].
      cbn [mbind outcome_bind obind].
      apply elem_of_cons in Hin as [->|Hin].
      { rewrite Hp in Hnone. simpl in Hnone. congruence. }
      apply IH; [done..|].
      destruct (o_inReplyTo (n_obj rep)) as [q|]; [|done]. simpl in *.
      apply eq_None_not_Some. rewrite insert_keeps_keys by by eexists.
      by apply eq_None_not_Some.
Qed.

(** When every record but the root answers an indexed record, the loop
    ends and each record has been appended to the [_nodes] of the
    record it answers, in the order of the list. *)
Lemma link_replies_Returned root_id l idx :
  (forall rep, rep ∈ l -> rep_id rep <> root_id ->
     exists p, o_inReplyTo (n_obj rep) = Some p /\ is_Some (idx !! p)) ->
  exists idx',
    link_replies root_id l idx = Returned idx'
    /\ forall k, idx' !! k
                 = (fun entry : note * list note =>
                      (entry.1, entry.2 ++ kids root_id l k)) <$> idx !! k.
Proof.
  unfold link_replies. revert idx. induction l as [|x l IH]; intros idx Hok.
  - exists idx. split; [done|]. intros k. simpl.
    destruct (idx !! k) as [[r ns]|]; simpl; [|done]. by rewrite app_nil_r.
  - cbn [for_each]. unfold kids. cbn [List.filter].
    destruct (String.eqb_spec (rep_id x) root_id) as [Hx|Hx].
    + cbn [negb andb]. apply IH. intros rep Hin. apply Hok. by right.
    + destruct (Hok x) as (p & Hp & [[parent nodes] Hidx]); [by left|done|].
      destruct (append_node_cases (o_inReplyTo (n_obj x)) x idx)
        as [[Hnone _]|(p' & parent' & nodes' & Hp' & Hidx' & ->)].
      { rewrite Hp in Hnone. simpl in Hnone. congruence. }
      rewrite Hp in Hp'. injection Hp' as <-.
      rewrite Hidx in Hidx'. injection Hidx' as <- <-.
      cbn [mbind outcome_bind obind].
      destruct (IH (<[p := (parent, nodes ++ [x])]> idx)) as (idx' & -> & Hspec).
      { intros rep Hin Hne. destruct (Hok rep) as (q & Hq & Hsome); [by right|done|].
        exists q. split; [done|]. apply insert_keeps_keys; [by eexists|done]. }
      exists idx'. split; [done|]. intros k. rewrite Hspec.
      cbn [negb andb]. fold (kids root_id l k).
      replace (replies_to k x) with (String.eqb p k)
        by (unfold replies_to; by rewrite Hp).
      destruct (String.eqb_spec p k) as [<-|Hpk].
      * rewrite lookup_insert_eq, Hidx. simpl. by rewrite <- app_assoc.
      * by rewrite lookup_insert_ne.
Qed.

Lemma link_replies_spec root_id kept idx :
  idx_of kept (fun _ => []) idx ->
  (forall rep, rep ∈ kept -> rep_id rep <> root_id ->
     exists p, o_inReplyTo (n_obj rep) = Some p /\ p ∈ rep_id <$> kept) ->
  exists idx',
    link_replies root_id kept idx = Returned idx'
    /\ idx_of kept (kids root_id kept) idx'.
Proof.
  intros Hidx Hok.
  destruct (link_replies_Returned root_id kept idx) as (idx' & Hrun & Hspec).
  { intros rep Hin Hne. destruct (Hok rep Hin Hne) as (p & Hp & Hkept).
    exists p. split; [done|]. rewrite (Hidx p).
    destruct (with_id p kept) eqn:Hw; [by eexists|].
    by apply with_id_None in Hw. }
  exists idx'. split; [done|]. intros k. rewrite Hspec, (Hidx k).
  by destruct (with_id k kept).
Qed.

(** ** Reply trees *)

(** Induction on a tree, with the hypothesis for every child. *)
Lemma tree_ind_Forall (P : tree -> Prop) :
  (forall n cs, Forall P cs -> P (Node n cs)) -> forall t, P t.
Proof.
  intros step. fix IH 1. intros [n cs]. apply step.
  induction cs as [|c cs IHcs]; constructor; [apply IH|exact IHcs].
Qed.

Lemma elem_of_flat_map {A B} (f : A -> list B) l y :
  y ∈ flat_map f l <-> exists x, x ∈ l /\ y ∈ f x.
Proof.
  rewrite list_elem_of_In, in_flat_map.
  split; intros (x & Hx & Hy); exists x; by rewrite ?list_elem_of_In in *.
Qed.

Lemma subtrees_self t : t ∈ subtrees t.
Proof. destruct t. simpl. by left. Qed.

Lemma subtrees_unfold s n cs :
  s ∈ subtrees (Node n cs) <-> s = Node n cs \/ exists c, c ∈ cs /\ s ∈ subtrees c.
Proof. cbn [subtrees]. by rewrite elem_of_cons, elem_of_flat_map. Qed.

Lemma subtrees_trans t s s' :
  s ∈ subtrees t -> s' ∈ subtrees s -> s' ∈ subtrees t.
Proof.
  revert s s'. induction t as [n cs IH] using tree_ind_Forall.
  intros s s' Hs Hs'. apply subtrees_unfold in Hs as [->|(c & Hc & Hs)]; [done|].
  apply subtrees_unfold. right. exists c. split; [done|].
  rewrite Forall_forall in IH. by eapply IH.
Qed.

Lemma subtrees_child t n cs c :
  Node n cs ∈ subtrees t -> c ∈ cs -> c ∈ subtrees t.
Proof.
  intros Hs Hc. eapply subtrees_trans; [done|].
  apply subtrees_unfold. right. exists c. split; [done|apply subtrees_self].
Qed.

(** A subtree is the tree or the child of a subtree. *)
Lemma subtrees_parent t s :
  s ∈ subtrees t -> s = t \/ exists n cs, Node n cs ∈ subtrees t /\ s ∈ cs.
Proof.
  revert s. induction t as [n cs IH] using tree_ind_Forall. intros s Hs.
  apply subtrees_unfold in Hs as [->|(c & Hc & Hs)]; [by left|]. right.
  rewrite Forall_forall in IH. destruct (IH c Hc s Hs) as [->|(m & cs' & Hm & Hin)].
  - exists n, cs. split; [apply subtrees_self|done].
  - exists m, cs'. split; [|done].
    apply subtrees_unfold. right. by exists c.
Qed.

(** The children of a subtree are below the root. *)
Lemma subtrees_child_below t n cs c :
  Node n cs ∈ subtrees t -> c ∈ cs -> c ∈ flat_map subtrees (children t).
Proof.
  destruct t as [m ts]. intros Hs Hc. cbn [children].
  apply elem_of_flat_map.
  apply subtrees_unfold in Hs as [[= -> ->]|(c' & Hc' & Hs)].
  - exists c. split; [done|apply subtrees_self].
  - exists c'. split; [done|]. by eapply subtrees_child.
Qed.

Lemma NoDup_fmap_eq {A B} (f : A -> B) l x y :
  NoDup (f <$> l) -> x ∈ l -> y ∈ l -> f x = f y -> x = y.
Proof.
  induction l as [|z l IH]; intros Hnd Hx Hy Hf.
  - by apply elem_of_nil in Hx.
  - rewrite fmap_cons in Hnd. apply NoDup_cons in Hnd as [Hz Hnd].
    apply elem_of_cons in Hx as [->|Hx]; apply elem_of_cons in Hy as [->|Hy].
    + done.
    + exfalso. apply Hz. rewrite Hf. by apply list_elem_of_fmap_2.
    + exfalso. apply Hz. rewrite <- Hf. by apply list_elem_of_fmap_2.
    + by apply IH.
Qed.

Section TreeOfRecords.
Variable kept : list note.
Variable t : tree.
Hypothesis kept_NoDup : NoDup (rep_id <$> kept).
Hypothesis covers : labels t ≡ₚ kept.
Hypothesis links : reply_links t.

Lemma subtree_ids_NoDup : NoDup ((fun s => rep_id (label s)) <$> subtrees t).
Proof.
  rewrite <- covers in kept_NoDup. unfold labels in kept_NoDup.
  by rewrite <- list_fmap_compose in kept_NoDup.
Qed.

Lemma subtree_by_id s1 s2 :
  s1 ∈ subtrees t -> s2 ∈ subtrees t ->
  rep_id (label s1) = rep_id (label s2) -> s1 = s2.
Proof. apply (NoDup_fmap_eq _ _ _ _ subtree_ids_NoDup). Qed.

Lemma subtree_label_kept s : s ∈ subtrees t -> label s ∈ kept.
Proof. intros Hs. rewrite <- covers. by apply list_elem_of_fmap_2. Qed.

(** The children of a node of the tree are the kept records that answer
    it. *)
Lemma children_are_kids n cs rep :
  Node n cs ∈ subtrees t ->
  rep ∈ kept ->
  rep ∈ label <$> cs
  <-> rep_id rep <> rep_id (label t)
      /\ o_inReplyTo (n_obj rep) = Some (rep_id n).
Proof.
  intros Hn Hrep. split.
  - intros (c & -> & Hc)%list_elem_of_fmap. split; [|by eapply links].
    intros Hid.
    assert (c = t) as ->.
    { apply subtree_by_id; [by eapply subtrees_child|apply subtrees_self|done]. }
    pose proof (subtrees_child_below _ _ _ _ Hn Hc) as Hbelow.
    pose proof subtree_ids_NoDup as Hnd.
    destruct t as [m ts]. cbn [subtrees children] in *.
    rewrite fmap_cons in Hnd. apply NoDup_cons in Hnd as [Hfresh _].
    apply Hfresh. by apply (list_elem_of_fmap_2 (fun s => rep_id (label s))) in Hbelow.
  - intros [Hroot Hreply].
    rewrite <- covers in Hrep. apply list_elem_of_fmap in Hrep as (s & -> & Hs).
    apply subtrees_parent in Hs as [->|(m & cs' & Hm & Hin)]; [done|].
    pose proof (links m cs' s Hm Hin) as Hparent.
    rewrite Hreply in Hparent. injection Hparent as Hid.
    assert (Node n cs = Node m cs') as [= -> ->] by by apply subtree_by_id.
    by apply list_elem_of_fmap_2.
Qed.
End TreeOfRecords.

(** ** Flattening *)

Lemma length_flat_map_elem {A B} (f : A -> list B) l x :
  x ∈ l -> length (f x) <= length (flat_map f l).
Proof.
  induction l as [|y l IH]; intros Hx; [by apply elem_of_nil in Hx|].
  simpl. rewrite length_app.
  apply elem_of_cons in Hx as [->|Hx]; [lia|]. specialize (IH Hx). lia.
Qed.

(** One call of [_flatten], whatever the room. *)
Lemma flatten_unfold room idx node level thread :
  _flatten room idx node level thread
  = match idx !! rep_id node with
    | None => Raised KeyError
    | Some (_, nodes) =>
        for_each (sorted_by_published nodes)
          (fun snode thread =>
             match room with
             | O => Raised RecursionError
             | S room' => _flatten room' idx snode (level + 1) thread
             end)
          (thread ++ [{| tn_note := node; tn_level := level |}])
    end.
Proof. by destruct room. Qed.

Lemma height_Node n cs :
  height (Node n cs) = foldr Nat.max 0 (List.map (fun c => S (height c)) cs).
Proof. reflexivity. Qed.

Lemma foldr_max_elem_of_le (l : list nat) x : x ∈ l -> x <= foldr Nat.max 0 l.
Proof.
  induction l as [|y l IH]; intros Hx; [by apply elem_of_nil in Hx|].
  cbn [foldr]. apply elem_of_cons in Hx as [->|Hx]; [lia|].
  specialize (IH Hx). lia.
Qed.

Lemma foldr_max_Permutation (l1 l2 : list nat) :
  l1 ≡ₚ l2 -> foldr Nat.max 0 l1 = foldr Nat.max 0 l2.
Proof. induction 1; cbn [foldr]; lia. Qed.

Lemma height_children n cs c :
  c ∈ cs -> S (height c) <= height (Node n cs).
Proof.
  intros Hc. rewrite height_Node. apply foldr_max_elem_of_le.
  apply list_elem_of_In, in_map_iff. exists c. by rewrite <- list_elem_of_In.
Qed.

(** [_flatten] appends the pre-order traversal of a tree that [idx]
    describes, when the stack has room for the height of the tree. *)
Lemma flatten_preorder idx t :
  thread_shaped idx t ->
  forall room level thread,
    height t <= room ->
    _flatten room idx (label t) level thread
    = Returned (thread ++ preorder level t).
Proof.
  induction t as [n cs IH] using tree_ind_Forall.
  intros Hshape room level thread Hroom.
  inversion Hshape as [n' cs' entry Hidx Hsorted Hcs]; subst n' cs'.
  rewrite flatten_unfold. cbn [label preorder]. rewrite Hidx.
  rewrite (sorted_by_published_sorted _ Hsorted).
  assert (Hloop : forall acc,
    for_each (label <$> cs)
      (fun snode thread =>
         match room with
         | O => Raised RecursionError
         | S room' => _flatten room' idx snode (level + 1) thread
         end) acc
    = Returned (acc ++ flat_map (preorder (level + 1)) cs)).
  { clear Hidx Hsorted Hshape. rewrite height_Node in Hroom.
    induction cs as [|c cs IHcs]; intros acc.
    - simpl. by rewrite app_nil_r.
    - apply Forall_cons in IH as [IHc IH]. apply Forall_cons in Hcs as [Hc Hcs].
      cbn [List.map foldr] in Hroom. unfold id in Hroom.
      rewrite fmap_cons. cbn [for_each flat_map].
      destruct room as [|room]; [lia|].
      rewrite (IHc Hc) by lia.
      cbn [mbind outcome_bind obind].
      rewrite IHcs by (done || lia). by rewrite <- app_assoc. }
  rewrite Hloop. by rewrite <- app_assoc.
Qed.

(** With less room than the tree is high, the call that goes one level
    too far raises [RecursionError]. *)
Lemma flatten_too_deep idx t :
  thread_shaped idx t ->
  forall room level thread,
    room < height t ->
    _flatten room idx (label t) level thread = Raised RecursionError.
Proof.
  induction t as [n cs IH] using tree_ind_Forall.
  intros Hshape room level thread Hroom.
  inversion Hshape as [n' cs' entry Hidx Hsorted Hcs]; subst n' cs'.
  rewrite flatten_unfold. cbn [label]. rewrite Hidx.
  rewrite (sorted_by_published_sorted _ Hsorted).
  generalize (thread ++ [{| tn_note := n; tn_level := level |}]).
  clear Hidx Hsorted Hshape. rewrite height_Node in Hroom.
  induction cs as [|c cs IHcs]; intros acc.
  - simpl in Hroom. lia.
  - apply Forall_cons in IH as [IHc IH]. apply Forall_cons in Hcs as [Hc Hcs].
    cbn [List.map foldr] in Hroom.
    rewrite fmap_cons. cbn [for_each].
    destruct room as [|room]; [done|].
    destruct (decide (height c <= room)) as [Hfits|Hdeep].
    + rewrite (flatten_preorder idx c Hc) by done.
      cbn [mbind outcome_bind obind]. apply IHcs; (done || lia).
    + by rewrite (IHc Hc) by lia.
Qed.

(** ** The thread order of a tree *)

Lemma label_in_thread_order l t : label (in_thread_order l t) = label t.
Proof. by destruct t. Qed.

Lemma List_filter_nil {A} (f : A -> bool) l :
  (forall x, x ∈ l -> f x = false) -> List.filter f l = [].
Proof.
  induction l as [|x l IH]; intros H; [done|]. simpl.
  rewrite (H x) by by left. apply IH. intros y Hy. apply H. by right.
Qed.

Lemma filter_by_id l rep :
  NoDup (rep_id <$> l) -> rep ∈ l ->
  List.filter (fun x => String.eqb (rep_id x) (rep_id rep)) l = [rep].
Proof.
  induction l as [|x l IH]; intros Hnd Hin; [by apply elem_of_nil in Hin|].
  rewrite fmap_cons in Hnd. apply NoDup_cons in Hnd as [Hx Hnd]. simpl.
  destruct (String.eqb_spec (rep_id x) (rep_id rep)) as [Heq|Hne].
  - apply elem_of_cons in Hin as [->|Hin].
    + f_equal. apply List_filter_nil. intros y Hy.
      apply String.eqb_neq. intros Hid. apply Hx. rewrite <- Hid.
      by apply list_elem_of_fmap_2.
    + exfalso. apply Hx. rewrite Heq. by apply list_elem_of_fmap_2.
  - apply elem_of_cons in Hin as [->|Hin]; [done|]. by apply IH.
Qed.

Lemma fmap_List_filter {A B} (f : A -> B) (p : B -> bool) l :
  f <$> List.filter (fun x => p (f x)) l = List.filter p (f <$> l).
Proof.
  induction l as [|x l IH]; [done|]. rewrite fmap_cons. simpl.
  destruct (p (f x)); [rewrite fmap_cons|]; by rewrite IH.
Qed.

Lemma labels_order_as l ts :
  label <$> order_as l ts
  = l ≫= fun rep =>
           List.filter (fun x => String.eqb (rep_id x) (rep_id rep)) (label <$> ts).
Proof.
  unfold order_as. induction l as [|rep l IH]; [done|].
  rewrite !bind_cons, fmap_app, IH. f_equal.
  apply (fmap_List_filter label (fun x => String.eqb (rep_id x) (rep_id rep))).
Qed.

(** Listing, for each record of [l] in turn, the records of [L] with its
    id is filtering [l], when [L] holds, of the records of [kept], those
    that satisfy the filter. *)
Lemma select_by_id kept L (p : note -> bool) l :
  NoDup (rep_id <$> kept) ->
  NoDup (rep_id <$> L) ->
  (forall x, x ∈ L -> x ∈ kept) ->
  (forall rep, rep ∈ kept -> rep ∈ L <-> p rep = true) ->
  (forall rep, rep ∈ l -> rep ∈ kept) ->
  (l ≫= fun rep => List.filter (fun x => String.eqb (rep_id x) (rep_id rep)) L)
  = List.filter p l.
Proof.
  intros Hkept HL Hsub Hp. induction l as [|rep l IH]; intros Hl; [done|].
  rewrite bind_cons. rewrite IH; [|intros y Hy; apply Hl; by right]. simpl.
  assert (Hrep : rep ∈ kept) by (apply Hl; by left).
  destruct (p rep) eqn:Hprep.
  - apply Hp in Hprep; [|done]. by rewrite (filter_by_id L rep HL Hprep).
  - rewrite List_filter_nil; [done|]. intros x Hx.
    apply String.eqb_neq. intros Hid.
    assert (x = rep) as ->
      by (apply (same_id_same_record kept); [done|by apply Hsub|done|done]).
    apply Hp in Hx; [|done]. congruence.
Qed.

(** ** Thread order *)

Lemma subtrees_sublist t s : s ∈ subtrees t -> sublist (subtrees s) (subtrees t).
Proof.
  revert s. induction t as [n cs IH] using tree_ind_Forall. intros s Hs.
  apply subtrees_unfold in Hs as [->|(c & Hc & Hs)]; [done|].
  cbn [subtrees]. apply sublist_cons.
  rewrite Forall_forall in IH. specialize (IH c Hc s Hs).
  clear -Hc IH. induction cs as [|c' cs IHcs]; [by apply elem_of_nil in Hc|].
  cbn [flat_map]. apply elem_of_cons in Hc as [->|Hc].
  - by apply sublist_inserts_r.
  - apply sublist_inserts_l. by apply IHcs.
Qed.

Lemma children_sublist cs : sublist cs (flat_map subtrees cs).
Proof.
  induction cs as [|[n ts] cs IH]; [done|]. cbn [flat_map subtrees].
  rewrite <- app_comm_cons. apply sublist_skip. by apply sublist_inserts_l.
Qed.

Lemma elem_of_order_as l ts x : x ∈ order_as l ts -> x ∈ ts.
Proof.
  unfold order_as. intros (rep & Hx & _)%list_elem_of_bind.
  by apply elem_of_List_filter in Hx as [Hx _].
Qed.

Lemma order_as_fmap l (g : tree -> tree) ts :
  (forall c, label (g c) = label c) ->
  order_as l (List.map g ts) = g <$> order_as l ts.
Proof.
  intros Hg. unfold order_as. induction l as [|rep l IH]; [done|].
  rewrite !bind_cons, fmap_app, IH. f_equal.
  clear IH. induction ts as [|c ts IH]; [done|]. simpl. rewrite Hg.
  destruct (String.eqb _ _); [rewrite fmap_cons|]; by rewrite IH.
Qed.

Lemma order_as_map l ts :
  order_as l (List.map (in_thread_order l) ts)
  = in_thread_order l <$> order_as l ts.
Proof. apply order_as_fmap, label_in_thread_order. Qed.

Section ThreadOrder.
Variable kept : list note.
Variable t : tree.
Variable idx : gmap string (note * list note).
Hypothesis kept_NoDup : NoDup (rep_id <$> kept).
Hypothesis kept_sorted : StronglySorted published_le kept.
Hypothesis covers : labels t ≡ₚ kept.
Hypothesis links : reply_links t.
Hypothesis linked : idx_of kept (kids (rep_id (label t)) kept) idx.

Lemma children_ids_NoDup n cs :
  Node n cs ∈ subtrees t -> NoDup ((fun s => rep_id (label s)) <$> cs).
Proof.
  intros Hn. eapply sublist_NoDup; [apply (subtree_ids_NoDup kept t); done|].
  apply fmap_sublist. etrans; [apply children_sublist|].
  etrans; [|by apply subtrees_sublist]. cbn [subtrees]. by apply sublist_cons.
Qed.

Lemma children_kept n cs c :
  Node n cs ∈ subtrees t -> c ∈ cs -> label c ∈ kept.
Proof.
  intros Hn Hc. apply (subtree_label_kept kept t covers).
  by eapply subtrees_child.
Qed.

(** In thread order the children of a node are the records that answer
    it, as the second loop lists them. *)
Lemma thread_order_children n cs :
  Node n cs ∈ subtrees t ->
  label <$> order_as kept (List.map (in_thread_order kept) cs)
  = kids (rep_id (label t)) kept (rep_id n).
Proof.
  intros Hn. rewrite order_as_map, <- list_fmap_compose.
  rewrite (list_fmap_ext (label ∘ in_thread_order kept) label (order_as kept cs))
    by (intros ? c _; apply label_in_thread_order).
  rewrite labels_order_as.
  apply (select_by_id kept); [done|..|done].
  - rewrite <- list_fmap_compose. apply (children_ids_NoDup n cs Hn).
  - intros x (c & -> & Hc)%list_elem_of_fmap. apply (children_kept n cs c Hn Hc).
  - intros rep Hrep.
    rewrite (children_are_kids kept t kept_NoDup covers links n cs rep Hn Hrep).
    rewrite andb_true_iff, negb_true_iff, String.eqb_neq.
    unfold replies_to. destruct (o_inReplyTo (n_obj rep)) as [p|].
    + rewrite String.eqb_eq. split; intros [? ?]; split; congruence.
    + split; intros [? ?]; congruence.
Qed.

Lemma thread_order_shaped s :
  s ∈ subtrees t -> thread_shaped idx (in_thread_order kept s).
Proof.
  induction s as [n cs IH] using tree_ind_Forall. intros Hs.
  cbn [in_thread_order]. apply (shaped_node idx n _ n).
  - rewrite (thread_order_children n cs Hs), (linked (rep_id n)).
    rewrite (with_id_elem_of kept n); [done..|].
    by apply (subtree_label_kept kept t covers (Node n cs)).
  - rewrite (thread_order_children n cs Hs). by apply kids_sorted.
  - apply Forall_forall. intros x Hx%elem_of_order_as.
    apply list_elem_of_In, in_map_iff in Hx as (c & <- & Hc%list_elem_of_In).
    rewrite Forall_forall in IH. apply IH; [done|]. by eapply subtrees_child.
Qed.

Lemma order_as_Permutation n cs :
  Node n cs ∈ subtrees t -> cs ≡ₚ order_as kept cs.
Proof.
  intros Hn. apply NoDup_Permutation.
  - eapply NoDup_fmap_1. apply (children_ids_NoDup n cs Hn).
  - unfold order_as. apply NoDup_bind.
    + intros r1 r2 c Hr1 Hr2 [_ H1%String.eqb_eq]%elem_of_List_filter
        [_ H2%String.eqb_eq]%elem_of_List_filter.
      apply (same_id_same_record kept); [done..|congruence].
    + intros rep _. eapply sublist_NoDup; [|apply List_filter_sublist].
      eapply NoDup_fmap_1. apply (children_ids_NoDup n cs Hn).
    + by eapply NoDup_fmap_1.
  - intros c. split; [|apply elem_of_order_as]. intros Hc.
    unfold order_as. apply list_elem_of_bind. exists (label c).
    split; [|apply (children_kept n cs c Hn Hc)].
    apply elem_of_List_filter. split; [done|apply String.eqb_refl].
Qed.

Lemma thread_order_reorder s :
  s ∈ subtrees t -> sibling_reorder s (in_thread_order kept s).
Proof.
  induction s as [n cs IH] using tree_ind_Forall. intros Hs.
  cbn [in_thread_order]. apply (reorder_node n cs (order_as kept cs)).
  - by eapply order_as_Permutation.
  - rewrite order_as_map. apply Forall2_fmap_r, Forall_Forall2_diag.
    apply Forall_forall. intros c Hc%elem_of_order_as.
    rewrite Forall_forall in IH. apply IH; [done|]. by eapply subtrees_child.
Qed.
End ThreadOrder.

Lemma sibling_reorder_labels s s' :
  sibling_reorder s s' -> labels s ≡ₚ labels s'.
Proof.
  revert s'. induction s as [n cs IH] using tree_ind_Forall.
  intros s' Hre. inversion Hre as [n' cs' cs1 cs2 Hperm Hall]; subst.
  unfold labels. cbn [subtrees]. rewrite !fmap_cons. cbn [label]. f_equiv.
  rewrite (Permutation_flat_map subtrees Hperm).
  rewrite Hperm in IH. clear Hperm Hre.
  induction Hall as [|c c' cs1 cs2 Hc Hall IHall]; [done|].
  apply Forall_cons in IH as [IHc IH]. cbn [flat_map].
  rewrite !fmap_app. f_equiv; [by apply IHc|by apply IHall].
Qed.

Lemma sibling_reorder_height s s' :
  sibling_reorder s s' -> height s = height s'.
Proof.
  revert s'. induction s as [n cs IH] using tree_ind_Forall.
  intros s' Hre. inversion Hre as [n' cs' cs1 cs2 Hperm Hall]; subst.
  rewrite !height_Node.
  rewrite (foldr_max_Permutation _ _ (Permutation_map _ Hperm)).
  rewrite Hperm in IH. clear Hperm Hre.
  induction Hall as [|c c' cs1 cs2 Hc Hall IHall]; [done|].
  apply Forall_cons in IH as [IHc IH]. cbn [List.map foldr].
  by rewrite (IHc _ Hc), IHall.
Qed.

Lemma thread_shaped_by_published idx s :
  thread_shaped idx s -> by_published s.
Proof.
  induction s as [n cs IH] using tree_ind_Forall.
  intros Hshape m cs' Hm.
  inversion Hshape as [n' cs'' entry Hidx Hsorted Hcs]; subst.
  apply subtrees_unfold in Hm as [[= -> ->]|(c & Hc & Hm)]; [done|].
  rewrite Forall_forall in IH, Hcs. by eapply (IH c Hc (Hcs c Hc)).
Qed.

Lemma preorder_notes level s : tn_note <$> preorder level s = labels s.
Proof.
  revert level. induction s as [n cs IH] using tree_ind_Forall. intros level.
  unfold labels. cbn [preorder subtrees]. rewrite !fmap_cons. cbn. f_equal.
  generalize (level + 1). intros lvl.
  induction cs as [|c cs IHcs]; [done|].
  apply Forall_cons in IH as [IHc IH]. cbn [flat_map].
  rewrite !fmap_app, IHc, IHcs by done. done.
Qed.

(** ** The thread that is built *)

Lemma kept_replies_length replies : length (kept_replies replies) <= length replies.
Proof.
  rewrite <- (Permutation_length (sorted_by_published_Permutation replies)).
  apply sublist_length, first_by_id_sublist.
Qed.

Lemma kept_replies_elem_of replies rep :
  rep ∈ kept_replies replies -> rep ∈ replies.
Proof.
  intros Hin. rewrite <- (sorted_by_published_Permutation replies).
  eapply elem_of_sublist; [done|apply first_by_id_sublist].
Qed.

(** The run of [_build_thread] up to the second loop. *)
Lemma build_thread_unfold room data db o replies :
  the_object data = Returned o ->
  collect_replies data (thread_query (thread_root_id data o) o) db
  = Returned replies ->
  exists idx,
    idx_of (kept_replies replies) (fun _ => []) idx
    /\ _build_thread room data true db
       = (idx' ← link_replies (thread_root_id data o) (kept_replies replies) idx;
          match idx' !! thread_root_id data o with
          | None => Raised KeyError
          | Some (root, _) => _flatten room idx' root 0 []
          end).
Proof.
  intros Hobj Hcol.
  destruct (index_replies_spec (sorted_by_published replies)) as (idx & Hrun & Hidx).
  exists idx. split; [done|]. unfold thread_root_id in *.
  unfold _build_thread. rewrite Hobj. cbn [mbind outcome_bind obind].
  rewrite Hcol. cbn [mbind outcome_bind obind]. by rewrite Hrun.
Qed.

Section BuildThread.
Variable data : doc.
Variable db : DB.
Variable o : as_object.
Variable replies : list note.

Abbreviation root_of := (thread_root_id data o).

Hypothesis data_object : the_object data = Returned o.
Hypothesis collected :
  collect_replies data (thread_query root_of o) db = Returned replies.

(** C6: the records kept for a thread are collected records, one for
    every object id that was collected, and of the records with one
    object id it is one that was published first. When they are the
    nodes of a tree whose root carries the root id and whose every edge
    is a reply ([inReplyTo] of the child is the object id of the
    parent), [_build_thread] returns, when the stack has room for the
    height of the tree, the pre-order traversal of that tree from the
    root, each node one level below its parent, with the children of
    every node in ascending order of [published]: the traversal of the
    tree put in thread order, which is the same tree up to the order of
    siblings. Every record that was kept is in the thread once. When
    the tree is higher than the stack has room, [_build_thread] raises
    [RecursionError]. *)
Theorem build_thread_is_preorder_traversal t room :
  rep_id (label t) = root_of ->
  reply_links t ->
  labels t ≡ₚ kept_replies replies ->
  sibling_reorder t (in_thread_order (kept_replies replies) t)
  /\ by_published (in_thread_order (kept_replies replies) t)
  /\ tn_note <$> preorder 0 (in_thread_order (kept_replies replies) t)
     ≡ₚ kept_replies replies
  /\ (NoDup (rep_id <$> kept_replies replies)
      /\ (forall rep, rep ∈ kept_replies replies -> rep ∈ replies)
      /\ (forall r, r ∈ replies -> rep_id r ∈ rep_id <$> kept_replies replies)
      /\ (forall rep r, rep ∈ kept_replies replies -> r ∈ replies ->
            rep_id r = rep_id rep -> published_le rep r))
  /\ (height t <= room ->
      _build_thread room data true db
      = Returned (preorder 0 (in_thread_order (kept_replies replies) t)))
  /\ (room < height t ->
      _build_thread room data true db = Raised RecursionError).
Proof.
  intros Hroot Hlinks Hcovers.
  set (kept := kept_replies replies) in *.
  pose proof (kept_replies_NoDup replies) as Hnd.
  pose proof (kept_replies_sorted replies) as Hsorted.
  destruct (build_thread_unfold room data db o replies data_object collected)
    as (idx & Hidx & ->). fold kept in Hidx |- *.
  destruct (link_replies_spec root_of kept idx Hidx) as (idx' & -> & Hlinked).
  { intros rep Hrep Hne. rewrite <- Hcovers in Hrep.
    apply list_elem_of_fmap in Hrep as (s & -> & Hs).
    apply subtrees_parent in Hs as [->|(m & cs & Hm & Hin)]; [done|].
    exists (rep_id m). split; [by eapply Hlinks|].
    apply list_elem_of_fmap_2.
    apply (subtree_label_kept kept t Hcovers (Node m cs) Hm). }
  cbn [mbind outcome_bind obind]. rewrite <- Hroot in Hlinked.
  pose proof (thread_order_shaped kept t idx' Hnd Hsorted Hcovers Hlinks Hlinked
                t (subtrees_self t)) as Hshape.
  pose proof (thread_order_reorder kept t Hnd Hcovers t (subtrees_self t))
    as Hreorder.
  split; [done|]. split; [by eapply thread_shaped_by_published|].
  split.
  { rewrite preorder_notes, <- (sibling_reorder_labels _ _ Hreorder).
    exact Hcovers. }
  split.
  { split; [done|]. split; [apply kept_replies_elem_of|].
    split; [|apply kept_replies_earliest].
    intros r Hr. apply kept_replies_ids. by apply list_elem_of_fmap_2. }
  rewrite <- Hroot, (Hlinked (rep_id (label t))).
  rewrite (with_id_elem_of kept (label t) Hnd)
    by apply (subtree_label_kept kept t Hcovers t (subtrees_self t)).
  cbn [fmap option_fmap option_map].
  rewrite <- (label_in_thread_order kept t).
  rewrite (sibling_reorder_height _ _ Hreorder).
  split; intros Hroom.
  - by rewrite (flatten_preorder idx' _ Hshape).
  - by rewrite (flatten_too_deep idx' _ Hshape).
Qed.

(** C10, as the code has it: when a record that is kept (the first, in
    order of [published], with its object id) and is not the root names
    in [inReplyTo] no object id of a collected record, or when no
    collected record has the root id, [_build_thread] raises
    [KeyError], whatever room the stack has. *)
Theorem build_thread_raises_KeyError room :
  (exists rep, rep ∈ kept_replies replies
               /\ rep_id rep <> root_of
               /\ forall r, r ∈ replies ->
                    o_inReplyTo (n_obj rep) <> Some (rep_id r))
  \/ (forall r, r ∈ replies -> rep_id r <> root_of) ->
  _build_thread room data true db = Raised KeyError.
Proof.
  intros Hbroken.
  destruct (build_thread_unfold room data db o replies data_object collected)
    as (idx & Hidx & ->).
  assert (Hmissing : forall k, (forall r, r ∈ replies -> rep_id r <> k) ->
                               idx !! k = None).
  { intros k Hk. rewrite (Hidx k).
    destruct (with_id k (kept_replies replies)) as [r|] eqn:Hwith; [|done].
    apply with_id_Some in Hwith as [Hin Hid].
    by apply kept_replies_elem_of, Hk in Hin. }
  destruct Hbroken as [(rep & Hrep & Hne & Hdangling)|Hroot].
  - rewrite (link_replies_KeyError root_of _ idx rep Hrep Hne); [done|].
    destruct (o_inReplyTo (n_obj rep)) as [p|]; [|done]. simpl.
    apply Hmissing. intros r Hr Heq. apply (Hdangling r Hr). by rewrite Heq.
  - destruct (link_replies_keys root_of (kept_replies replies) idx)
      as [->|(idx' & -> & Hkeys)]; [done|].
    cbn [mbind outcome_bind obind].
    destruct (idx' !! root_of) as [entry|] eqn:Hentry; [|done].
    assert (is_Some (idx !! root_of)) as [? Hsome] by (apply Hkeys; by eexists).
    rewrite (Hmissing root_of Hroot) in Hsome. discriminate.
Qed.
End BuildThread.

Lemma reply_links_ABC : reply_links tree_ABC.
Proof.
  intros n cs c Hn Hc. apply list_elem_of_In in Hn. simpl in Hn.
  destruct Hn as [[= <- <-]|[[= <- <-]|[[= <- <-]|[]]]];
    apply list_elem_of_In in Hc; simpl in Hc.
  - by destruct Hc as [<-|[]].
  - by destruct Hc as [<-|[]].
  - destruct Hc.
Defined.

(** The scenario of the specification: with room for two nested calls
    the thread is A, B, C; with room for one, C is out of reach. *)
Lemma build_thread_is_preorder_traversal_witness :
  _build_thread 2 doc_A true db_ABC
  = Returned [ {| tn_note := note_A; tn_level := 0 |};
               {| tn_note := note_B; tn_level := 1 |};
               {| tn_note := note_C; tn_level := 2 |} ]
  /\ _build_thread 1 doc_A true db_ABC = Raised RecursionError.
Proof.
  split.
  - apply (proj1 (proj2 (proj2 (proj2 (proj2
      (build_thread_is_preorder_traversal doc_A db_ABC
         (note_object "A" None "2018-06-01T10:00:00Z")
         [note_A; note_B; note_C] eq_refl eq_refl tree_ABC 2
         eq_refl reply_links_ABC (Permutation_refl _))))))).
    simpl. lia.
  - apply (proj2 (proj2 (proj2 (proj2 (proj2
      (build_thread_is_preorder_traversal doc_A db_ABC
         (note_object "A" None "2018-06-01T10:00:00Z")
         [note_A; note_B; note_C] eq_refl eq_refl tree_ABC 1
         eq_refl reply_links_ABC (Permutation_refl _))))))).
    simpl. lia.
Defined.

(** C6 as stated fails twice. The copy of A that is kept is the one
    published first, not the one collected first: the record the
    thread was asked for is dropped for the record of the inbox. And
    the thread A, B, C, read with room for one nested call, is not
    returned: [_flatten] raises [RecursionError]. *)
Lemma build_thread_keeps_first_published_and_needs_room :
  collect_replies doc_A
    (thread_query (thread_root_id doc_A (note_object "A" None "2018-06-01T10:00:00Z"))
                  (note_object "A" None "2018-06-01T10:00:00Z"))
    db_twice
  = Returned [note_A; note_A_early]
  /\ rep_id note_A_early = rep_id note_A
  /\ _build_thread 4 doc_A true db_twice
     = Returned [ {| tn_note := note_A_early; tn_level := 0 |} ]
  /\ _build_thread 1 doc_A true db_ABC = Raised RecursionError.
Proof. vm_compute. repeat split. Qed.

(** C is read (as the reply form does for the note one answers): its
    parent B is collected, the root A is not, and B answers A. *)
Lemma build_thread_raises_KeyError_witness :
  _build_thread 4 doc_C true db_ABC = Raised KeyError.
Proof.
  apply (build_thread_raises_KeyError doc_C db_ABC
           (note_object "C" (Some "B") "2018-06-01T12:00:00Z")
           [read_as true doc_C "C" (Some "B") "2018-06-01T12:00:00Z";
            note_B; note_C]
           eq_refl eq_refl 4).
  right. intros r Hr. apply list_elem_of_In in Hr. simpl in Hr.
  destruct Hr as [<-|[<-|[<-|[]]]]; discriminate.
Defined.

(** C10 as stated fails: X is collected, is not the root, and names in
    [inReplyTo] its own id, which is the id of no other collected
    record; the thread of A is built all the same, without X. *)
Lemma build_thread_self_reply_returns :
  collect_replies doc_A
    (thread_query (thread_root_id doc_A (note_object "A" None "2018-06-01T10:00:00Z"))
                  (note_object "A" None "2018-06-01T10:00:00Z"))
    db_AX
  = Returned [note_A; read_as false doc_X "X" (Some "X") "2018-06-01T13:00:00Z"]
  /\ String.eqb "X" (rep_id note_A) = false
  /\ _build_thread 4 doc_A true db_AX
     = Returned [ {| tn_note := note_A; tn_level := 0 |} ].
Proof. vm_compute. repeat split. Qed.

(** ** Paging through the outbox *)

#[global] Instance id_ge_trans : Transitive id_ge.
Proof. intros a b c. unfold id_ge. lia. Qed.

Lemma find_page_length col q limit : length (find_page col q limit) <= limit.
Proof. unfold find_page. rewrite length_take. lia. Qed.

Lemma find_page_elem_of col q limit d :
  d ∈ find_page col q limit -> d ∈ col /\ matches q d = true.
Proof.
  unfold find_page, sort_id_desc, find. intros Hd.
  pose proof (elem_of_sublist _ _ _ Hd (sublist_take _ limit)) as Hd'.
  rewrite sort_by_Permutation in Hd'. by apply elem_of_List_filter in Hd'.
Qed.

Lemma find_page_sorted col q limit :
  StronglySorted id_ge (find_page col q limit).
Proof.
  unfold find_page, sort_id_desc.
  eapply StronglySorted_sublist; [apply sublist_take|].
  apply Sorted_StronglySorted; [apply _|].
  apply (sort_by_Sorted _ id_ge); unfold id_ge.
  - intros a b. apply N.leb_le.
  - intros a b. lia.
Qed.

(** A page has a cursor exactly when it is full. *)
Lemma next_cursor_full outbox_data limit :
  0 < limit ->
  is_Some (next_cursor outbox_data limit) <-> length outbox_data = limit.
Proof.
  intros Hlimit. unfold next_cursor.
  destruct (last outbox_data) as [d|] eqn:Hlast.
  - destruct (Nat.eqb_spec (length outbox_data) limit); split;
      (done || by eexists || by intros [? ?]).
  - apply last_None in Hlast as ->. simpl. split; [by intros [? ?]|lia].
Qed.

Lemma mapM_Returned_cons {A B} (f : A -> outcome B) x l ys :
  mapM f (x :: l) = Returned ys ->
  exists y ys', f x = Returned y /\ mapM f l = Returned ys' /\ ys = y :: ys'.
Proof.
  cbn [mapM]. destruct (f x) as [y|]; [|done..].
  cbn [mbind outcome_bind obind].
  destruct (mapM f l) as [ys'|]; [|done..].
  cbn [mbind outcome_bind obind mret outcome_ret]. intros [= <-].
  by exists y, ys'.
Qed.

Lemma attach_ref_doc OBJECT_SERVICE_get d it :
  attach_ref OBJECT_SERVICE_get d = Returned it -> it_doc it = d.
Proof.
  unfold attach_ref. destruct (String.eqb (type_ d) "Announce").
  - destruct (a_object (doc_activity d)) as [iri|]; [|done].
    destruct (startswith iri "http").
    + destruct (OBJECT_SERVICE_get iri); [|done..]. by intros [= <-].
    + by intros [= <-].
  - by intros [= <-].
Qed.

Lemma mapM_attach_ref_docs OBJECT_SERVICE_get l items :
  mapM (attach_ref OBJECT_SERVICE_get) l = Returned items ->
  it_doc <$> items = l.
Proof.
  revert items. induction l as [|d l IH]; intros items.
  - by intros [= <-].
  - intros (it & items' & Hit & Hitems & ->)%mapM_Returned_cons.
    rewrite fmap_cons, (IH items' Hitems).
    by rewrite (attach_ref_doc _ _ _ Hit).
Qed.

(** The page [index] and [with_replies] render: the records the query
    with the cursor matches, at most fifty of them by descending
    ObjectId, and the cursor of a full page. *)
Lemma outbox_view_page OBJECT_SERVICE_get q req w records cursor :
  rendered_page (outbox_view OBJECT_SERVICE_get q req w) = Some (records, cursor) ->
  exists q', with_cursor q req = Returned q'
    /\ records = find_page (DB_outbox (w_db w)) (QOr [q'; q_announce_not_undone]) 50
    /\ cursor = next_cursor records 50.
Proof.
  unfold outbox_view, rendered_page. run_M.
  destruct (with_cursor q req) as [q'|]; simpl; [|done..].
  destruct (mapM _ _) as [items|] eqn:Hitems; simpl; [|done..].
  intros [= <- <-]. exists q'. split; [done|].
  by rewrite (mapM_attach_ref_docs _ _ _ Hitems).
Qed.

(** What the query of [index] and [with_replies] matches once the cursor
    is set: the cursor binds the notes, not the Announces. *)
Lemma cursor_binds_first_branch_only qs c d :
  matches (QOr [q_set (QAnd qs) (QLt P__id (BOid c)); q_announce_not_undone]) d
  = (matches (QAnd qs) d && N.ltb (_id d) c)
    || matches q_announce_not_undone d.
Proof.
  cbn [matches q_set existsb]. rewrite orb_false_r. f_equal.
  rewrite forallb_app. cbn [forallb matches get_path lt_holds].
  by rewrite andb_true_r.
Qed.

(** C3, at the failing input: the outbox holds a note with ObjectId 2 and
    an Announce with ObjectId 9, and the index is read with cursor 5.
    The page starts with the Announce, whose ordering key is above the
    cursor; the same holds for [with_replies]. *)
Theorem index_cursor_does_not_bound_announces :
  fst (index_html (browser_get [("cursor", str_ObjectId 5)])
         (world_of db_boosted))
  = Returned (RenderTemplate "index.html"
                (IndexCtx 0 0 0 [boosted (announce 9); plain (top_note 2)] None))
  /\ fst (with_replies_html (browser_get [("cursor", str_ObjectId 5)])
            (world_of db_boosted))
     = Returned (RenderTemplate "index.html"
                   (IndexCtx 0 0 0 [boosted (announce 9); plain (top_note 2)] None))
  /\ N.ltb (_id (announce 9)) 5 = false.
Proof. vm_compute. repeat split. Qed.

(** The stream is cut by [activity.published], the cursor is an
    ObjectId: here the older ObjectId was published later. *)
Example stream_orders_by_published :
  fst (stream (fun _ => "/login") (in_session (browser_get []))
         (world_of (db_of [remote_note 1 "2018-06-02"; remote_note 2 "2018-06-01"]
                          [] [])))
  = Returned (RenderTemplate "stream.html"
                (StreamCtx [plain (remote_note 1 "2018-06-02");
                            plain (remote_note 2 "2018-06-01")] None)).
Proof. vm_compute. reflexivity. Qed.

(** C4, at the failing input: fifty notes and one newer Announce. The
    first page is full and ends with note 2, so it has a cursor; the
    second page holds the Announce again, before note 1. *)
Theorem index_pages_repeat_announce :
  follow_cursors index_html browser_get db_51 4 None
  = [announce 51 :: rev (top_notes 2 49); [announce 51; top_note 1]]
  /\ follow_cursors with_replies_html browser_get db_51 4 None
     = [announce 51 :: rev (top_notes 2 49); [announce 51; top_note 1]].
Proof. vm_compute. split; reflexivity. Qed.

(** * Further properties of the handlers *)

(** ** Who gets past [api_required] *)

Section Guard.
Variable JWT_loads : string -> outcome json.

Lemma authorized_run req w :
  authorized JWT_loads req = true ->
  exists events,
    _api_required JWT_loads req w = (Returned tt, seen w events)
    /\ forallb is_auth_event events = true.
Proof.
  unfold authorized, _api_required, csrf_protect, call_JWT_loads, seen.
  fold (bearer_token req). destruct w as [db tr].
  destruct (r_logged_in req).
  - destruct (bool_decide _); simpl.
    + intros _. exists []. run_M. by rewrite app_nil_r.
    + intros ->. by exists [EvCSRFProtect].
  - destruct (String.eqb _ _); simpl.
    + intros _. exists []. run_M. by rewrite app_nil_r.
    + intros H. exists [EvJWTLoads (bearer_token req)]. unfold emit. run_M.
      by destruct (JWT_loads _).
Qed.

Lemma unauthorized_run req w :
  authorized JWT_loads req = false ->
  exists events,
    snd (_api_required JWT_loads req w) = seen w events
    /\ forallb is_auth_event events = true
    /\ forall u, fst (_api_required JWT_loads req w) <> Returned u.
Proof.
  unfold authorized, _api_required, csrf_protect, call_JWT_loads, seen.
  fold (bearer_token req). destruct w as [db tr].
  destruct (r_logged_in req).
  - destruct (bool_decide _); simpl; [done|].
    intros ->. by exists [EvCSRFProtect].
  - destruct (String.eqb _ _); simpl; [done|].
    intros H. exists [EvJWTLoads (bearer_token req)]. unfold emit. run_M.
    by destruct (JWT_loads _).
Qed.

(** The two ways of [try: _api_required() except BadSignature: abort]. *)
Lemma api_or_abort_cases code req w :
  (authorized JWT_loads req = true
   /\ exists events,
        api_or_abort JWT_loads code req w = (Returned tt, seen w events)
        /\ forallb is_auth_event events = true)
  \/ (authorized JWT_loads req = false
      /\ exists events,
           snd (api_or_abort JWT_loads code req w) = seen w events
           /\ forallb is_auth_event events = true
           /\ forall u, fst (api_or_abort JWT_loads code req w) <> Returned u).
Proof.
  destruct (authorized JWT_loads req) eqn:Hauth; [left|right]; (split; [done|]).
  - destruct (authorized_run req w Hauth) as (events & Hrun & Hposts).
    exists events. split; [|done].
    unfold api_or_abort, try_except. by rewrite Hrun.
  - destruct (unauthorized_run req w Hauth) as (events & Hw & Hposts & Hfail).
    exists events. unfold api_or_abort, try_except.
    destruct (_api_required JWT_loads req w) as [[[]|e] w1]; simpl in *.
    + by destruct (Hfail tt).
    + by destruct e.
Qed.

(** X1: an [api_required] endpoint runs its body exactly for the
    requests that [_api_required] lets through (a session whose method
    is GET or HEAD or whose CSRF token is valid; without session, the
    hard-coded token or a token that [JWT.loads] accepts). The body then
    starts in a world that gained nothing but the authorisation calls;
    for every other request the endpoint returns nothing, whatever its
    body, and the world gained nothing but those calls. *)
Theorem api_required_guards_the_body req w :
  if authorized JWT_loads req then
    exists events,
      forallb is_auth_event events = true
      /\ forall A (f : request -> M A),
           api_required JWT_loads f req w = f req (seen w events)
  else
    exists events,
      forallb is_auth_event events = true
      /\ forall A (f : request -> M A),
           snd (api_required JWT_loads f req w) = seen w events
           /\ forall a, fst (api_required JWT_loads f req w) <> Returned a.
Proof.
  destruct (authorized JWT_loads req) eqn:Hauth.
  - destruct (authorized_run req w Hauth) as (events & Hrun & Hposts).
    exists events. split; [done|]. intros A f.
    unfold api_required, api_or_abort, try_except.
    unfold mbind, M_bind, bind. by rewrite Hrun.
  - destruct (unauthorized_run req w Hauth) as (events & Hw & Hposts & Hfail).
    exists events. split; [done|]. intros A f.
    unfold api_required, api_or_abort, try_except.
    unfold mbind, M_bind, bind.
    destruct (_api_required JWT_loads req w) as [[[]|e] w1] eqn:Hrun;
      simpl in *.
    + by destruct (Hfail tt).
    + destruct e; simpl; done.
Qed.

(** X2: without session, a token other than the hard-coded one that
    [JWT.loads] refuses with [BadSignature] ends every [api_required]
    endpoint with [abort(401)] after the one call to [JWT.loads]; any
    other exception of [JWT.loads] leaves the endpoint as it is. The
    body is not run. *)
Theorem rejected_token_is_401 req w e :
  r_logged_in req = false ->
  bearer_token req <> "xyugavnomuravej" ->
  JWT_loads (bearer_token req) = Raised e ->
  forall A (f : request -> M A),
    api_required JWT_loads f req w
    = (Raised (match e with BadSignature => HTTPException 401 | _ => e end),
       seen w [EvJWTLoads (bearer_token req)]).
Proof.
  intros Hsession Htoken Hloads A f.
  unfold api_required, api_or_abort, try_except, _api_required, call_JWT_loads.
  rewrite Hsession. fold (bearer_token req).
  rewrite (proj2 (String.eqb_neq _ _) Htoken). unfold emit. run_M.
  rewrite Hloads. by destruct e.
Qed.

(** X3: with a login session, a request whose method is neither GET nor
    HEAD and whose CSRF token is not the session's ends every
    [api_required] endpoint with [CSRFError] (it is no [BadSignature],
    so no 401); the token of the request is not looked at and the body
    is not run. *)
Theorem session_write_needs_csrf_token req w :
  r_logged_in req = true ->
  r_method req ∉ ["GET"; "HEAD"] ->
  r_csrf_valid req = false ->
  forall A (f : request -> M A),
    api_required JWT_loads f req w = (Raised CSRFError, seen w [EvCSRFProtect]).
Proof.
  intros Hsession Hmethod Hcsrf A f.
  unfold api_required, api_or_abort, try_except, _api_required, csrf_protect.
  rewrite Hsession, bool_decide_false by done. unfold emit. run_M.
  by rewrite Hcsrf.
Qed.
End Guard.

Lemma rejected_token_is_401_witness :
  api_required JWT_reject (fun _ => mret tt) req_shadowed (world_of db_empty)
  = (Raised (HTTPException 401), seen (world_of db_empty) [EvJWTLoads "stale"]).
Proof.
  apply (rejected_token_is_401 JWT_reject req_shadowed (world_of db_empty)
           BadSignature).
  - reflexivity.
  - intros H. vm_compute in H. discriminate H.
  - reflexivity.
Defined.

Lemma session_write_needs_csrf_token_witness :
  api_required JWT_reject (fun _ => mret tt) (in_session req_bearer)
    (world_of db_empty)
  = (Raised CSRFError, seen (world_of db_empty) [EvCSRFProtect]).
Proof.
  apply (session_write_needs_csrf_token JWT_reject (in_session req_bearer)
           (world_of db_empty)).
  - reflexivity.
  - intros H. apply list_elem_of_In in H. simpl in H.
    destruct H as [H|[H|[]]]; discriminate H.
  - reflexivity.
Defined.

(** ** What reaches the ingestion engines *)

Lemma new_events_seen w events : new_events w (seen w events) = events.
Proof. unfold new_events, seen. simpl. by rewrite drop_app_length. Qed.

Lemma auth_events_no_post events :
  forallb is_auth_event events = true ->
  List.filter is_post_event events = [].
Proof.
  induction events as [|e events IH]; [done|]. simpl.
  intros [He Hes]%andb_prop. destruct e; try done; simpl; by apply IH.
Qed.

Lemma auth_events_elem_of events e :
  forallb is_auth_event events = true -> e ∈ events -> is_auth_event e = true.
Proof.
  intros Hall Hin. apply list_elem_of_In in Hin.
  by apply (proj1 (forallb_forall _ _) Hall).
Qed.

Ltac not_among Hin :=
  repeat (apply elem_of_cons in Hin as [Hin|Hin]; [discriminate|]);
  by apply elem_of_nil in Hin.

Section InboxMore.
Variable JWT_loads : string -> outcome json.
Variable verify_request : request -> outcome bool.
Variable fetch_iri : json -> outcome json.
Variable parse_activity : json -> outcome unit.
Variable INBOX_post : ap_activity -> DB -> outcome unit * DB.
Variable activity_dict : activity -> list (string * json).
Variable HEADERS : list string.
Variable CTX_AS : json.
Variable page_limit : nat.

Abbreviation inbox_of :=
  (inbox JWT_loads verify_request fetch_iri parse_activity INBOX_post
         activity_dict HEADERS CTX_AS page_limit).

Lemma process_seen_events data w events e :
  e ∈ new_events w (snd (process parse_activity INBOX_post data (seen w events))) ->
  e ∈ events
  \/ (e = EvInboxPost (ApParsed data) /\ parse_activity data = Returned tt).
Proof.
  unfold process, call_INBOX_post, on_db, emit, new_events, seen. run_M.
  destruct (parse_activity data) as [[]|]; simpl.
  - destruct (INBOX_post _ _) as [[|] db']; simpl;
      rewrite <- app_assoc, drop_app_length;
      (intros [?|Hs%list_elem_of_singleton]%elem_of_app; [by left|right]);
      by rewrite Hs.
  - rewrite drop_app_length. by left.
Qed.

(** X4: whatever [inbox] hands to [INBOX.post] is a body that
    [ap.parse_activity] accepted and that is trusted for one of two
    reasons: the HTTP signature of the delivery verified and it is the
    delivered body, or the verification failed and it is what
    [fetch_iri] returned for the [id] of the delivered body. A GET
    never posts. *)
Theorem inbox_posts_what_it_verified_or_fetched req w a :
  EvInboxPost a ∈ new_events w (snd (inbox_of req w)) ->
  exists body data,
    r_method req <> "GET"
    /\ r_data req = Some body
    /\ a = ApParsed data
    /\ parse_activity data = Returned tt
    /\ ((verify_request req = Returned true /\ data = body)
        \/ (verification_fails verify_request req
            /\ exists iri, subscript body "id" = Returned iri
                           /\ fetch_iri iri = Returned data)).
Proof.
  unfold inbox. destruct (String.eqb_spec (r_method req) "GET") as [Hget|Hget].
  { intros Hin. exfalso.
    destruct (negb _).
    - unfold abort, raise, new_events in Hin. simpl in Hin.
      rewrite drop_all in Hin. by apply elem_of_nil in Hin.
    - destruct (api_or_abort_cases JWT_loads 404 req w)
        as [(_ & events & Hrun & Hauth)|(_ & events & Hw & Hauth & Hfail)].
      + revert Hin. run_M. rewrite Hrun.
        destruct (build_ordered_collection _ _ _ _); simpl;
          rewrite new_events_seen; intros Hin;
          by apply (auth_events_elem_of _ _ Hauth) in Hin.
      + revert Hin. run_M.
        destruct (api_or_abort JWT_loads 404 req w) as [[[]|e] w1]; simpl in *.
        * by destruct (Hfail tt).
        * subst w1. rewrite new_events_seen. intros Hin.
          by apply (auth_events_elem_of _ _ Hauth) in Hin. }
  unfold get_json_force. destruct (r_data req) as [body|] eqn:Hbody.
  2:{ unfold abort, raise, new_events. run_M. rewrite drop_all.
      by intros ?%elem_of_nil. }
  intros Hin. exists body.
  unfold mbind at 1, M_bind at 1, bind at 1, mret at 1, M_ret at 1, ret at 1 in Hin.
  unfold mbind at 1, M_bind at 1, bind at 1 in Hin.
  destruct (verify_request req) as [[|]|e] eqn:Hverify.
  - rewrite (verified_payload_ok verify_request fetch_iri req body w Hverify) in Hin.
    apply process_seen_events in Hin as [Hin|[Ha Hparse]]; [not_among Hin|].
    injection Ha as ->. exists body. repeat split; try done. by left.
  - assert (verification_fails verify_request req) as Hfails by by left.
    destruct (subscript body "id") as [iri|e] eqn:Hid.
    + rewrite (verified_payload_refetch verify_request fetch_iri req body iri w
                 Hfails Hid) in Hin.
      destruct (fetch_iri iri) as [fetched|e] eqn:Hfetch.
      * apply process_seen_events in Hin as [Hin|[Ha Hparse]]; [not_among Hin|].
        injection Ha as ->. exists fetched. repeat split; try done.
        right. split; [done|]. by exists iri.
      * exfalso. simpl in Hin. rewrite new_events_seen in Hin. not_among Hin.
    + exfalso. revert Hin.
      unfold verified_payload, try_except, call_verify_request, emit, new_events.
      run_M. rewrite Hverify. simpl. rewrite Hid. simpl.
      rewrite drop_app_length. intros Hin. not_among Hin.
  - assert (verification_fails verify_request req) as Hfails
      by (right; by exists e).
    destruct (subscript body "id") as [iri|e'] eqn:Hid.
    + rewrite (verified_payload_refetch verify_request fetch_iri req body iri w
                 Hfails Hid) in Hin.
      destruct (fetch_iri iri) as [fetched|e'] eqn:Hfetch.
      * apply process_seen_events in Hin as [Hin|[Ha Hparse]]; [not_among Hin|].
        injection Ha as ->. exists fetched. repeat split; try done.
        right. split; [done|]. by exists iri.
      * exfalso. simpl in Hin. rewrite new_events_seen in Hin. not_among Hin.
    + exfalso. revert Hin.
      unfold verified_payload, try_except, call_verify_request, emit, new_events.
      run_M. rewrite Hverify. simpl. rewrite Hid. simpl.
      rewrite drop_app_length. intros Hin. not_among Hin.
Qed.

(** X5: GET /inbox answers only an API request that [_api_required]
    lets through; every other GET is refused (with 404: the route
    turns [BadSignature] into [abort(404)], not 401). *)
Theorem inbox_listing_needs_credentials req w resp :
  r_method req = "GET" ->
  fst (inbox_of req w) = Returned resp ->
  is_api_request HEADERS req = true /\ authorized JWT_loads req = true.
Proof.
  intros Hget. unfold inbox. rewrite Hget. simpl.
  destruct (is_api_request HEADERS req); simpl; [|done].
  run_M.
  destruct (api_or_abort_cases JWT_loads 404 req w)
    as [(Hauth & _)|(_ & events & _ & _ & Hfail)]; [done|].
  destruct (api_or_abort JWT_loads 404 req w) as [[[]|e] w1]; simpl in *;
    [|done..].
  by destruct (Hfail tt).
Qed.
End InboxMore.

(** The signature does not verify; the body is fetched from its [id],
    and what was fetched is what is posted. *)
Lemma inbox_posts_what_it_verified_or_fetched_witness :
  exists body data,
    r_method (delivery (JObj [("id", JStr "https://remote.example/a1")])) <> "GET"
    /\ r_data (delivery (JObj [("id", JStr "https://remote.example/a1")]))
       = Some body
    /\ ApParsed (JObj [("id", JStr "https://remote.example/a1");
                       ("fetched", JBool true)])
       = ApParsed data
    /\ parse_anything data = Returned tt
    /\ ((verify_never (delivery (JObj [("id", JStr "https://remote.example/a1")]))
         = Returned true /\ data = body)
        \/ (verification_fails verify_never
              (delivery (JObj [("id", JStr "https://remote.example/a1")]))
            /\ exists iri, subscript body "id" = Returned iri
                           /\ fetch_remote iri = Returned data)).
Proof.
  apply (inbox_posts_what_it_verified_or_fetched JWT_reject verify_never
           fetch_remote parse_anything INBOX_accept no_dict [] JNull 50
           (delivery (JObj [("id", JStr "https://remote.example/a1")]))
           (world_of db_empty)).
  vm_compute. do 3 constructor.
Defined.

Lemma inbox_listing_needs_credentials_witness :
  is_api_request [] client_with_token = true
  /\ authorized JWT_reject client_with_token = true.
Proof.
  apply (inbox_listing_needs_credentials JWT_reject verify_never fetch_nothing
           parse_anything INBOX_accept no_dict [] JNull 50 client_with_token
           (world_of db_empty)
           (jsonify JNull [("items", JArr [])])).
  - reflexivity.
  - reflexivity.
Defined.

Section OutboxMore.
Variable JWT_loads : string -> outcome json.
Variable parse_activity : json -> outcome unit.
Variable OUTBOX_post : ap_activity -> DB -> outcome string * DB.
Variable activity_from_doc : doc -> bool -> list (string * json).
Variable HEADERS : list string.
Variable CTX_AS : json.
Variable page_limit : nat.

Abbreviation outbox_of :=
  (outbox JWT_loads parse_activity OUTBOX_post activity_from_doc HEADERS CTX_AS
          page_limit).

(** X6: a request to /outbox other than GET is answered only after it
    passed [_api_required], its body parsed as an activity and
    [OUTBOX.post] returned: the answer is 201 with the posted
    activity's id as [Location], and the world gained the authorisation
    calls, the one post and then the cache purge. The purge hook never
    runs for a request that was not answered, and a request that is not
    authorised posts nothing and leaves the database as it was. *)
Theorem outbox_post_publishes_or_leaves_no_trace req w :
  r_method req <> "GET" ->
  (forall resp, fst (outbox_of req w) = Returned resp ->
     exists data activity_id events,
       authorized JWT_loads req = true
       /\ r_data req = Some data
       /\ parse_activity data = Returned tt
       /\ fst (OUTBOX_post (ApParsed data) (w_db w)) = Returned activity_id
       /\ resp = Plain 201 [("Location", activity_id)] ""
       /\ forallb is_auth_event events = true
       /\ snd (outbox_of req w)
          = {| w_db := snd (OUTBOX_post (ApParsed data) (w_db w));
               w_trace := w_trace w ++ events
                          ++ [EvOutboxPost (ApParsed data); EvCachePurge] |})
  /\ (EvCachePurge ∈ new_events w (snd (outbox_of req w)) ->
      exists resp, fst (outbox_of req w) = Returned resp)
  /\ (authorized JWT_loads req = false ->
      w_db (snd (outbox_of req w)) = w_db w
      /\ List.filter is_post_event (new_events w (snd (outbox_of req w))) = []).
Proof.
  intros Hm.
  assert (Hget : String.eqb (r_method req) "GET" = false)
    by by apply String.eqb_neq.
  unfold outbox. rewrite Hget.
  unfold call_OUTBOX_post, get_json_force, on_db, emit, abort, raise, lift.
  unfold mbind, M_bind, bind, mret, M_ret, ret.
  destruct (api_or_abort_cases JWT_loads 401 req w)
    as [(Hauth & events & -> & Hposts)|(Hauth & events & Hw & Hposts & Hfail)].
  - rewrite Hauth. unfold seen, new_events. cbn [w_db w_trace fst snd].
    assert (Hpurge : EvCachePurge ∉ events).
    { intros Hin. by apply (auth_events_elem_of _ _ Hposts) in Hin. }
    destruct (r_data req) as [data|] eqn:Hdata; cbn [fst snd w_trace].
    2:{ rewrite drop_app_length. repeat split; done. }
    destruct (parse_activity data) as [[]|e] eqn:Hparse; cbn [fst snd w_trace].
    2: (rewrite drop_app_length; repeat split; done).
    simpl (w_db _).
    destruct (OUTBOX_post (ApParsed data) (w_db w)) as [[activity_id|e] db']
      eqn:Hpost; rewrite ?Hpost; cbn [fst snd w_db w_trace].
    + split; [|split; [intros _; by eexists|done]].
      intros resp [= <-]. exists data, activity_id, events.
      rewrite Hpost. repeat split; try done. by rewrite <- !app_assoc.
    + repeat split; try done.
      rewrite <- app_assoc, drop_app_length.
      intros [Hin|Hin%list_elem_of_singleton]%elem_of_app; done.
  - destruct (api_or_abort JWT_loads 401 req w) as [[[]|e] w1] eqn:Hrun;
      cbn [fst snd] in *.
    + by destruct (Hfail tt).
    + subst w1. repeat split; try done.
      * rewrite new_events_seen. intros Hin.
        by apply (auth_events_elem_of _ _ Hposts) in Hin.
      * rewrite new_events_seen. by apply auth_events_no_post.
Qed.
End OutboxMore.

(** A note posted with the hard-coded token. *)
Lemma outbox_post_publishes_or_leaves_no_trace_witness :
  exists data activity_id events,
    authorized JWT_reject (post_activity (JObj [("type", JStr "Create")])) = true
    /\ r_data (post_activity (JObj [("type", JStr "Create")])) = Some data
    /\ parse_anything data = Returned tt
    /\ fst (OUTBOX_store (ApParsed data) db_empty) = Returned activity_id
    /\ Plain 201 [("Location", "https://me.example/outbox/new")] ""
       = Plain 201 [("Location", activity_id)] ""
    /\ forallb is_auth_event events = true
    /\ snd (outbox_storing (post_activity (JObj [("type", JStr "Create")]))
              (world_of db_empty))
       = {| w_db := snd (OUTBOX_store (ApParsed data) db_empty);
            w_trace := [] ++ events
                       ++ [EvOutboxPost (ApParsed data); EvCachePurge] |}.
Proof.
  apply (proj1 (outbox_post_publishes_or_leaves_no_trace JWT_reject
                  parse_anything OUTBOX_store dict_of [] JNull 50
                  (post_activity (JObj [("type", JStr "Create")]))
                  (world_of db_empty) ltac:(discriminate))).
  reflexivity.
Defined.

(** ** The arguments of the user API *)

Lemma json_truthy_opt_json (v : option string) :
  json_truthy (opt_json v) = truthy v.
Proof. by destruct v. Qed.

(** X7: what [_user_api_arg] does, case by case. It never returns an
    empty value: what it returns is truthy and comes from the JSON body
    when the request is JSON (the body is an object then and holds the
    value, of any JSON type, under the key; the query string and the
    form are not looked at), otherwise it is a string from the query
    string or, when that has no value or an empty one, from the form.
    It raises [ValueError("missing <key>")] exactly when the place it
    reads has no value or a falsy one. For a request that is JSON it
    cannot read a body that does not parse ([abort(400)]) or that is
    not an object ([AttributeError]). *)
Theorem user_api_arg_outcome req key :
  match _user_api_arg req key with
  | Returned oid =>
      json_truthy oid = true
      /\ (if r_is_json req
          then exists members,
                 r_data req = Some (JObj members)
                 /\ assoc key members = Some oid
          else exists s,
                 oid = JStr s
                 /\ (assoc key (r_args req) = Some s
                     \/ (truthy (assoc key (r_args req)) = false
                         /\ assoc key (r_form req) = Some s)))
  | Raised e =>
      if r_is_json req then
        match r_data req with
        | None => e = HTTPException 400
        | Some (JObj members) =>
            e = ValueError ("missing " +:+ key)
            /\ json_truthy (default JNull (assoc key members)) = false
        | Some _ => e = AttributeError
        end
      else
        e = ValueError ("missing " +:+ key)
        /\ truthy (assoc key (r_args req)) = false
        /\ truthy (assoc key (r_form req)) = false
  end.
Proof.
  unfold _user_api_arg, user_api_oid.
  destruct (r_is_json req).
  - destruct (r_data req) as [[| | | | |members]|]; try done.
    cbn [mbind outcome_bind obind].
    destruct (json_truthy (default JNull (assoc key members))) eqn:Hv;
      cbn [negb]; [|done].
    split; [done|]. exists members. split; [done|].
    by destruct (assoc key members).
  - cbn [mbind outcome_bind obind].
    destruct (assoc key (r_args req)) as [a|];
      cbn [opt_json json_truthy truthy];
      [destruct (String.eqb a "") eqn:Ha; cbn [negb]|];
      (destruct (assoc key (r_form req)) as [f|];
       cbn [opt_json json_truthy truthy];
       [destruct (String.eqb f "") eqn:Hf; cbn [negb]|]);
      try done; try rewrite Ha; try rewrite Hf; cbn [negb];
      (split; [cbn [json_truthy]; by rewrite ?Ha, ?Hf|]);
      eexists; (split; [done|]); (by left) || (by right).
Qed.

Lemma missing_arg req key :
  argument_missing req key ->
  _user_api_arg req key = Raised (ValueError ("missing " +:+ key)).
Proof.
  unfold argument_missing, _user_api_arg, user_api_oid.
  destruct (r_is_json req).
  - intros (members & -> & Hv). cbn [mbind outcome_bind obind]. by rewrite Hv.
  - intros [Hargs Hform]. cbn [mbind outcome_bind obind].
    rewrite !json_truthy_opt_json, Hargs, json_truthy_opt_json.
    by rewrite Hform.
Qed.

(** What the body raises, [_user_api_arg] raises; it is no
    [ValueError]. *)
Lemma unreadable_arg req key e :
  unreadable_body req e ->
  _user_api_arg req key = Raised e
  /\ (e = HTTPException 400 \/ e = AttributeError).
Proof.
  unfold unreadable_body, _user_api_arg, user_api_oid. intros [-> Hbody].
  destruct (r_data req) as [[| | | | |members]|]; try done; subst e;
    (split; [done|]); by (left + right).
Qed.

Lemma find_following_None col actor :
  find_following col actor = None <-> actor ∉ remote_actor <$> col.
Proof.
  unfold find_following. induction col as [|d col IH].
  - split; [intros _ ?%elem_of_nil|]; done.
  - rewrite fmap_cons, not_elem_of_cons. cbn [List.filter].
    destruct (String.eqb_spec (remote_actor d) actor) as [Heq|Hne]; simpl.
    + split; [done|]. intros [Hne _]. by destruct Hne.
    + rewrite IH. split; [|tauto]. intros H. split; [|done]. congruence.
Qed.

Lemma find_one_None col q :
  find_one col q = None <-> forall d, d ∈ col -> matches q d = false.
Proof.
  unfold find_one, find. induction col as [|x col IH]; simpl.
  - split; [intros _ d ?%elem_of_nil|]; done.
  - destruct (matches q x) eqn:Hx; simpl.
    + split; [done|]. intros H.
      specialize (H x (proj2 (elem_of_cons _ _ _) (or_introl eq_refl))).
      congruence.
    + rewrite IH. split.
      * intros H d [->|Hd]%elem_of_cons; [done|by apply H].
      * intros H d Hd. apply H. by right.
Qed.

Section ApiMore.
Variable JWT_loads : string -> outcome json.
Variable OUTBOX_post : ap_activity -> DB -> outcome string * DB.
Variable build_undo : activity -> outcome ap_activity.
Variable OBJECT_SERVICE_get : string -> outcome json.
Variable activity_url : string -> string.
Variable MY_PERSON_id : string.
Variable ID : string.
Variable parse_note_id : json -> outcome string.
Variable build_delete : json -> outcome ap_activity.
Variable build_announce : json -> outcome ap_activity.
Variable build_like : json -> outcome ap_activity.
Variable other_argument : string -> json -> request -> M response.
Variable redirect_other : json -> outcome response.
Variable OBJECT_SERVICE_get_other : json -> outcome json.

Abbreviation api_undo_of :=
  (api_undo JWT_loads OUTBOX_post build_undo activity_url other_argument
            redirect_other).
Abbreviation api_follow_of :=
  (api_follow JWT_loads OUTBOX_post MY_PERSON_id other_argument redirect_other).
Abbreviation api_block_of :=
  (api_block JWT_loads OUTBOX_post MY_PERSON_id other_argument redirect_other).
Abbreviation api_delete_of :=
  (api_delete JWT_loads OUTBOX_post OBJECT_SERVICE_get OBJECT_SERVICE_get_other
              redirect_other ID parse_note_id build_delete).
Abbreviation api_boost_of :=
  (api_boost JWT_loads OUTBOX_post OBJECT_SERVICE_get OBJECT_SERVICE_get_other
             redirect_other ID parse_note_id build_announce).
Abbreviation api_like_of :=
  (api_like JWT_loads OUTBOX_post OBJECT_SERVICE_get OBJECT_SERVICE_get_other
            redirect_other ID parse_note_id build_like).

Ltac run_api Hauth :=
  unfold handle_value_error, try_except;
  rewrite (api_required_authorized _ _ _ _ _ Hauth);
  unfold _user_api_get_note; run_M.

(** X8: an authorised call of undo, delete, boost or like that gives
    no [id], or of follow or block that gives no [actor], ends in
    [ValueError], which the error handler of the application answers
    with status 400 and the message "missing id" or "missing actor";
    nothing is looked up in the database and nothing is posted. When
    the request is JSON and its body cannot be read (it does not parse,
    or it is not an object) the six handlers end with what the body
    raises, [abort(400)] or [AttributeError], which is not for this
    error handler: the message is not sent. *)
Theorem missing_argument_is_answered_400 req w w1 :
  _api_required JWT_loads req w = (Returned tt, w1) ->
  (argument_missing req "id" ->
   let answer := (Returned (Json 400 (JObj [("message", JStr "missing id")])), w1) in
   handle_value_error (api_undo_of req) w = answer
   /\ handle_value_error (api_delete_of req) w = answer
   /\ handle_value_error (api_boost_of req) w = answer
   /\ handle_value_error (api_like_of req) w = answer)
  /\ (argument_missing req "actor" ->
      let answer :=
        (Returned (Json 400 (JObj [("message", JStr "missing actor")])), w1) in
      handle_value_error (api_follow_of req) w = answer
      /\ handle_value_error (api_block_of req) w = answer)
  /\ (forall e, unreadable_body req e ->
      handle_value_error (api_undo_of req) w = (Raised e, w1)
      /\ handle_value_error (api_delete_of req) w = (Raised e, w1)
      /\ handle_value_error (api_boost_of req) w = (Raised e, w1)
      /\ handle_value_error (api_like_of req) w = (Raised e, w1)
      /\ handle_value_error (api_follow_of req) w = (Raised e, w1)
      /\ handle_value_error (api_block_of req) w = (Raised e, w1)).
Proof.
  intros Hauth. split; [|split].
  - intros Hmissing%missing_arg answer; subst answer. repeat split.
    + unfold api_undo. run_api Hauth. by rewrite Hmissing.
    + unfold api_delete. run_api Hauth. by rewrite Hmissing.
    + unfold api_boost. run_api Hauth. by rewrite Hmissing.
    + unfold api_like. run_api Hauth. by rewrite Hmissing.
  - intros Hmissing%missing_arg answer; subst answer. split.
    + unfold api_follow. run_api Hauth. by rewrite Hmissing.
    + unfold api_block. run_api Hauth. by rewrite Hmissing.
  - intros e Hbody.
    destruct (unreadable_arg _ "id" _ Hbody) as [Hid He].
    destruct (unreadable_arg _ "actor" _ Hbody) as [Hactor _].
    repeat split.
    + unfold api_undo. run_api Hauth. rewrite Hid. by destruct He as [->| ->].
    + unfold api_delete. run_api Hauth. rewrite Hid. by destruct He as [->| ->].
    + unfold api_boost. run_api Hauth. rewrite Hid. by destruct He as [->| ->].
    + unfold api_like. run_api Hauth. rewrite Hid. by destruct He as [->| ->].
    + unfold api_follow. run_api Hauth. rewrite Hactor.
      by destruct He as [->| ->].
    + unfold api_block. run_api Hauth. rewrite Hactor.
      by destruct He as [->| ->].
Qed.

(** X9: an authorised request to follow an actor that [DB.following]
    does not hold, or to block an actor for whom the outbox holds no
    Block that is not undone, hands exactly one activity to
    [OUTBOX.post], the Follow or the Block of that actor by the local
    person, and answers with [_user_api_response] of the id the post
    yields; what the post raises is the outcome of the call. *)
Theorem first_follow_or_block_is_posted_once req actor w w1 :
  _api_required JWT_loads req w = (Returned tt, w1) ->
  _user_api_arg req "actor" = Returned (JStr actor) ->
  (actor ∉ remote_actor <$> DB_following (w_db w) ->
   api_follow_of req w
   = (follow_id ← fst (OUTBOX_post (ApFollow MY_PERSON_id actor) (w_db w));
      _user_api_response redirect_other req follow_id,
      {| w_db := snd (OUTBOX_post (ApFollow MY_PERSON_id actor) (w_db w));
         w_trace := w_trace w1 ++ [EvOutboxPost (ApFollow MY_PERSON_id actor)] |}))
  /\ (find_one (DB_outbox (w_db w)) (q_block actor) = None ->
      api_block_of req w
      = (block_id ← fst (OUTBOX_post (ApBlock MY_PERSON_id actor) (w_db w));
         _user_api_response redirect_other req block_id,
         {| w_db := snd (OUTBOX_post (ApBlock MY_PERSON_id actor) (w_db w));
            w_trace := w_trace w1 ++ [EvOutboxPost (ApBlock MY_PERSON_id actor)] |})).
Proof.
  intros Hauth Hactor.
  destruct (authorized_world JWT_loads req w w1 Hauth) as [Hdb _].
  split.
  - intros Hnew%find_following_None.
    unfold api_follow. rewrite (api_required_authorized _ _ _ _ _ Hauth).
    run_M. rewrite Hactor. simpl. rewrite Hdb, Hnew.
    unfold call_OUTBOX_post, on_db, emit. run_M. rewrite Hdb.
    by destruct (OUTBOX_post _ (w_db w)) as [[|] db'].
  - intros Hnew.
    unfold api_block. rewrite (api_required_authorized _ _ _ _ _ Hauth).
    run_M. rewrite Hactor. simpl. rewrite Hdb, Hnew.
    unfold call_OUTBOX_post, on_db, emit. run_M. rewrite Hdb.
    by destruct (OUTBOX_post _ (w_db w)) as [[|] db'].
Qed.

(** X10: an authorised undo of an [id] that is the [remote_id] of no
    outbox record, neither as given nor expanded by
    [back.activity_url], raises [ActivityNotFoundError("cannot found
    <id>")]; nothing is built and nothing is posted. *)
Theorem undo_of_unknown_activity_posts_nothing req oid w w1 :
  _api_required JWT_loads req w = (Returned tt, w1) ->
  _user_api_arg req "id" = Returned (JStr oid) ->
  (forall d, d ∈ DB_outbox (w_db w) ->
     remote_id d <> activity_url oid /\ remote_id d <> oid) ->
  api_undo_of req w
  = (Raised (ActivityNotFoundError ("cannot found " +:+ oid)), w1).
Proof.
  intros Hauth Hoid Hunknown.
  destruct (authorized_world JWT_loads req w w1 Hauth) as [Hdb _].
  unfold api_undo. rewrite (api_required_authorized _ _ _ _ _ Hauth).
  run_M. rewrite Hoid. simpl. rewrite Hdb.
  rewrite (proj2 (find_one_None _ _)); [done|].
  intros d [Hurl Hid]%Hunknown. simpl.
  rewrite (proj2 (String.eqb_neq _ _)), (proj2 (String.eqb_neq _ _)); done.
Qed.

(** X11: deleting checks who owns the note, liking and boosting do not.
    For a note whose id does not start with the server's [ID], an
    authorised delete raises [NotFromOutboxError] before anything is
    built or posted, while an authorised like or boost of the same note
    hands the Like or the Announce built from it to [OUTBOX.post]. *)
Theorem delete_checks_ownership_like_and_boost_do_not
    req oid obj note_id w w1 :
  _api_required JWT_loads req w = (Returned tt, w1) ->
  _user_api_arg req "id" = Returned (JStr oid) ->
  OBJECT_SERVICE_get oid = Returned obj ->
  parse_note_id obj = Returned note_id ->
  startswith note_id ID = false ->
  api_delete_of req w
  = (Raised (NotFromOutboxError
               ("cannot load " +:+ note_id +:+ ", id must be owned by the server")),
     w1)
  /\ (forall like, build_like obj = Returned like ->
        EvOutboxPost like ∈ new_events w (snd (api_like_of req w)))
  /\ (forall announce, build_announce obj = Returned announce ->
        EvOutboxPost announce ∈ new_events w (snd (api_boost_of req w))).
Proof.
  intros Hauth Hoid Hget Hparse Hremote.
  destruct (_api_required_world JWT_loads req w) as (events & Hw & _).
  rewrite Hauth in Hw. simpl in Hw. subst w1.
  repeat split.
  - unfold api_delete, _user_api_get_note.
    rewrite (api_required_authorized _ _ _ _ _ Hauth).
    run_M. rewrite Hoid. simpl. rewrite Hget. simpl. rewrite Hparse. simpl.
    by rewrite Hremote.
  - intros like Hlike. unfold api_like, _user_api_get_note.
    rewrite (api_required_authorized _ _ _ _ _ Hauth).
    unfold call_OUTBOX_post, on_db, emit, new_events, seen.
    run_M. rewrite Hoid. simpl. rewrite Hget. simpl. rewrite Hparse. simpl.
    rewrite Hlike. simpl.
    destruct (OUTBOX_post like (w_db w)) as [[|] db']; simpl;
      rewrite <- app_assoc, drop_app_length; apply elem_of_app; right; by left.
  - intros announce Hannounce. unfold api_boost, _user_api_get_note.
    rewrite (api_required_authorized _ _ _ _ _ Hauth).
    unfold call_OUTBOX_post, on_db, emit, new_events, seen.
    run_M. rewrite Hoid. simpl. rewrite Hget. simpl. rewrite Hparse. simpl.
    rewrite Hannounce. simpl.
    destruct (OUTBOX_post announce (w_db w)) as [[|] db']; simpl;
      rewrite <- app_assoc, drop_app_length; apply elem_of_app; right; by left.
Qed.
End ApiMore.

(** A call with the hard-coded token and an empty JSON object; and one
    whose body is a JSON list. *)
Lemma missing_argument_is_answered_400_witness :
  handle_value_error
    (api_undo JWT_reject OUTBOX_store undo_of activity_url_me
       no_other_argument no_other_redirect (api_call []))
    (world_of db_relations)
  = (Returned (Json 400 (JObj [("message", JStr "missing id")])),
     world_of db_relations)
  /\ handle_value_error
       (api_follow JWT_reject OUTBOX_store "https://me.example"
          no_other_argument no_other_redirect (api_call []))
       (world_of db_relations)
     = (Returned (Json 400 (JObj [("message", JStr "missing actor")])),
        world_of db_relations)
  /\ handle_value_error
       (api_undo JWT_reject OUTBOX_store undo_of activity_url_me
          no_other_argument no_other_redirect (api_body (JArr [JStr "f4"])))
       (world_of db_relations)
     = (Raised AttributeError, world_of db_relations).
Proof.
  split; [|split].
  - exact (proj1 (proj1 (missing_argument_is_answered_400 JWT_reject
                           OUTBOX_store undo_of OBJECT_SERVICE_echo
                           activity_url_me "https://me.example"
                           "https://me.example" note_id_of activity_of
                           activity_of activity_of no_other_argument
                           no_other_redirect no_other_key (api_call [])
                           (world_of db_relations) (world_of db_relations)
                           eq_refl)
                        (ex_intro _ [] (conj eq_refl eq_refl)))).
  - exact (proj1 (proj1 (proj2 (missing_argument_is_answered_400 JWT_reject
                           OUTBOX_store undo_of OBJECT_SERVICE_echo
                           activity_url_me "https://me.example"
                           "https://me.example" note_id_of activity_of
                           activity_of activity_of no_other_argument
                           no_other_redirect no_other_key (api_call [])
                           (world_of db_relations) (world_of db_relations)
                           eq_refl))
                        (ex_intro _ [] (conj eq_refl eq_refl)))).
  - exact (proj1 (proj2 (proj2
             (missing_argument_is_answered_400 JWT_reject
                OUTBOX_store undo_of OBJECT_SERVICE_echo
                activity_url_me "https://me.example"
                "https://me.example" note_id_of activity_of
                activity_of activity_of no_other_argument
                no_other_redirect no_other_key
                (api_body (JArr [JStr "f4"]))
                (world_of db_relations) (world_of db_relations)
                eq_refl))
             AttributeError (conj eq_refl eq_refl))).
Defined.

(** Carol is neither followed nor blocked yet. *)
Lemma first_follow_or_block_is_posted_once_witness :
  api_follow JWT_reject OUTBOX_store "https://me.example"
    no_other_argument no_other_redirect
    (api_call [("actor", "https://remote.example/carol")])
    (world_of db_friends)
  = (follow_id ← fst (OUTBOX_store
                        (ApFollow "https://me.example" "https://remote.example/carol")
                        db_friends);
     _user_api_response no_other_redirect
       (api_call [("actor", "https://remote.example/carol")]) follow_id,
     {| w_db := snd (OUTBOX_store
                       (ApFollow "https://me.example" "https://remote.example/carol")
                       db_friends);
        w_trace := [] ++ [EvOutboxPost
                            (ApFollow "https://me.example"
                                      "https://remote.example/carol")] |})
  /\ api_block JWT_reject OUTBOX_store "https://me.example"
       no_other_argument no_other_redirect
       (api_call [("actor", "https://remote.example/carol")])
       (world_of db_friends)
     = (block_id ← fst (OUTBOX_store
                          (ApBlock "https://me.example" "https://remote.example/carol")
                          db_friends);
        _user_api_response no_other_redirect
          (api_call [("actor", "https://remote.example/carol")]) block_id,
        {| w_db := snd (OUTBOX_store
                          (ApBlock "https://me.example" "https://remote.example/carol")
                          db_friends);
           w_trace := [] ++ [EvOutboxPost
                               (ApBlock "https://me.example"
                                        "https://remote.example/carol")] |}).
Proof.
  destruct (first_follow_or_block_is_posted_once JWT_reject OUTBOX_store
              "https://me.example" no_other_argument no_other_redirect
              (api_call [("actor", "https://remote.example/carol")])
              "https://remote.example/carol"
              (world_of db_friends) (world_of db_friends)
              eq_refl eq_refl) as [Hfollow Hblock].
  split.
  - apply Hfollow. intros H. apply list_elem_of_In in H. simpl in H.
    destruct H as [H|[H|[]]]; discriminate H.
  - apply Hblock. reflexivity.
Defined.

Lemma undo_of_unknown_activity_posts_nothing_witness :
  api_undo JWT_reject OUTBOX_store undo_of activity_url_me
    no_other_argument no_other_redirect
    (api_call [("id", "zz")]) (world_of db_relations)
  = (Raised (ActivityNotFoundError "cannot found zz"), world_of db_relations).
Proof.
  apply (undo_of_unknown_activity_posts_nothing JWT_reject OUTBOX_store undo_of
           activity_url_me no_other_argument no_other_redirect (api_call [("id", "zz")]) "zz"
           (world_of db_relations) (world_of db_relations) eq_refl eq_refl).
  intros d Hd. apply list_elem_of_In in Hd. simpl in Hd.
  destruct Hd as [<-|[<-|[]]]; split; intros H; vm_compute in H; discriminate H.
Defined.

(** A note of a remote actor. *)
Lemma delete_checks_ownership_like_and_boost_do_not_witness :
  api_delete JWT_reject OUTBOX_store OBJECT_SERVICE_echo no_other_key
    no_other_redirect "https://me.example" note_id_of activity_of
    (api_call [("id", "https://remote.example/note/7")]) (world_of db_relations)
  = (Raised (NotFromOutboxError
               "cannot load https://remote.example/note/7, id must be owned by the server"),
     world_of db_relations)
  /\ EvOutboxPost (ApParsed (JObj [("id", JStr "https://remote.example/note/7")]))
     ∈ new_events (world_of db_relations)
         (snd (api_like JWT_reject OUTBOX_store OBJECT_SERVICE_echo
                 no_other_key no_other_redirect
                 "https://me.example" note_id_of activity_of
                 (api_call [("id", "https://remote.example/note/7")])
                 (world_of db_relations)))
  /\ EvOutboxPost (ApParsed (JObj [("id", JStr "https://remote.example/note/7")]))
     ∈ new_events (world_of db_relations)
         (snd (api_boost JWT_reject OUTBOX_store OBJECT_SERVICE_echo
                 no_other_key no_other_redirect
                 "https://me.example" note_id_of activity_of
                 (api_call [("id", "https://remote.example/note/7")])
                 (world_of db_relations))).
Proof.
  destruct (delete_checks_ownership_like_and_boost_do_not JWT_reject
              OUTBOX_store OBJECT_SERVICE_echo "https://me.example" note_id_of
              activity_of activity_of activity_of no_other_redirect
              no_other_key
              (api_call [("id", "https://remote.example/note/7")])
              "https://remote.example/note/7"
              (JObj [("id", JStr "https://remote.example/note/7")])
              "https://remote.example/note/7"
              (world_of db_relations) (world_of db_relations)
              eq_refl eq_refl eq_refl eq_refl eq_refl)
    as (Hdelete & Hlike & Hboost).
  split; [exact Hdelete|]. split; [by apply Hlike|by apply Hboost].
Defined.

(** ** The debug endpoint *)

Section DebugMore.
Variable JWT_loads : string -> outcome json.
Variable DEBUG_MODE : bool.
Variable _drop_db : DB -> DB.
Variable doc_dict : doc -> list (string * json).

(** X12: [api_debug] drops the database exactly when [DEBUG_MODE] is
    on, the method is DELETE and the request passed [_api_required];
    in every other case the database is after the call what it was
    before. *)
Theorem database_is_dropped_only_in_debug_mode req w :
  w_db (snd (api_debug JWT_loads DEBUG_MODE _drop_db doc_dict req w))
  = if DEBUG_MODE && String.eqb (r_method req) "DELETE"
       && authorized JWT_loads req
    then _drop_db (w_db w) else w_db w.
Proof.
  unfold api_debug, api_required.
  unfold mbind at 1, M_bind at 1, bind at 1.
  destruct (api_or_abort_cases JWT_loads 401 req w)
    as [(-> & events & -> & _)|(-> & events & Hw & _ & Hfail)].
  - rewrite !andb_true_r.
    destruct DEBUG_MODE; simpl; [|done].
    by destruct (String.eqb (r_method req) "DELETE").
  - rewrite andb_false_r.
    destruct (api_or_abort JWT_loads 401 req w) as [[[]|e] w1]; simpl in *.
    + by destruct (Hfail tt).
    + by subst w1.
Qed.
End DebugMore.

(** ** Following from the remote-follow form *)

Section FollowMore.
Variable OUTBOX_post : ap_activity -> DB -> outcome string * DB.
Variable login_url : request -> string.
Variable MY_PERSON_id : string.
Variable get_actor_url : option string -> outcome (option string).
Variable render_template : string -> list (string * option string) -> string.

Abbreviation authorize_follow_of :=
  (authorize_follow OUTBOX_post login_url MY_PERSON_id get_actor_url
                    render_template).

Lemma count_following col actor :
  Nat.ltb 0 (length (List.filter (fun d => String.eqb (remote_actor d) actor) col))
  = bool_decide (actor ∈ remote_actor <$> col).
Proof.
  induction col as [|d col IH]; [done|]. rewrite fmap_cons. cbn [List.filter].
  destruct (String.eqb_spec (remote_actor d) actor) as [Heq|Hne].
  - rewrite bool_decide_true; [done|]. rewrite Heq. by left.
  - rewrite IH. apply bool_decide_ext. rewrite elem_of_cons.
    split; [by right|]. by intros [?|?].
Qed.

(** X13: a POST of the remote-follow form from a login session, for a
    profile that WebFinger resolves to an actor, posts one Follow of
    that actor when [DB.following] does not hold it and nothing when it
    does, and redirects to /following either way. The CSRF token of
    the request is not checked: the outcome does not depend on it and
    [csrf.protect] is not called. *)
Theorem remote_follow_form_posts_for_new_actors_only req actor w :
  r_logged_in req = true ->
  r_method req <> "GET" ->
  get_actor_url (assoc "profile" (r_form req)) = Returned (Some actor) ->
  actor <> "" ->
  authorize_follow_of req w
  = if bool_decide (actor ∈ remote_actor <$> DB_following (w_db w))
    then (Returned (Redirect "/following"), w)
    else (_ ← fst (OUTBOX_post (ApFollow MY_PERSON_id actor) (w_db w));
          mret (Redirect "/following"),
          {| w_db := snd (OUTBOX_post (ApFollow MY_PERSON_id actor) (w_db w));
             w_trace := w_trace w ++ [EvOutboxPost (ApFollow MY_PERSON_id actor)] |}).
Proof.
  intros Hsession Hmethod Hactor Hne.
  unfold authorize_follow, login_required. rewrite Hsession. simpl.
  rewrite (proj2 (String.eqb_neq _ _) Hmethod).
  unfold call_OUTBOX_post, on_db, emit. run_M. rewrite Hactor. simpl.
  rewrite (proj2 (String.eqb_neq _ _) Hne). simpl.
  rewrite count_following. case_bool_decide; [done|].
  by destruct (OUTBOX_post _ (w_db w)) as [[|] db'].
Qed.
End FollowMore.

(** Dave is followed already, Carol is not; the form comes without CSRF
    token. *)
Lemma remote_follow_form_posts_for_new_actors_only_witness :
  authorize_follow OUTBOX_store (fun _ => "/login") "https://me.example"
    actor_url_of render_nothing (follow_form "https://remote.example/dave")
    (world_of db_friends)
  = (Returned (Redirect "/following"), world_of db_friends)
  /\ w_trace (snd (authorize_follow OUTBOX_store (fun _ => "/login")
                     "https://me.example" actor_url_of render_nothing
                     (follow_form "https://remote.example/carol")
                     (world_of db_friends)))
     = [EvOutboxPost (ApFollow "https://me.example" "https://remote.example/carol")].
Proof.
  split.
  - rewrite (remote_follow_form_posts_for_new_actors_only OUTBOX_store
               (fun _ => "/login") "https://me.example" actor_url_of
               render_nothing (follow_form "https://remote.example/dave")
               "https://remote.example/dave" (world_of db_friends)
               eq_refl ltac:(discriminate) eq_refl ltac:(discriminate)).
    reflexivity.
  - rewrite (remote_follow_form_posts_for_new_actors_only OUTBOX_store
               (fun _ => "/login") "https://me.example" actor_url_of
               render_nothing (follow_form "https://remote.example/carol")
               "https://remote.example/carol" (world_of db_friends)
               eq_refl ltac:(discriminate) eq_refl ltac:(discriminate)).
    reflexivity.
Defined.

(** ** The sub-resources of an outbox item *)

Lemma matches_q_live iri d :
  matches (q_live iri) d
  = String.eqb iri (remote_id d)
    && bool_decide (deleted (meta d) = Some false).
Proof.
  cbn [matches q_live forallb get_path eq_holds bson_eqb]. rewrite andb_true_r.
  f_equal. destruct (deleted (meta d)) as [[|]|]; done.
Qed.

Section ItemMore.
Variable activity_url : string -> string.
Variable activity_from_doc : doc -> bool -> list (string * json).
Variable activity_dict : activity -> list (string * json).
Variable HEADERS : list string.
Variable CTX_AS : json.
Variable page_limit : nat.
Variable parse_stored : activity -> outcome unit.
Variable get_object_id : activity -> outcome string.
Variable object_of_doc : doc -> json.

(** X14: when no outbox record with the [remote_id] of the item has
    [meta.deleted] set to false (the item is unknown, is deleted, or
    its meta block has no [deleted] entry), the four sub-resources
    /activity, /replies, /likes and /shares of the item abort with 404:
    a deleted item, which /outbox/<id> answers with 410 and a
    tombstone, is not found here. *)
Theorem deleted_item_has_no_subresources item_id req w :
  (forall d, d ∈ DB_outbox (w_db w) ->
     remote_id d = activity_url item_id -> deleted (meta d) <> Some false) ->
  outbox_activity activity_url activity_from_doc CTX_AS item_id w
  = (Raised (HTTPException 404), w)
  /\ outbox_activity_replies activity_url HEADERS CTX_AS page_limit parse_stored
       get_object_id object_of_doc item_id req w
     = (Raised (HTTPException 404), w)
  /\ outbox_activity_likes activity_url activity_dict HEADERS CTX_AS page_limit
       parse_stored get_object_id item_id req w
     = (Raised (HTTPException 404), w)
  /\ outbox_activity_shares activity_url activity_dict HEADERS CTX_AS page_limit
       parse_stored get_object_id item_id req w
     = (Raised (HTTPException 404), w).
Proof.
  intros Hdeleted.
  assert (Hnone : find_one (DB_outbox (w_db w)) (q_live (activity_url item_id))
                  = None).
  { apply find_one_None. intros d Hd. rewrite matches_q_live.
    destruct (String.eqb_spec (activity_url item_id) (remote_id d)) as [Heq|];
      [|done].
    simpl. apply bool_decide_eq_false. by apply Hdeleted. }
  unfold outbox_activity, outbox_activity_replies, outbox_activity_likes,
    outbox_activity_shares.
  destruct (is_api_request HEADERS req); run_M; by rewrite Hnone.
Qed.

(** X15: the collections /replies, /likes and /shares exist for Create
    activities only: for a live outbox record of any other type (a
    Like, an Announce, a Follow) that little_boxes parses, the three
    routes abort with 404, for API requests as for any other. *)
Theorem only_create_items_have_collections item_id req w data :
  find_one (DB_outbox (w_db w)) (q_live (activity_url item_id)) = Some data ->
  parse_stored (doc_activity data) = Returned tt ->
  a_type (doc_activity data) <> "Create" ->
  outbox_activity_replies activity_url HEADERS CTX_AS page_limit parse_stored
    get_object_id object_of_doc item_id req w
  = (Raised (HTTPException 404), w)
  /\ outbox_activity_likes activity_url activity_dict HEADERS CTX_AS page_limit
       parse_stored get_object_id item_id req w
     = (Raised (HTTPException 404), w)
  /\ outbox_activity_shares activity_url activity_dict HEADERS CTX_AS page_limit
       parse_stored get_object_id item_id req w
     = (Raised (HTTPException 404), w).
Proof.
  intros Hfind Hparse Htype.
  unfold outbox_activity_replies, outbox_activity_likes, outbox_activity_shares.
  destruct (is_api_request HEADERS req); run_M; [|done].
  rewrite Hfind, Hparse. simpl.
  by rewrite (proj2 (String.eqb_neq _ _) Htype).
Qed.
End ItemMore.

(** The note [n3] is deleted. *)
Lemma deleted_item_has_no_subresources_witness :
  outbox_activity activity_url_me dict_of JNull "n3"
    (world_of (db_of [] [note_2; deleted_note_3] []))
  = (Raised (HTTPException 404), world_of (db_of [] [note_2; deleted_note_3] []))
  /\ outbox_activity_replies activity_url_me [] JNull 50 parse_stored_ok
       object_id_of object_json "n3" (client_get [])
       (world_of (db_of [] [note_2; deleted_note_3] []))
     = (Raised (HTTPException 404),
        world_of (db_of [] [note_2; deleted_note_3] []))
  /\ outbox_activity_likes activity_url_me no_dict [] JNull 50 parse_stored_ok
       object_id_of "n3" (client_get [])
       (world_of (db_of [] [note_2; deleted_note_3] []))
     = (Raised (HTTPException 404),
        world_of (db_of [] [note_2; deleted_note_3] []))
  /\ outbox_activity_shares activity_url_me no_dict [] JNull 50 parse_stored_ok
       object_id_of "n3" (client_get [])
       (world_of (db_of [] [note_2; deleted_note_3] []))
     = (Raised (HTTPException 404),
        world_of (db_of [] [note_2; deleted_note_3] [])).
Proof.
  apply (deleted_item_has_no_subresources activity_url_me dict_of no_dict []
           JNull 50 parse_stored_ok object_id_of object_json "n3"
           (client_get []) (world_of (db_of [] [note_2; deleted_note_3] []))).
  intros d Hd Hurl. apply list_elem_of_In in Hd. simpl in Hd.
  destruct Hd as [<-|[<-|[]]].
  - vm_compute in Hurl. discriminate Hurl.
  - discriminate.
Defined.

(** The Like [l1] is live. *)
Lemma only_create_items_have_collections_witness :
  outbox_activity_replies activity_url_me [] JNull 50 parse_stored_ok
    object_id_of object_json "l1" (client_get []) (world_of db_mixed)
  = (Raised (HTTPException 404), world_of db_mixed)
  /\ outbox_activity_likes activity_url_me no_dict [] JNull 50 parse_stored_ok
       object_id_of "l1" (client_get []) (world_of db_mixed)
     = (Raised (HTTPException 404), world_of db_mixed)
  /\ outbox_activity_shares activity_url_me no_dict [] JNull 50 parse_stored_ok
       object_id_of "l1" (client_get []) (world_of db_mixed)
     = (Raised (HTTPException 404), world_of db_mixed).
Proof.
  apply (only_create_items_have_collections activity_url_me no_dict []
           JNull 50 parse_stored_ok object_id_of object_json "l1"
           (client_get []) (world_of db_mixed) like_1).
  - reflexivity.
  - reflexivity.
  - discriminate.
Defined.

(** ** JSON responses *)

Lemma assoc_app {V} k (l1 l2 : list (string * V)) :
  assoc k (l1 ++ l2)
  = match assoc k l1 with Some v => Some v | None => assoc k l2 end.
Proof.
  induction l1 as [|[k' v] l1 IH]; simpl; [done|].
  by destruct (String.eqb k k').
Qed.

Lemma assoc_filter_ne {V} k key (l : list (string * V)) :
  k <> key ->
  assoc k (List.filter (fun kv => negb (String.eqb (fst kv) key)) l) = assoc k l.
Proof.
  intros Hne. induction l as [|[k' v] l IH]; simpl; [done|].
  destruct (String.eqb_spec k' key) as [->|Hk']; simpl.
  - by rewrite (proj2 (String.eqb_neq _ _) Hne).
  - by rewrite IH.
Qed.

Lemma assoc_filter_eq {V} key (l : list (string * V)) :
  assoc key (List.filter (fun kv => negb (String.eqb (fst kv) key)) l) = None.
Proof.
  induction l as [|[k' v] l IH]; simpl; [done|].
  destruct (String.eqb_spec k' key) as [->|Hk']; simpl; [done|].
  by rewrite (proj2 (String.eqb_neq _ _) (not_eq_sym Hk')).
Qed.

(** X16: every body [jsonify] sends has an ["@context"]: the one of the
    data when the data has one, [config.CTX_AS] otherwise, and no other
    entry is touched. [remove_context] removes that entry and nothing
    else, so the items of a collection page lose their own context and
    a body built from stripped data carries the server's. *)
Theorem json_responses_carry_a_context CTX_AS data :
  exists members,
    jsonify CTX_AS data = Json 200 (JObj members)
    /\ assoc "@context" members = Some (default CTX_AS (assoc "@context" data))
    /\ (forall k, k <> "@context" -> assoc k members = assoc k data)
    /\ assoc "@context" (remove_context data) = None
    /\ (forall k, k <> "@context" -> assoc k (remove_context data) = assoc k data)
    /\ exists stripped,
         jsonify CTX_AS (remove_context data) = Json 200 (JObj stripped)
         /\ assoc "@context" stripped = Some CTX_AS.
Proof.
  unfold jsonify, jsonify_status, remove_context.
  rewrite assoc_filter_eq.
  destruct (assoc "@context" data) as [c|] eqn:Hc.
  - exists data. repeat split; try done.
    + intros k Hk. by apply assoc_filter_ne.
    + eexists. split; [done|]. by rewrite assoc_app, assoc_filter_eq.
  - exists (data ++ [("@context", CTX_AS)]). repeat split.
    + by rewrite assoc_app, Hc.
    + intros k Hk. rewrite assoc_app. destruct (assoc k data); [done|].
      simpl. by rewrite (proj2 (String.eqb_neq _ _) Hk).
    + intros k Hk. by apply assoc_filter_ne.
    + eexists. split; [done|]. by rewrite assoc_app, assoc_filter_eq.
Qed.

(** ** The Accept header *)

Lemma before_comma_app first rest :
  ","%char ∉ list_ascii_of_string first ->
  before_comma (first +:+ String ","%char rest) = first.
Proof.
  induction first as [|c first IH]; simpl; [done|].
  intros [Hc Hfirst]%not_elem_of_cons.
  rewrite (proj2 (Ascii.eqb_neq _ _)) by done. by rewrite IH.
Qed.

(** X17: [is_api_request] reads the first media type of the Accept
    header only: whatever follows the first comma plays no part, so a
    request that lists an ActivityPub type second is not an API request
    and one that lists it first is, whatever comes after. *)
Theorem is_api_request_reads_the_first_media_type HEADERS req first rest :
  ","%char ∉ list_ascii_of_string first ->
  assoc "Accept" (r_headers req) = Some (first +:+ "," +:+ rest) ->
  is_api_request HEADERS req
  = bool_decide (first ∈ HEADERS) || String.eqb first "application/json".
Proof.
  intros Hfirst Haccept. unfold is_api_request. rewrite Haccept.
  change ("," +:+ rest) with (String ","%char rest).
  by rewrite before_comma_app.
Qed.

(** A browser that also accepts JSON is no API client. *)
Lemma is_api_request_reads_the_first_media_type_witness :
  is_api_request ["application/activity+json"]
    (anonymous "GET" [("Accept", "text/html,application/activity+json")] [] [])
  = false.
Proof.
  rewrite (is_api_request_reads_the_first_media_type
             ["application/activity+json"]
             (anonymous "GET" [("Accept", "text/html,application/activity+json")]
                        [] [])
             "text/html" "application/activity+json").
  - reflexivity.
  - intros H. apply list_elem_of_In in H. simpl in H.
    repeat (destruct H as [H|H]; [discriminate H|]). destruct H.
  - reflexivity.
Defined.

(** ** The debug dump and the counters *)

(** X18: [without_id] keeps the dicts, in their order, and takes
    nothing from them but the ["_id"] entry. *)
Theorem without_id_removes_the_id_only l :
  length (without_id l) = length l
  /\ forall i d, l !! i = Some d ->
       exists d', without_id l !! i = Some d'
                  /\ assoc "_id" d' = None
                  /\ forall k, k <> "_id" -> assoc k d' = assoc k d.
Proof.
  unfold without_id. split; [by rewrite length_fmap|].
  intros i d Hd. eexists. rewrite list_lookup_fmap, Hd. split; [done|].
  split; [apply assoc_filter_eq|]. intros k Hk. by apply assoc_filter_ne.
Qed.

Lemma filter_length_le {A} (f g : A -> bool) l :
  (forall x, f x = true -> g x = true) ->
  length (List.filter f l) <= length (List.filter g l).
Proof.
  intros Hfg. induction l as [|x l IH]; simpl; [done|].
  destruct (f x) eqn:Hf.
  - rewrite (Hfg x Hf). simpl. lia.
  - destruct (g x); simpl; lia.
Qed.

(** X19: the context processor reads the database and changes nothing;
    of its two counters, [notes_count] never exceeds
    [with_replies_count] (every record the first counts, the second
    counts too), and neither exceeds the size of the outbox. *)
Theorem notes_are_counted_among_with_replies req w :
  exists ctx,
    inject_config req w = (Returned ctx, w)
    /\ notes_count ctx <= with_replies_count ctx
    /\ with_replies_count ctx <= length (DB_outbox (w_db w)).
Proof.
  eexists. split; [reflexivity|]. cbn [notes_count with_replies_count]. split.
  - apply filter_length_le. intros d.
    cbn [matches existsb q_index q_with_replies forallb].
    rewrite !orb_false_r, !andb_true_r.
    intros [H|H]%orb_prop; [|by rewrite H, orb_true_r].
    apply andb_prop in H as [H1 H]. apply andb_prop in H as [H2 H].
    apply andb_prop in H as [H3 H4]. by rewrite H1, H2, H4.
  - unfold find. apply sublist_length, List_filter_sublist.
Qed.

(** * Pages and cursors *)

(** ** Cursors *)

Lemma hex_value_digit d : (d < 16)%N -> hex_value (hex_digit d) = Some d.
Proof.
  intros Hd. rewrite <- (N2Nat.id d).
  assert (N.to_nat d < 16)%nat as Hn by lia.
  revert Hn. generalize (N.to_nat d). clear Hd. intros n Hn.
  do 16 (destruct n as [|n]; [reflexivity|]). lia.
Qed.

Lemma length_append s1 s2 :
  String.length (s1 +:+ s2) = String.length s1 + String.length s2.
Proof. induction s1 as [|c s1 IH]; simpl; [done|]. by rewrite IH. Qed.

Lemma length_hex_of k n : String.length (hex_of k n) = k.
Proof.
  revert n. induction k as [|k IH]; intros n; simpl; [done|].
  rewrite length_append, IH. simpl. lia.
Qed.

Lemma hex_parse_app acc s1 s2 :
  hex_parse acc (s1 +:+ s2)
  = match hex_parse acc s1 with
    | Some v => hex_parse v s2
    | None => None
    end.
Proof.
  revert acc. induction s1 as [|c s1 IH]; intros acc; simpl; [done|].
  destruct (hex_value c); [apply IH|done].
Qed.

Lemma hex_parse_of k n :
  hex_parse 0 (hex_of k n) = Some (n mod 16 ^ N.of_nat k)%N.
Proof.
  revert n. induction k as [|k IH]; intros n.
  - simpl. by rewrite N.mod_1_r.
  - cbn [hex_of]. rewrite hex_parse_app, IH. cbn [hex_parse].
    rewrite hex_value_digit by (apply N.mod_lt; lia). f_equal.
    rewrite Nat2N.inj_succ, N.pow_succ_r'.
    rewrite (N.Div0.mod_mul_r n 16 (16 ^ N.of_nat k)). lia.
Qed.

(** [ObjectId(str(oid))] is [oid]. *)
Lemma ObjectId_str n : (n < 2 ^ 96)%N -> ObjectId (str_ObjectId n) = Returned n.
Proof.
  intros Hn. unfold ObjectId, str_ObjectId.
  rewrite length_hex_of, hex_parse_of. simpl Nat.eqb. cbv iota.
  rewrite N.mod_small; [done|]. exact Hn.
Qed.

Lemma str_ObjectId_truthy n : truthy (Some (str_ObjectId n)) = true.
Proof.
  unfold truthy. apply negb_true_iff, String.eqb_neq. intros Heq.
  pose proof (length_hex_of 24 n) as Hlen. unfold str_ObjectId in Heq.
  by rewrite Heq in Hlen.
Qed.

(** ** The pages of the outbox views *)

(** X20: a page that [index] or [with_replies] renders holds at most
    fifty records of the outbox, by descending ObjectId; it has a
    cursor exactly when it holds fifty, and the cursor is the ObjectId
    of its last record, printed; when the request came with a cursor,
    every record of the page that is not an Announce has an ObjectId
    below it. *)
Theorem page_of_the_outbox_views
    OBJECT_SERVICE_get HEADERS ME CTX_AS view req w records cursor :
  view = index OBJECT_SERVICE_get HEADERS ME CTX_AS
  \/ view = with_replies OBJECT_SERVICE_get ->
  rendered_page (view req w) = Some (records, cursor) ->
  length records <= 50
  /\ StronglySorted id_ge records
  /\ (forall d, d ∈ records -> d ∈ DB_outbox (w_db w))
  /\ (is_Some cursor <-> length records = 50)
  /\ (forall c, cursor = Some c ->
        exists d, last records = Some d /\ c = str_ObjectId (_id d))
  /\ (forall c d, truthy (assoc "cursor" (r_args req)) = true ->
        ObjectId (default "" (assoc "cursor" (r_args req))) = Returned c ->
        d ∈ records -> type_ d <> "Announce" -> (_id d < c)%N).
Proof.
  intros Hview Hpage.
  assert (exists qs,
            rendered_page (outbox_view OBJECT_SERVICE_get (QAnd qs) req w)
            = Some (records, cursor)) as (qs & Hpage').
  { destruct Hview as [-> | ->].
    - unfold index in Hpage. destruct (is_api_request HEADERS req); [done|].
      by eexists.
    - by eexists. }
  apply outbox_view_page in Hpage' as (q' & Hq & -> & ->).
  split; [apply find_page_length|]. split; [apply find_page_sorted|].
  split; [intros d Hd; by apply find_page_elem_of in Hd as [? _]|].
  split; [apply next_cursor_full; lia|]. split.
  - unfold next_cursor. intros c.
    destruct (last _) as [d|]; [|done].
    destruct (Nat.eqb _ _); [|done]. intros [= <-]. by exists d.
  - intros c d Htruthy Hc Hd Htype. unfold with_cursor in Hq.
    rewrite Htruthy, Hc in Hq. injection Hq as <-.
    apply find_page_elem_of in Hd as [_ Hd].
    change (QAnd (qs ++ [QLt P__id (BOid c)]))
      with (q_set (QAnd qs) (QLt P__id (BOid c))) in Hd.
    rewrite cursor_binds_first_branch_only in Hd.
    apply orb_prop in Hd as [[_ Hlt%N.ltb_lt]%andb_prop|Hann]; [done|].
    exfalso. apply Htype.
    cbn [matches q_announce_not_undone forallb get_path eq_holds bson_eqb] in Hann.
    apply andb_prop in Hann as [Heq _]. by apply String.eqb_eq in Heq.
Qed.

(** X21: the cursor of a page reads back: sent as the [cursor]
    argument of the next request, it is parsed into the ObjectId of the
    last record of the page, and the query gets the bound [_id] below
    that ObjectId. *)
Theorem cursor_of_a_page_reads_back q req records c :
  next_cursor records 50 = Some c ->
  (forall d, d ∈ records -> (_id d < 2 ^ 96)%N) ->
  assoc "cursor" (r_args req) = Some c ->
  exists d, last records = Some d
            /\ with_cursor q req = Returned (q_set q (QLt P__id (BOid (_id d)))).
Proof.
  unfold next_cursor. intros Hnext Hids Hreq.
  destruct (last records) as [d|] eqn:Hlast; [|done].
  destruct (Nat.eqb _ _); [|done]. injection Hnext as <-.
  exists d. split; [done|]. unfold with_cursor.
  rewrite Hreq, str_ObjectId_truthy. cbn [default from_option id].
  rewrite ObjectId_str; [done|]. apply Hids. by apply last_Some_elem_of.
Qed.


(** ** Reading the outbox to the end *)

(** Sorting and filtering commute. *)

Section SortFilter.
Context {A : Type} (le : A -> A -> bool) (R : relation A) `{!Transitive R}.
Hypothesis le_R : forall x y, le x y = true <-> R x y.
Hypothesis R_total : forall x y, R x y \/ R y x.

Lemma insert_sorted_first x l :
  Forall (R x) l -> insert_sorted le x l = x :: l.
Proof.
  destruct 1 as [|y l Hxy _]; simpl; [done|].
  apply le_R in Hxy. by rewrite Hxy.
Qed.

Lemma filter_insert_sorted_false (p : A -> bool) x l :
  p x = false ->
  List.filter p (insert_sorted le x l) = List.filter p l.
Proof.
  intros Hx. induction l as [|y l IH]; simpl; [by rewrite Hx|].
  destruct (le x y); simpl; [by rewrite Hx|]. by rewrite IH.
Qed.

Lemma filter_insert_sorted_true (p : A -> bool) x l :
  StronglySorted R l -> p x = true ->
  List.filter p (insert_sorted le x l) = insert_sorted le x (List.filter p l).
Proof.
  intros Hs Hx. induction Hs as [|y l Hl IH Hy]; simpl; [by rewrite Hx|].
  destruct (le x y) eqn:Hxy; simpl; rewrite ?Hx.
  - destruct (p y) eqn:Hpy; simpl; [by rewrite Hxy|].
    rewrite insert_sorted_first; [done|].
    apply Forall_forall. intros z [Hz _]%elem_of_List_filter.
    transitivity y; [by apply le_R|].
    by apply (proj1 (Forall_forall _ _) Hy).
  - destruct (p y) eqn:Hpy; simpl; [by rewrite Hxy, IH|done].
Qed.

Lemma sort_by_filter (p : A -> bool) l :
  sort_by le (List.filter p l) = List.filter p (sort_by le l).
Proof.
  induction l as [|x l IH]; simpl; [done|].
  destruct (p x) eqn:Hx; simpl.
  - rewrite IH, filter_insert_sorted_true; [done| |done].
    apply Sorted_StronglySorted; [done|]. by apply (sort_by_Sorted le R).
  - by rewrite filter_insert_sorted_false.
Qed.
End SortFilter.

Lemma sort_id_desc_filter p l :
  sort_id_desc (List.filter p l) = List.filter p (sort_id_desc l).
Proof.
  unfold sort_id_desc. apply (sort_by_filter _ id_ge); unfold id_ge.
  - intros a b. apply N.leb_le.
  - intros a b. lia.
Qed.

Lemma sort_id_desc_Permutation l : sort_id_desc l ≡ₚ l.
Proof. apply sort_by_Permutation. Qed.

Lemma sort_id_desc_sorted l : StronglySorted id_ge (sort_id_desc l).
Proof.
  apply Sorted_StronglySorted; [apply _|].
  apply (sort_by_Sorted _ id_ge); unfold id_ge.
  - intros a b. apply N.leb_le.
  - intros a b. lia.
Qed.

Lemma List_filter_ext_in {A} (f g : A -> bool) l :
  (forall x, x ∈ l -> f x = g x) -> List.filter f l = List.filter g l.
Proof.
  intros H. apply filter_ext_in. intros x Hx. apply H. by apply list_elem_of_In.
Qed.

Lemma List_filter_all {A} (f : A -> bool) l :
  (forall x, x ∈ l -> f x = true) -> List.filter f l = l.
Proof.
  induction l as [|x l IH]; intros H; simpl; [done|].
  rewrite H by by left. f_equal. apply IH. intros y Hy. apply H. by right.
Qed.

Lemma List_filter_filter {A} (f g : A -> bool) l :
  List.filter f (List.filter g l) = List.filter (fun x => g x && f x) l.
Proof.
  induction l as [|x l IH]; simpl; [done|].
  destruct (g x); simpl; [|done]. destruct (f x); by rewrite IH.
Qed.

(** In a list of distinct ids in descending order, the records below the
    id at position [k] are the records after position [k]. *)
Lemma below_is_after l k d :
  StronglySorted id_ge l -> NoDup (_id <$> l) -> l !! k = Some d ->
  List.filter (fun x => N.ltb (_id x) (_id d)) l = drop (S k) l.
Proof.
  intros Hs. revert k. induction Hs as [|x l Hl IH Hx]; intros k Hnd Hk.
  - by rewrite lookup_nil in Hk.
  - rewrite fmap_cons in Hnd. apply NoDup_cons in Hnd as [Hfresh Hnd].
    assert (Hbelow : forall y, y ∈ l -> (_id y < _id x)%N).
    { intros y Hy. pose proof (proj1 (Forall_forall _ _) Hx y Hy) as Hge.
      unfold id_ge in Hge.
      assert (_id y <> _id x); [|lia].
      intros Heq. apply Hfresh. rewrite <- Heq. by apply list_elem_of_fmap_2. }
    destruct k as [|k]; simpl in Hk.
    + injection Hk as ->. simpl. rewrite N.ltb_irrefl.
      rewrite drop_0. apply List_filter_all. intros y Hy.
      apply N.ltb_lt. by apply Hbelow.
    + simpl. pose proof (Hbelow d (list_elem_of_lookup_2 _ _ _ Hk)) as Hd.
      rewrite (proj2 (N.ltb_ge _ _)) by lia. by apply IH.
Qed.

Lemma concat_pages_of size n l :
  0 < size -> length l < size * n -> concat (pages_of size n l) = l.
Proof.
  intros Hsize. revert l. induction n as [|n IH]; intros l Hlen; [lia|].
  simpl. destruct (Nat.leb_spec size (length l)).
  - simpl. rewrite IH; [apply take_drop|]. rewrite length_drop. nia.
  - simpl. apply app_nil_r.
Qed.

Lemma mapM_attach_ref_plain OBJECT_SERVICE_get l :
  (forall d, d ∈ l -> String.eqb (type_ d) "Announce" = false) ->
  mapM (attach_ref OBJECT_SERVICE_get) l = Returned (plain <$> l).
Proof.
  induction l as [|d l IH]; intros H; [done|].
  assert (Hd : attach_ref OBJECT_SERVICE_get d = Returned (plain d)).
  { unfold attach_ref. by rewrite H by by left. }
  cbn [mapM]. rewrite Hd. cbn [mbind outcome_bind obind].
  rewrite IH; [done|]. intros x Hx. apply H. by right.
Qed.

Lemma next_cursor_take l :
  next_cursor (take 50 l) 50
  = if Nat.leb 50 (length l)
    then (fun d => str_ObjectId (_id d)) <$> l !! 49
    else None.
Proof.
  unfold next_cursor. rewrite last_lookup, length_take.
  destruct (Nat.leb_spec 50 (length l)) as [Hfull|Hshort].
  - rewrite Nat.min_l by done. simpl pred.
    rewrite lookup_take_lt by lia.
    destruct (l !! 49) as [d|] eqn:Hd; [done|].
    apply lookup_ge_None in Hd. lia.
  - rewrite Nat.min_r by lia.
    destruct (take 50 l !! pred (length l)); [|done].
    rewrite (proj2 (Nat.eqb_neq _ _)); [done|lia].
Qed.

Section Paging.
Variable OBJECT_SERVICE_get : string -> outcome json.
Variable qs : list query.
Variable db : DB.
Variable get : list (string * string) -> request.

Hypothesis get_args : forall args, r_args (get args) = args.
Hypothesis q_not_announce :
  forall d, matches (QAnd qs) d = true -> String.eqb (type_ d) "Announce" = false.
Hypothesis no_live_announce :
  forall d, d ∈ DB_outbox db -> matches q_announce_not_undone d = false.
Hypothesis ids_distinct : NoDup (_id <$> DB_outbox db).
Hypothesis ids_12_bytes : forall d, d ∈ DB_outbox db -> (_id d < 2 ^ 96)%N.

Abbreviation selected := (sort_id_desc (find (DB_outbox db) (QAnd qs))).

Lemma selected_elem_of d :
  d ∈ selected -> d ∈ DB_outbox db /\ matches (QAnd qs) d = true.
Proof.
  rewrite sort_id_desc_Permutation. unfold find. by rewrite elem_of_List_filter.
Qed.

Lemma selected_NoDup : NoDup (_id <$> selected).
Proof.
  rewrite sort_id_desc_Permutation. unfold find.
  apply (sublist_NoDup _ (_id <$> DB_outbox db));
    [exact ids_distinct|apply fmap_sublist, List_filter_sublist].
Qed.

Lemma matches_or_announce q d :
  d ∈ DB_outbox db ->
  matches (QOr [q; q_announce_not_undone]) d = matches q d.
Proof.
  intros Hd. cbn [matches existsb].
  fold (matches q_announce_not_undone d).
  by rewrite (no_live_announce d Hd), !orb_false_r.
Qed.

Lemma view_page req q' :
  with_cursor (QAnd qs) req = Returned q' ->
  (forall d, matches q' d = true -> matches (QAnd qs) d = true) ->
  rendered_page (outbox_view OBJECT_SERVICE_get (QAnd qs) req (world_of db))
  = Some (take 50 (sort_id_desc (find (DB_outbox db) q')),
          next_cursor (take 50 (sort_id_desc (find (DB_outbox db) q'))) 50).
Proof.
  intros Hq Hq'. unfold outbox_view, rendered_page. run_M.
  rewrite Hq. simpl. unfold find_page.
  assert (Hfind : find (DB_outbox db) (QOr [q'; q_announce_not_undone])
                  = find (DB_outbox db) q').
  { apply List_filter_ext_in. intros d Hd. by apply matches_or_announce. }
  rewrite Hfind.
  rewrite mapM_attach_ref_plain.
  - simpl. rewrite <- list_fmap_compose. f_equal. f_equal. apply list_fmap_id.
  - intros d Hd. apply q_not_announce, Hq'.
    assert (d ∈ sort_id_desc (find (DB_outbox db) q')) as Hin
      by (eapply elem_of_sublist; [exact Hd|apply sublist_take]).
    rewrite sort_id_desc_Permutation in Hin.
    by apply elem_of_List_filter in Hin as [_ ?].
Qed.

Lemma first_page :
  rendered_page (outbox_view OBJECT_SERVICE_get (QAnd qs) (get []) (world_of db))
  = Some (take 50 selected, next_cursor (take 50 selected) 50).
Proof.
  apply view_page; [|done]. unfold with_cursor. by rewrite get_args.
Qed.

Lemma page_below c :
  (c < 2 ^ 96)%N ->
  rendered_page
    (outbox_view OBJECT_SERVICE_get (QAnd qs)
       (get [("cursor", str_ObjectId c)]) (world_of db))
  = Some (take 50 (below c selected), next_cursor (take 50 (below c selected)) 50).
Proof.
  intros Hc.
  assert (Hq : with_cursor (QAnd qs) (get [("cursor", str_ObjectId c)])
               = Returned (q_set (QAnd qs) (QLt P__id (BOid c)))).
  { unfold with_cursor. rewrite get_args.
    change (assoc "cursor" [("cursor", str_ObjectId c)])
      with (Some (str_ObjectId c)).
    rewrite str_ObjectId_truthy. cbn [default from_option id].
    by rewrite ObjectId_str. }
  assert (Hm : forall d, matches (q_set (QAnd qs) (QLt P__id (BOid c))) d
                         = matches (QAnd qs) d && N.ltb (_id d) c).
  { intros d. cbn [q_set matches]. rewrite forallb_app.
    cbn [forallb matches get_path lt_holds]. by rewrite andb_true_r. }
  rewrite (view_page _ _ Hq).
  - unfold below. rewrite <- sort_id_desc_filter. unfold find.
    rewrite List_filter_filter.
    by rewrite (List_filter_ext_in _ _ _ (fun d _ => Hm d)).
  - intros d. rewrite Hm. by intros [? _]%andb_prop.
Qed.

Lemma below_sorted c : StronglySorted id_ge (below c selected).
Proof.
  eapply StronglySorted_sublist; [apply List_filter_sublist|].
  apply sort_id_desc_sorted.
Qed.

Lemma below_NoDup c : NoDup (_id <$> below c selected).
Proof.
  apply (sublist_NoDup _ (_id <$> selected));
    [exact selected_NoDup|apply fmap_sublist, List_filter_sublist].
Qed.

Lemma below_below c d :
  d ∈ below c selected ->
  below (_id d) selected = below (_id d) (below c selected).
Proof.
  intros [_ Hd%N.ltb_lt]%elem_of_List_filter. unfold below.
  rewrite List_filter_filter. apply List_filter_ext_in. intros x _.
  destruct (N.ltb_spec (_id x) (_id d)); [|by rewrite andb_false_r].
  rewrite andb_true_r. symmetry. apply N.ltb_lt. lia.
Qed.

(** The pages a reader sees are the pages of the selection. *)
Lemma follow_cursors_pages n :
  forall cursor rest,
    (cursor = None /\ rest = selected)
    \/ (exists c, cursor = Some (str_ObjectId c) /\ (c < 2 ^ 96)%N
                  /\ rest = below c selected) ->
    follow_cursors (outbox_view OBJECT_SERVICE_get (QAnd qs)) get db n cursor
    = pages_of 50 n rest.
Proof.
  induction n as [|n IH]; intros cursor rest Hrest; [done|].
  assert (Hpage :
    rendered_page
      (outbox_view OBJECT_SERVICE_get (QAnd qs)
         (get match cursor with Some c => [("cursor", c)] | None => [] end)
         (world_of db))
    = Some (take 50 rest, next_cursor (take 50 rest) 50)).
  { destruct Hrest as [[-> ->]|(c & -> & Hc & ->)];
      [apply first_page|by apply page_below]. }
  assert (Hsorted : StronglySorted id_ge rest).
  { destruct Hrest as [[_ ->]|(c & _ & _ & ->)];
      [apply sort_id_desc_sorted|apply below_sorted]. }
  assert (Hnd : NoDup (_id <$> rest)).
  { destruct Hrest as [[_ ->]|(c & _ & _ & ->)];
      [apply selected_NoDup|apply below_NoDup]. }
  assert (Hsub : forall d, d ∈ rest -> d ∈ selected).
  { destruct Hrest as [[_ ->]|(c & _ & _ & ->)]; [done|].
    intros d Hd. by apply elem_of_List_filter in Hd as [? _]. }
  assert (Hbelow : forall d, d ∈ rest ->
                     below (_id d) selected = below (_id d) rest).
  { destruct Hrest as [[_ ->]|(c & _ & _ & ->)]; [done|].
    intros d Hd. by apply below_below. }
  cbn [follow_cursors pages_of]. rewrite Hpage, next_cursor_take.
  destruct (Nat.leb_spec 50 (length rest)) as [Hfull|Hshort].
  - destruct (rest !! 49) as [d|] eqn:Hd.
    2:{ apply lookup_ge_None in Hd. lia. }
    cbn [fmap option_fmap option_map]. f_equal.
    apply IH. right. exists (_id d).
    pose proof (list_elem_of_lookup_2 _ _ _ Hd) as Hin.
    split; [done|]. split.
    { apply ids_12_bytes. by apply selected_elem_of, Hsub. }
    rewrite <- (below_is_after rest 49 d Hsorted Hnd Hd).
    symmetry. by apply Hbelow.
  - by rewrite take_ge by lia.
Qed.

(** Read to the end, the pages are the selection in descending order of
    ObjectId: every record once. *)
Lemma outbox_view_pages_partition n :
  length (DB_outbox db) < 50 * n ->
  concat (follow_cursors (outbox_view OBJECT_SERVICE_get (QAnd qs)) get db n None)
  = selected.
Proof.
  intros Hn. rewrite (follow_cursors_pages n None selected) by by left.
  apply concat_pages_of; [lia|].
  rewrite (Permutation_length (sort_id_desc_Permutation _)).
  unfold find. pose proof (sublist_length _ _ (List_filter_sublist (matches (QAnd qs)) (DB_outbox db))).
  lia.
Qed.
End Paging.

Lemma follow_cursors_ext view1 view2 get db n cursor :
  (forall args, view1 (get args) (world_of db) = view2 (get args) (world_of db)) ->
  follow_cursors view1 get db n cursor = follow_cursors view2 get db n cursor.
Proof.
  intros Hext. revert cursor. induction n as [|n IH]; intros cursor; [done|].
  cbn [follow_cursors]. rewrite Hext.
  destruct (rendered_page _) as [[records [c|]]|]; [|done..].
  by rewrite IH.
Qed.

(** X23: when the outbox holds no Announce that is not undone, its
    ObjectIds are distinct and fit their twelve bytes, a reader who
    starts at the index (or at [with_replies]) without cursor and
    follows the cursor of each page until a page has none has read,
    page after page, exactly the records the view selects, each once,
    in descending order of ObjectId. *)
Theorem pages_partition_the_notes_when_nothing_is_boosted
    OBJECT_SERVICE_get HEADERS ME CTX_AS db get n :
  (forall args, r_args (get args) = args) ->
  (forall args, is_api_request HEADERS (get args) = false) ->
  (forall d, d ∈ DB_outbox db -> matches q_announce_not_undone d = false) ->
  NoDup (_id <$> DB_outbox db) ->
  (forall d, d ∈ DB_outbox db -> (_id d < 2 ^ 96)%N) ->
  length (DB_outbox db) < 50 * n ->
  concat (follow_cursors (index OBJECT_SERVICE_get HEADERS ME CTX_AS) get db n None)
  = sort_id_desc (find (DB_outbox db) q_index)
  /\ concat (follow_cursors (with_replies OBJECT_SERVICE_get) get db n None)
     = sort_id_desc (find (DB_outbox db) q_with_replies).
Proof.
  intros Hargs Hhtml Hann Hnd Hids Hn.
  assert (Hcreate : forall qs d,
            matches (QAnd (QEq P_type (BStr "Create") :: qs)) d = true ->
            String.eqb (type_ d) "Announce" = false).
  { intros qs d. cbn [matches forallb get_path eq_holds bson_eqb].
    intros [H _]%andb_prop. apply String.eqb_eq in H. by rewrite <- H. }
  split.
  - rewrite (follow_cursors_ext _ (outbox_view OBJECT_SERVICE_get q_index)).
    + unfold q_index. apply outbox_view_pages_partition; try done.
      apply Hcreate.
    + intros args. unfold index. by rewrite Hhtml.
  - unfold with_replies, q_with_replies.
    apply outbox_view_pages_partition; try done. apply Hcreate.
Qed.

(** A hundred and twenty notes, read in three pages. *)
Lemma pages_partition_the_notes_when_nothing_is_boosted_witness :
  concat (follow_cursors index_html browser_get db_120 3 None)
  = sort_id_desc (find (DB_outbox db_120) q_index)
  /\ concat (follow_cursors with_replies_html browser_get db_120 3 None)
     = sort_id_desc (find (DB_outbox db_120) q_with_replies).
Proof.
  assert (Hnotes : forall d, d ∈ DB_outbox db_120 ->
            exists k, d = top_note (1 + N.of_nat k) /\ k < 120).
  { intros d Hd. apply list_elem_of_fmap in Hd as (k & -> & Hk).
    exists k. split; [done|]. apply elem_of_seq in Hk. lia. }
  apply (pages_partition_the_notes_when_nothing_is_boosted OBJECT_SERVICE_echo
           [] [] JNull db_120 browser_get 3).
  - reflexivity.
  - reflexivity.
  - intros d (k & -> & _)%Hnotes. reflexivity.
  - change (DB_outbox db_120) with (top_notes 1 120). unfold top_notes.
    rewrite <- list_fmap_compose. apply NoDup_fmap_2; [|apply NoDup_seq].
    intros k1 k2 Heq. unfold compose in Heq. cbn [_id top_note stored] in Heq.
    lia.
  - intros d (k & -> & Hk)%Hnotes. simpl.
    assert (2 ^ 96 = 79228162514264337593543950336)%N as -> by reflexivity.
    lia.
  - simpl. lia.
Defined.

(** The page after cursor 5 of the outbox with note 2 and Announce 9. *)
Lemma page_of_the_outbox_views_witness :
  length [announce 9; top_note 2] <= 50
  /\ StronglySorted id_ge [announce 9; top_note 2]
  /\ (forall d, d ∈ [announce 9; top_note 2] ->
        d ∈ DB_outbox (w_db (world_of db_boosted)))
  /\ (is_Some (@None string) <-> length [announce 9; top_note 2] = 50)
  /\ (forall c, @None string = Some c ->
        exists d, last [announce 9; top_note 2] = Some d
                  /\ c = str_ObjectId (_id d))
  /\ (forall c d,
        truthy (assoc "cursor"
                  (r_args (browser_get [("cursor", str_ObjectId 5)]))) = true ->
        ObjectId (default ""
                    (assoc "cursor"
                       (r_args (browser_get [("cursor", str_ObjectId 5)]))))
        = Returned c ->
        d ∈ [announce 9; top_note 2] -> type_ d <> "Announce" -> (_id d < c)%N).
Proof.
  apply (page_of_the_outbox_views OBJECT_SERVICE_echo [] [] JNull index_html
           (browser_get [("cursor", str_ObjectId 5)]) (world_of db_boosted)
           [announce 9; top_note 2] None).
  - left. reflexivity.
  - vm_compute. reflexivity.
Defined.

(** Fifty notes fill a page; its cursor is the ObjectId of the last. *)
Lemma cursor_of_a_page_reads_back_witness :
  exists d,
    last (rev (top_notes 1 50)) = Some d
    /\ with_cursor q_index (browser_get [("cursor", str_ObjectId 1)])
       = Returned (q_set q_index (QLt P__id (BOid (_id d)))).
Proof.
  apply (cursor_of_a_page_reads_back q_index
           (browser_get [("cursor", str_ObjectId 1)])
           (rev (top_notes 1 50)) (str_ObjectId 1)).
  - vm_compute. reflexivity.
  - intros d Hd. apply list_elem_of_In in Hd. apply <- in_rev in Hd.
    apply list_elem_of_In, list_elem_of_fmap in Hd as (k & -> & Hk).
    apply elem_of_seq in Hk. simpl.
    assert (2 ^ 96 = 79228162514264337593543950336)%N as -> by reflexivity.
    lia.
  - reflexivity.
Defined.


(** ** The stream *)

Lemma objcache_lookup (cached : list cache_doc) (m : gmap string json) k v :
  foldl (fun objcache c => <[object_id c := cached_object c]> objcache) m cached
    !! k = Some v ->
  m !! k = Some v
  \/ exists c, c ∈ cached /\ object_id c = k /\ cached_object c = v.
Proof.
  revert m. induction cached as [|c cached IH]; intros m; simpl; [by left|].
  intros [Hm|(c' & Hc' & Hk & Hv)]%IH.
  - destruct (decide (object_id c = k)) as [Heq|Hne].
    + rewrite Heq, lookup_insert_eq in Hm. injection Hm as <-.
      right. exists c. split; [by left|done].
    + rewrite lookup_insert_ne in Hm by done. by left.
  - right. exists c'. split; [by right|done].
Qed.

Lemma stream_objcache_lookup db limit iri obj :
  stream_objcache db limit !! iri = Some obj ->
  exists c, c ∈ DB_objects_cache db /\ part_of_stream c = Some true
            /\ object_id c = iri /\ cached_object c = obj.
Proof.
  unfold stream_objcache.
  intros [Hempty|(c & Hc & Hid & Hobj)]%objcache_lookup.
  { by rewrite lookup_empty in Hempty. }
  exists c. split; [|split; [|done]].
  - assert (c ∈ sort_by (fun a b => String.leb (announce_published b)
                                              (announce_published a))
                   (List.filter (fun c => bool_decide (part_of_stream c = Some true))
                      (DB_objects_cache db))) as Hin
      by (eapply elem_of_sublist; [exact Hc|apply sublist_take]).
    rewrite sort_by_Permutation in Hin.
    by apply elem_of_List_filter in Hin as [? _].
  - assert (c ∈ sort_by (fun a b => String.leb (announce_published b)
                                              (announce_published a))
                   (List.filter (fun c => bool_decide (part_of_stream c = Some true))
                      (DB_objects_cache db))) as Hin
      by (eapply elem_of_sublist; [exact Hc|apply sublist_take]).
    rewrite sort_by_Permutation in Hin.
    apply elem_of_List_filter in Hin as [_ Hp]. by apply bool_decide_eq_true in Hp.
Qed.

Lemma stream_entry_items db limit data out :
  stream_entry (stream_objcache db limit) data = Returned out ->
  length out <= 1
  /\ Forall (fun it => it_doc it = data /\ stream_item db it) out.
Proof.
  unfold stream_entry, stream_item.
  destruct (String.eqb (type_ data) "Announce") eqn:Htype.
  - destruct (a_object (doc_activity data)) as [iri|] eqn:Hobj; [|done].
    destruct (startswith iri "http") eqn:Hhttp.
    + destruct (stream_objcache db limit !! iri) as [obj|] eqn:Hcache.
      * intros [= <-]. split; [done|]. constructor; [|done]. split; [done|].
        cbn [it_doc it_ref]. rewrite Htype.
        apply stream_objcache_lookup in Hcache as (c & Hc & Hp & Hid & <-).
        by exists iri, c.
      * intros [= <-]. split; [simpl; lia|done].
    + intros [= <-]. split; [simpl; lia|done].
  - intros [= <-]. split; [done|]. constructor; [|done]. split; [done|].
    cbn [it_doc it_ref]. by rewrite Htype.
Qed.

Lemma mapM_stream_entry_items db limit l out :
  mapM (stream_entry (stream_objcache db limit)) l = Returned out ->
  length (concat out) <= length l
  /\ Forall (fun it => it_doc it ∈ l /\ stream_item db it) (concat out).
Proof.
  revert out. induction l as [|d l IH]; intros out.
  - intros [= <-]. by split.
  - intros (o & out' & Ho & Hout & ->)%mapM_Returned_cons.
    apply stream_entry_items in Ho as [Hlen Ho].
    destruct (IH out' Hout) as [Hlen' Hout'].
    cbn [concat]. rewrite length_app. split; [simpl; lia|].
    apply Forall_app. split.
    + eapply Forall_impl; [exact Ho|]. intros it [<- ?]. split; [by left|done].
    + eapply Forall_impl; [exact Hout'|]. intros it [? ?]. split; [by right|done].
Qed.

(** X24: the stream is rendered for a login session only; it shows at
    most a hundred records, all of the inbox; an Announce is shown only
    when its object is an http IRI that [DB.objects_cache] holds as
    part of the stream, and then with that cached object as its [ref];
    every other record is shown as it is, without [ref]. *)
Theorem stream_shows_an_announce_only_with_its_cached_object
    login_url req w name items cursor :
  fst (stream login_url req w)
  = Returned (RenderTemplate name (StreamCtx items cursor)) ->
  r_logged_in req = true
  /\ length items <= 100
  /\ Forall (fun it => it_doc it ∈ DB_inbox (w_db w) /\ stream_item (w_db w) it)
            items.
Proof.
  unfold stream, login_required.
  destruct (r_logged_in req); simpl; [|done].
  run_M. destruct (with_cursor q_index req) as [q|]; simpl; [|done..].
  destruct (mapM _ _) as [out|] eqn:Hout; simpl; [|done..].
  intros [= <- <- <-]. split; [done|].
  apply mapM_stream_entry_items in Hout as [Hlen Hitems].
  rewrite length_take in Hlen. split; [lia|].
  eapply Forall_impl; [exact Hitems|]. intros it [Hin ?]. split; [|done].
  assert (it_doc it ∈ sort_published_desc
                        (find (DB_inbox (w_db w)) (QOr [q; q_announce]))) as Hin'
    by (eapply elem_of_sublist; [exact Hin|apply sublist_take]).
  unfold sort_published_desc in Hin'. rewrite sort_by_Permutation in Hin'.
  by apply elem_of_List_filter in Hin' as [? _].
Qed.

(** A note, an Announce of a cached note, an Announce of a note that is
    not cached: the last one is not shown. *)
Lemma stream_shows_an_announce_only_with_its_cached_object_witness :
  r_logged_in (in_session (browser_get [])) = true
  /\ length [ {| it_doc := remote_announce 2 "https://remote.example/note/9"
                                          "2018-06-03";
                 it_ref := Some (ref_of (cached_object cached_note_9)) |};
              plain (remote_note 1 "2018-06-01") ] <= 100
  /\ Forall (fun it => it_doc it ∈ DB_inbox (w_db (world_of db_stream))
                       /\ stream_item (w_db (world_of db_stream)) it)
       [ {| it_doc := remote_announce 2 "https://remote.example/note/9"
                                      "2018-06-03";
            it_ref := Some (ref_of (cached_object cached_note_9)) |};
         plain (remote_note 1 "2018-06-01") ].
Proof.
  apply (stream_shows_an_announce_only_with_its_cached_object
           (fun _ => "/login") (in_session (browser_get [])) (world_of db_stream)
           "stream.html" _ None).
  vm_compute. reflexivity.
Defined.

(** ** Threads end *)

(** A loop that ended met no record whose parent is missing. *)
Lemma link_replies_Returned_inv root_id l idx idx' :
  link_replies root_id l idx = Returned idx' ->
  forall k, idx' !! k
            = (fun entry : note * list note =>
                 (entry.1, entry.2 ++ kids root_id l k)) <$> idx !! k.
Proof.
  intros Hrun.
  destruct (link_replies_Returned root_id l idx) as (idx'' & Hrun' & Hspec).
  - intros rep Hin Hne.
    destruct (o_inReplyTo (n_obj rep) ≫= (idx !!.)) as [entry|] eqn:Hparent.
    + destruct (o_inReplyTo (n_obj rep)) as [p|]; [|done].
      exists p. split; [done|]. by eexists.
    + rewrite (link_replies_KeyError root_id l idx rep Hin Hne Hparent) in Hrun.
      discriminate.
  - rewrite Hrun in Hrun'. by injection Hrun' as ->.
Qed.

Lemma for_each_Returned {A S} (body : A -> S -> outcome S) (P : S -> Prop) l s :
  P s ->
  (forall x s, x ∈ l -> P s -> exists s', body x s = Returned s' /\ P s') ->
  exists s', for_each l body s = Returned s' /\ P s'.
Proof.
  revert s. induction l as [|x l IH]; intros s Hs Hbody.
  - by exists s.
  - destruct (Hbody x s) as (s1 & Hx & Hs1); [by left|done|].
    cbn [for_each]. rewrite Hx. cbn [mbind outcome_bind obind].
    apply IH; [done|]. intros y s2 Hy. apply Hbody. by right.
Qed.

(** A loop whose body returns or raises [e]. *)
Lemma for_each_Returned_or {A S} (body : A -> S -> outcome S) (P : S -> Prop)
    (Q : Prop) e l s :
  P s ->
  (forall x s, x ∈ l -> P s ->
     (exists s', body x s = Returned s' /\ P s') \/ (body x s = Raised e /\ Q)) ->
  (exists s', for_each l body s = Returned s' /\ P s')
  \/ (for_each l body s = Raised e /\ Q).
Proof.
  revert s. induction l as [|x l IH]; intros s Hs Hbody.
  - left. by exists s.
  - cbn [for_each].
    destruct (Hbody x s) as [(s1 & Hx & Hs1)|[Hx HQ]]; [by left|done|..].
    + rewrite Hx. cbn [mbind outcome_bind obind].
      apply IH; [done|]. intros y s2 Hy. apply Hbody. by right.
    + right. by rewrite Hx.
Qed.

Section Ends.
Variable kept : list note.
Variable root_id : string.
Variable idx : gmap string (note * list note).

Hypothesis kept_NoDup : NoDup (rep_id <$> kept).
Hypothesis linked : idx_of kept (kids root_id kept) idx.

Abbreviation chain_to_root := (chain kept root_id).

Lemma chain_split l x r y :
  chain_to_root l -> x ∈ l -> x <> root_id ->
  r ∈ kept -> rep_id r = x -> o_inReplyTo (n_obj r) = Some y ->
  exists l1 l2, l = l1 ++ x :: y :: l2.
Proof.
  intros Hchain. revert x r y.
  induction Hchain as [|r0 y0 anc Hchain IH Hr0 Hy0 Hne0];
    intros x r y Hx Hne Hr Hid Hy.
  - apply list_elem_of_singleton in Hx. done.
  - destruct (decide (x = rep_id r0)) as [->|Hx0].
    + assert (r = r0) as -> by by eapply same_id_same_record.
      rewrite Hy0 in Hy. injection Hy as <-. by exists [], anc.
    + apply elem_of_cons in Hx as [?|Hx]; [done|].
      destruct (IH x r y Hx Hne Hr Hid Hy) as (l1 & l2 & Heq).
      exists (rep_id r0 :: l1), l2. by rewrite Heq.
Qed.

(** A child of the record at the head of a chain is not on the chain. *)
Lemma chain_no_return h anc c :
  chain_to_root (h :: anc) -> NoDup (h :: anc) ->
  c ∈ kept -> rep_id c <> root_id -> o_inReplyTo (n_obj c) = Some h ->
  rep_id c ∉ h :: anc.
Proof.
  intros Hchain Hnd Hc Hne Hreply Hin.
  destruct (chain_split _ _ c h Hchain Hin Hne Hc eq_refl Hreply)
    as (l1 & l2 & Heq).
  rewrite Heq in Hnd. destruct l1 as [|z l1]; simpl in *.
  - injection Heq as Hh _. apply NoDup_cons in Hnd as [Hfresh _].
    apply Hfresh. rewrite Hh. by left.
  - injection Heq as Hh _. subst z. apply NoDup_cons in Hnd as [Hfresh _].
    apply Hfresh. apply elem_of_app. right. right. by left.
Qed.

Lemma chain_length anc :
  NoDup anc -> (forall x, x ∈ anc -> x ∈ rep_id <$> kept) ->
  length anc <= length kept.
Proof.
  intros Hnd Hsub. rewrite <- (length_fmap rep_id kept).
  apply submseteq_length. by apply NoDup_submseteq.
Qed.

Lemma lookup_kept node :
  node ∈ kept ->
  idx !! rep_id node = Some (node, kids root_id kept (rep_id node)).
Proof.
  intros Hnode. by rewrite (linked (rep_id node)), (with_id_elem_of kept node).
Qed.

Lemma kids_elem_of k c :
  c ∈ kids root_id kept k ->
  c ∈ kept /\ rep_id c <> root_id /\ o_inReplyTo (n_obj c) = Some k.
Proof.
  unfold kids, replies_to. intros [Hc Hf]%elem_of_List_filter.
  apply andb_prop in Hf as [Hne Hreply]. split; [done|]. split.
  - by apply String.eqb_neq, negb_true_iff.
  - destruct (o_inReplyTo (n_obj c)) as [p|]; [|done].
    by apply String.eqb_eq in Hreply as ->.
Qed.

(** A call of [_flatten] on a kept record ends: it returns, or it runs
    out of room, which takes a chain of replies longer than the room. *)
Lemma flatten_ends room :
  forall node anc level acc,
    node ∈ kept ->
    chain_to_root (rep_id node :: anc) ->
    NoDup (rep_id node :: anc) ->
    (forall x, x ∈ rep_id node :: anc -> x ∈ rep_id <$> kept) ->
    (exists rest,
       _flatten room idx node level acc
       = Returned (acc ++ {| tn_note := node; tn_level := level |} :: rest)
       /\ Forall (below_level kept root_id level) rest)
    \/ (_flatten room idx node level acc = Raised RecursionError
        /\ room + length (rep_id node :: anc) < length kept).
Proof.
  unfold below_level.
  induction room as [|room IH]; intros node anc level acc Hnode Hchain Hnd Hsub;
    rewrite flatten_unfold, (lookup_kept node Hnode);
    pose proof (sorted_by_published_Permutation (kids root_id kept (rep_id node)))
      as Hperm.
  - destruct (for_each_Returned_or
                (fun (snode : note) (thread : list thread_node) =>
                   @Raised (list thread_node) RecursionError)
                (fun thread =>
                   thread = acc ++ [{| tn_note := node; tn_level := level |}])
                (0 + length (rep_id node :: anc) < length kept)
                RecursionError
                (sorted_by_published (kids root_id kept (rep_id node)))
                (acc ++ [{| tn_note := node; tn_level := level |}]))
      as [(out & Hrun & ->)|[Hrun Hdeep]].
    + done.
    + intros c thread Hc _. right. split; [done|].
      rewrite Hperm in Hc. apply kids_elem_of in Hc as (Hc & Hne & Hreply).
      assert (NoDup (rep_id c :: rep_id node :: anc)) as Hnd'.
      { apply NoDup_cons. split; [|done]. by apply chain_no_return. }
      pose proof (chain_length (rep_id c :: rep_id node :: anc) Hnd') as Hlen.
      cbn [length] in *. apply Hlen.
      intros x [->|Hx]%elem_of_cons; [by apply list_elem_of_fmap_2|by apply Hsub].
    + left. exists []. by split.
    + by right.
  - destruct (for_each_Returned_or
                (fun snode thread => _flatten room idx snode (level + 1) thread)
                (fun thread => exists rest,
                     thread = acc ++ {| tn_note := node; tn_level := level |} :: rest
                     /\ Forall (below_level kept root_id level) rest)
                (S room + length (rep_id node :: anc) < length kept)
                RecursionError
                (sorted_by_published (kids root_id kept (rep_id node)))
                (acc ++ [{| tn_note := node; tn_level := level |}]))
      as [(out & Hrun & rest & -> & Hrest)|[Hrun Hdeep]].
    + by exists [].
    + intros c thread Hc (rest & -> & Hrest).
      rewrite Hperm in Hc. apply kids_elem_of in Hc as (Hc & Hne & Hreply).
      destruct (IH c (rep_id node :: anc) (level + 1)
                  (acc ++ {| tn_note := node; tn_level := level |} :: rest))
        as [(rest' & Hrun & Hrest')|[Hrun Hdeep]].
      * done.
      * by apply chain_step.
      * apply NoDup_cons. split; [|done]. by apply chain_no_return.
      * intros x [->|Hx]%elem_of_cons; [by apply list_elem_of_fmap_2|by apply Hsub].
      * left. eexists. split; [exact Hrun|].
        exists (rest ++ {| tn_note := c; tn_level := level + 1 |} :: rest').
        split; [by rewrite <- app_assoc|].
        apply Forall_app. split; [done|]. constructor.
        -- repeat split; [done..|simpl; lia].
        -- eapply Forall_impl; [exact Hrest'|].
           intros tn (? & ? & ?). repeat split; [done..|lia].
      * right. split; [done|]. cbn [length] in *. lia.
    + left. by exists rest.
    + by right.
Qed.
End Ends.

Lemma idx_of_linked kept root_id idx0 idx' :
  idx_of kept (fun _ => []) idx0 ->
  link_replies root_id kept idx0 = Returned idx' ->
  idx_of kept (kids root_id kept) idx'.
Proof.
  intros Hidx Hrun k.
  rewrite (link_replies_Returned_inv _ _ _ _ Hrun k), (Hidx k).
  by destruct (with_id k kept).
Qed.

(** A loop that ended found the parent of every record but the root. *)
Lemma link_replies_Returned_parents root_id kept idx0 idx' rep :
  idx_of kept (fun _ => []) idx0 ->
  link_replies root_id kept idx0 = Returned idx' ->
  rep ∈ kept -> rep_id rep <> root_id ->
  exists p, o_inReplyTo (n_obj rep) = Some p /\ p ∈ rep_id <$> kept.
Proof.
  intros Hidx Hrun Hrep Hne.
  destruct (o_inReplyTo (n_obj rep) ≫= (idx0 !!.)) as [entry|] eqn:Hparent.
  - destruct (o_inReplyTo (n_obj rep)) as [p|]; [|done].
    exists p. split; [done|]. simpl in Hparent. rewrite (Hidx p) in Hparent.
    destruct (with_id p kept) as [r|] eqn:Hp; [|done].
    apply with_id_Some in Hp as [Hr <-]. by apply list_elem_of_fmap_2.
  - by rewrite (link_replies_KeyError root_id kept idx0 rep Hrep Hne Hparent)
      in Hrun.
Qed.

Section Outcome.
Variable data : doc.
Variable db : DB.
Variable o : as_object.
Variable replies : list note.

Abbreviation root_of := (thread_root_id data o).
Abbreviation kept := (kept_replies replies).

Hypothesis data_object : the_object data = Returned o.
Hypothesis collected :
  collect_replies data (thread_query root_of o) db = Returned replies.

(** The four ways a run goes. *)
Lemma build_thread_cases room :
  exists idx0,
    idx_of kept (fun _ => []) idx0
    /\ ((link_replies root_of kept idx0 = Raised KeyError
         /\ _build_thread room data true db = Raised KeyError)
        \/ (exists idx', link_replies root_of kept idx0 = Returned idx'
                         /\ with_id root_of kept = None
                         /\ _build_thread room data true db = Raised KeyError)
        \/ (exists idx' root rest,
              link_replies root_of kept idx0 = Returned idx'
              /\ with_id root_of kept = Some root
              /\ _build_thread room data true db
                 = Returned ({| tn_note := root; tn_level := 0 |} :: rest)
              /\ Forall (below_level kept root_of 0) rest)
        \/ (exists idx' root,
              link_replies root_of kept idx0 = Returned idx'
              /\ with_id root_of kept = Some root
              /\ _build_thread room data true db = Raised RecursionError
              /\ S room < length kept)).
Proof.
  destruct (build_thread_unfold room data db o replies data_object collected)
    as (idx0 & Hidx & ->).
  exists idx0. split; [done|].
  destruct (link_replies_keys root_of kept idx0) as [Hrun|(idx' & Hrun & _)].
  { left. by rewrite Hrun. }
  right. rewrite Hrun. cbn [mbind outcome_bind obind].
  pose proof (idx_of_linked _ _ _ _ Hidx Hrun) as Hlinked.
  rewrite (Hlinked root_of).
  destruct (with_id root_of kept) as [root|] eqn:Hroot;
    cbn [fmap option_fmap option_map].
  2:{ left. by exists idx'. }
  right. apply with_id_Some in Hroot as Hroot'. destruct Hroot' as [Hin Hid].
  destruct (flatten_ends kept root_of idx' (kept_replies_NoDup replies) Hlinked
              room root [] 0 [] Hin) as [(rest & Hflat & Hrest)|[Hflat Hdeep]].
  - rewrite Hid. constructor.
  - apply NoDup_singleton.
  - intros x ->%list_elem_of_singleton. by apply list_elem_of_fmap_2.
  - left. exists idx', root, rest. by rewrite Hflat.
  - right. exists idx', root. rewrite Hflat. repeat split; try done.
    cbn [length] in Hdeep. lia.
Qed.

(** X25: [_build_thread] always ends, and in one of three ways. Once
    the records are collected, a run returns a thread, raises
    [KeyError], or raises [RecursionError]; the last takes a chain of
    replies that is longer than the room on the stack, so more kept
    records than the room plus one. It raises nothing else and does
    not run on, also when replies answer each other in a circle (such
    records hang off no record the root reaches). A returned thread
    starts with the record that carries the root id, at level 0; every
    other entry is a kept record that is not the root, at a level of 1
    or more. *)
Theorem build_thread_always_ends room :
  _build_thread room data true db = Raised KeyError
  \/ (_build_thread room data true db = Raised RecursionError
      /\ S room < length kept)
  \/ exists root rest,
       _build_thread room data true db
       = Returned ({| tn_note := root; tn_level := 0 |} :: rest)
       /\ root ∈ kept /\ rep_id root = root_of
       /\ Forall (below_level kept root_of 0) rest.
Proof.
  destruct (build_thread_cases room)
    as (idx0 & _ & [[_ Hrun]|[(idx' & _ & _ & Hrun)
                             |[(idx' & root & rest & _ & Hroot & Hrun & Hrest)
                              |(idx' & root & _ & _ & Hrun & Hdeep)]]]);
    [by left..| |by right; left].
  right. right. exists root, rest. apply with_id_Some in Hroot as [? ?]. done.
Qed.

(** X26: what dangling decides. [_build_thread] raises [KeyError]
    exactly when something dangles; when nothing dangles it returns a
    thread or, the stack having no room for it, raises
    [RecursionError]. So with room for the kept records it returns a
    thread exactly when nothing dangles. *)
Theorem build_thread_returns_iff_no_reply_dangles room :
  (((exists thread, _build_thread room data true db = Returned thread)
    \/ _build_thread room data true db = Raised RecursionError)
   <-> nothing_dangles root_of replies)
  /\ (length kept <= S room ->
      (exists thread, _build_thread room data true db = Returned thread)
      <-> nothing_dangles root_of replies).
Proof.
  assert (Hfound : forall idx0 idx' root,
            idx_of kept (fun _ => []) idx0 ->
            link_replies root_of kept idx0 = Returned idx' ->
            with_id root_of kept = Some root -> nothing_dangles root_of replies).
  { intros idx0 idx' root Hidx Hlink Hroot. split.
    - intros rep Hrep Hne.
      destruct (link_replies_Returned_parents _ _ _ _ rep Hidx Hlink Hrep Hne)
        as (p & Hp & Hin).
      apply list_elem_of_fmap in Hin as (r & -> & Hr).
      exists r. split; [by apply kept_replies_elem_of|done].
    - apply with_id_Some in Hroot as [Hin Hid].
      exists root. split; [by apply kept_replies_elem_of|done]. }
  destruct (build_thread_cases room)
    as (idx0 & Hidx & [[Hlink Hrun]|[(idx' & Hlink & Hroot & Hrun)
                                    |[(idx' & root & rest & Hlink & Hroot & Hrun & _)
                                     |(idx' & root & Hlink & Hroot & Hrun & Hdeep)]]]).
  - assert (~ nothing_dangles root_of replies) as Hno.
    { intros [Hparents _].
      destruct (link_replies_spec root_of kept idx0 Hidx) as (idx' & Hok & _);
        [|congruence].
      intros rep Hrep Hne. destruct (Hparents rep Hrep Hne) as (r & Hr & Hreply).
      exists (rep_id r). split; [done|].
      apply kept_replies_ids. by apply list_elem_of_fmap_2. }
    rewrite Hrun. split; [|intros _]; (split; [|done]).
    + by intros [[thread ?]|?].
    + by intros [thread ?].
  - assert (~ nothing_dangles root_of replies) as Hno.
    { intros [_ (r & Hr & Hid)].
      apply with_id_None in Hroot. apply Hroot.
      apply kept_replies_ids. rewrite <- Hid. by apply list_elem_of_fmap_2. }
    rewrite Hrun. split; [|intros _]; (split; [|done]).
    + by intros [[thread ?]|?].
    + by intros [thread ?].
  - pose proof (Hfound _ _ _ Hidx Hlink Hroot) as Hok.
    rewrite Hrun. split; [|intros _]; (split; [done|intros _]).
    + left. by eexists.
    + by eexists.
  - pose proof (Hfound _ _ _ Hidx Hlink Hroot) as Hok.
    rewrite Hrun. split; [|lia]. split; [done|]. intros _. by right.
Qed.
End Outcome.

(** The note X answers itself: a circle that the root A does not reach.
    The run ends. *)
Lemma build_thread_always_ends_witness :
  _build_thread 0 doc_A true db_AX = Raised KeyError
  \/ (_build_thread 0 doc_A true db_AX = Raised RecursionError
      /\ 1 < length (kept_replies
                       [note_A;
                        read_as false doc_X "X" (Some "X") "2018-06-01T13:00:00Z"]))
  \/ exists root rest,
       _build_thread 0 doc_A true db_AX
       = Returned ({| tn_note := root; tn_level := 0 |} :: rest)
       /\ root ∈ kept_replies
                   [note_A; read_as false doc_X "X" (Some "X") "2018-06-01T13:00:00Z"]
       /\ rep_id root
          = thread_root_id doc_A (note_object "A" None "2018-06-01T10:00:00Z")
       /\ Forall (below_level
                    (kept_replies
                       [note_A;
                        read_as false doc_X "X" (Some "X") "2018-06-01T13:00:00Z"])
                    (thread_root_id doc_A
                       (note_object "A" None "2018-06-01T10:00:00Z"))
                    0)
                 rest.
Proof.
  exact (build_thread_always_ends doc_A db_AX
           (note_object "A" None "2018-06-01T10:00:00Z")
           [note_A; read_as false doc_X "X" (Some "X") "2018-06-01T13:00:00Z"]
           eq_refl eq_refl 0).
Defined.

(** The thread A, B, C read at A, with room for it: nothing dangles. *)
Lemma build_thread_returns_iff_no_reply_dangles_witness :
  (exists thread, _build_thread 2 doc_A true db_ABC = Returned thread)
  <-> nothing_dangles
        (thread_root_id doc_A (note_object "A" None "2018-06-01T10:00:00Z"))
        [note_A; note_B; note_C].
Proof.
  apply (proj2 (build_thread_returns_iff_no_reply_dangles doc_A db_ABC
                  (note_object "A" None "2018-06-01T10:00:00Z")
                  [note_A; note_B; note_C] eq_refl eq_refl 2)).
  vm_compute. lia.
Defined.

(** ** IndieAuth tokens *)

Section TokenFacts.
Variable JWT_loads : string -> outcome json.
Variable JWT_dumps : list (string * json) -> string.
Variable now : json.
Variable urlencode : list (string * json) -> string.
Variable login_url : request -> string.

Abbreviation indieauth_flow_of := (indieauth_flow login_url).
Abbreviation token_endpoint_of :=
  (token_endpoint JWT_loads JWT_dumps now urlencode).
Abbreviation build_auth_resp_of := (build_auth_resp urlencode).

Lemma length_join_chars s :
  String.length (join_chars s) = 2 * String.length s - 1.
Proof.
  induction s as [|c s IH]; [done|].
  destruct s as [|c' s]; [done|].
  change (join_chars (String c (String c' s)))
    with (String c (String " "%char (join_chars (String c' s)))).
  cbn [String.length] in *. lia.
Qed.

Lemma find_app_fresh {A} (f : A -> bool) l x :
  (forall y, y ∈ l -> f y = false) -> f x = true ->
  List.find f (l ++ [x]) = Some x.
Proof.
  intros Hl Hx. induction l as [|y l IH]; simpl; [by rewrite Hx|].
  rewrite Hl by by left. apply IH. intros z Hz. apply Hl. by right.
Qed.

End TokenFacts.

